(** * GFPGAN v1 architecture: a shallow embedding of [gfpgan/archs/gfpganv1_arch.py]

    The file embeds the Python-level control flow of

    - [StyleGAN2GeneratorSFT.forward] (style truncation, latent expansion,
      the paired synthesis loop with SFT modulation),
    - [ConvUpLayer.__init__] and [ResUpBlock.__init__],
    - [GFPGANv1.get_latents] and [GFPGANv1.forward],
    - [FacialComponentDiscriminator.__init__] and [.forward],

    over a small model of the torch tensor operations the code calls
    directly ([unsqueeze], [repeat], [cat], [split], indexing, broadcasting
    arithmetic).  Tensor elements are kept abstract (class [Scalar]): every
    statement below holds whatever the element arithmetic is.  The layers of
    basicsr ([StyleConv], [ToRGB], [ConvLayer], the style MLP, the constant
    input) are imported by the source, not defined by it; they appear as
    functions carried by the module records.  A layer is a total function
    of its arguments: what a layer raises on operands it cannot take, and
    the noise it draws itself when it is given none, are the layer's own
    and are not modelled.  Python integers that can be negative are in [Z],
    lengths and loop counters in [nat], the truncation ratio in [Q].  The
    constructor of [ConvUpLayer] takes its sizes from its caller: there
    the conversion of an integer to a float and the reading of a size as
    a 64-bit integer are modelled with the exceptions they raise.  Memory
    is not a resource of the model. *)

From Stdlib Require Import String.
From Stdlib Require Import List ZArith QArith Lia Bool Arith.
Import ListNotations.

Local Open Scope nat_scope.

(** ** Python exceptions and results *)

Inductive error : Type :=
| IndexError
| TypeError
| ValueError
| RuntimeError
| AttributeError
| ZeroDivisionError
| OverflowError
| UnboundLocalError (name : string).

Inductive res (A : Type) : Type :=
| Ok (a : A)
| Raise (e : error).

Arguments Ok {A} a.
Arguments Raise {A} e.

Definition rbind {A B : Type} (r : res A) (f : A -> res B) : res B :=
  match r with
  | Ok a => f a
  | Raise e => Raise e
  end.

Fixpoint rmap {A B : Type} (f : A -> res B) (l : list A) : res (list B) :=
  match l with
  | [] => Ok []
  | x :: l' =>
      rbind (f x) (fun y => rbind (rmap f l') (fun ys => Ok (y :: ys)))
  end.

(** [l[i]] for a non-negative index. *)
Definition getitem {A : Type} (l : list A) (i : nat) : res A :=
  match nth_error l i with
  | Some x => Ok x
  | None => Raise IndexError
  end.

(** [l[::2]]; [l[1::2]] is [evens (skipn 1 l)], [l[2::2]] is [evens (skipn 2 l)]. *)
Fixpoint evens {A : Type} (l : list A) : list A :=
  match l with
  | [] => []
  | x :: l' =>
      x :: match l' with
           | [] => []
           | _ :: l'' => evens l''
           end
  end.

Fixpoint zip5 {A B C D E : Type}
  (la : list A) (lb : list B) (lc : list C) (ld : list D) (le : list E)
  : list (A * B * C * D * E) :=
  match la, lb, lc, ld, le with
  | a :: la', b :: lb', c :: lc', d :: ld', e :: le' =>
      (a, b, c, d, e) :: zip5 la' lb' lc' ld' le'
  | _, _, _, _, _ => []
  end.

Fixpoint zip_with {A B C : Type} (f : A -> B -> C) (la : list A) (lb : list B)
  : list C :=
  match la, lb with
  | a :: la', b :: lb' => f a b :: zip_with f la' lb'
  | _, _ => []
  end.

(** [random.randint(a, b)]: [rnd] is the entropy the draw consumes; every
    integer of [a, b] is the outcome of some [rnd], and no other is. *)
Definition randint (a b : Z) (rnd : nat) : res Z :=
  if (b <? a)%Z then Raise ValueError
  else Ok (a + (Z.of_nat rnd) mod (b - a + 1))%Z.

(** ** Tensors *)

(** The element arithmetic of tensors, and the product of a Python number
    with an element. *)
Class Scalar (elt : Type) : Type := {
  eadd : elt -> elt -> elt;
  esub : elt -> elt -> elt;
  emul : elt -> elt -> elt;
  escal : Q -> elt -> elt
}.

(** A tensor is its shape and its elements, read by multi-index. *)
Record tensor (elt : Type) : Type := mkT {
  shape : list nat;
  item : list nat -> elt
}.

Arguments mkT {elt} shape item.
Arguments shape {elt} t.
Arguments item {elt} t idx.

Module Torch.
Section Ops.
Context {elt : Type} {Sc : Scalar elt}.

Definition ndim (t : tensor elt) : nat := length (shape t).

(** [t.shape[0]] *)
Definition shape0 (t : tensor elt) : res nat :=
  match shape t with
  | d0 :: _ => Ok d0
  | [] => Raise IndexError
  end.

(** [t.size(1)] *)
Definition size1 (t : tensor elt) : res nat :=
  match shape t with
  | _ :: d1 :: _ => Ok d1
  | _ => Raise IndexError
  end.

(** [t[:, i]] for [0 <= i] *)
Definition select1 (t : tensor elt) (i : nat) : res (tensor elt) :=
  match shape t with
  | d0 :: d1 :: r =>
      if i <? d1 then
        Ok (mkT (d0 :: r)
              (fun idx => match idx with
                          | i0 :: rest => item t (i0 :: i :: rest)
                          | [] => item t []
                          end))
      else Raise IndexError
  | _ => Raise IndexError
  end.

(** [t.unsqueeze(1)] *)
Definition unsqueeze1 (t : tensor elt) : res (tensor elt) :=
  match shape t with
  | d0 :: r =>
      Ok (mkT (d0 :: 1 :: r)
            (fun idx => match idx with
                        | i0 :: _ :: rest => item t (i0 :: rest)
                        | _ => item t idx
                        end))
  | [] => Raise IndexError
  end.

(** [t.repeat(s0, s1, ...)] for counts that fit a signed 64-bit word, as
    torch reads them: the shape is padded on the left with ones up to the
    number of sizes, then every axis is tiled.  The counts the source
    passes are layer counts and batch sizes, which fit, and the caller's
    [inject_index], which the statements keep within that range. *)
Definition t_repeat (t : tensor elt) (sizes : list Z) : res (tensor elt) :=
  if length sizes <? ndim t then Raise RuntimeError
  else if existsb (fun z => (z <? 0)%Z) sizes then Raise RuntimeError
  else
    let pad := length sizes - ndim t in
    let sh := List.repeat 1 pad ++ shape t in
    Ok (mkT (zip_with Nat.mul sh (map Z.to_nat sizes))
          (fun idx => item t (skipn pad (zip_with Nat.modulo idx sh)))).

Fixpoint shape_eqb (a b : list nat) : bool :=
  match a, b with
  | [], [] => true
  | x :: a', y :: b' => (x =? y) && shape_eqb a' b'
  | _, _ => false
  end.

(** [torch.cat([a, b], dim=1)]: all axes but the second agree.  The
    operands the source passes have at least two axes. *)
Definition cat1 (a b : tensor elt) : res (tensor elt) :=
  match shape a, shape b with
  | a0 :: a1 :: ar, b0 :: b1 :: br =>
      if (a0 =? b0) && shape_eqb ar br then
        Ok (mkT (a0 :: a1 + b1 :: ar)
              (fun idx => match idx with
                          | i0 :: c :: rest =>
                              if c <? a1 then item a (i0 :: c :: rest)
                              else item b (i0 :: c - a1 :: rest)
                          | _ => item a idx
                          end))
      else Raise RuntimeError
  | _, _ => Raise IndexError
  end.

(** The [k]-th chunk of [torch.split(t, n, dim=1)]. *)
Definition chunk1 (t : tensor elt) (d0 c : nat) (r : list nat) (n k : nat)
  : tensor elt :=
  mkT (d0 :: Nat.min n (c - k * n) :: r)
    (fun idx => match idx with
                | i0 :: j :: rest => item t (i0 :: k * n + j :: rest)
                | _ => item t idx
                end).

(** [torch.split(t, n, dim=1)]: chunks of [n] channels, the last one
    shorter when [n] does not divide the axis; a chunk size of zero is
    only accepted on an empty axis. *)
Definition split1 (t : tensor elt) (n : nat) : res (list (tensor elt)) :=
  match shape t with
  | d0 :: c :: r =>
      if n =? 0 then
        if c =? 0 then Ok [t] else Raise RuntimeError
      else
        Ok (map (chunk1 t d0 c r n) (seq 0 (Nat.max 1 ((c + n - 1) / n))))
  | _ => Raise IndexError
  end.

(** Broadcasting, on shapes read from the last axis. *)
Fixpoint bshape_rev (a b : list nat) : option (list nat) :=
  match a, b with
  | [], _ => Some b
  | _, [] => Some a
  | x :: a', y :: b' =>
      if x =? y then option_map (cons x) (bshape_rev a' b')
      else if x =? 1 then option_map (cons y) (bshape_rev a' b')
      else if y =? 1 then option_map (cons x) (bshape_rev a' b')
      else None
  end.

Definition broadcast_shape (a b : list nat) : option (list nat) :=
  option_map (@rev nat) (bshape_rev (rev a) (rev b)).

(** The index an operand of shape [sh] is read at, for the index [idx] of
    the broadcast result. *)
Definition bidx (sh idx : list nat) : list nat :=
  zip_with (fun s i => if s =? 1 then 0 else i)
    sh (skipn (length idx - length sh) idx).

Definition binop (op : elt -> elt -> elt) (a b : tensor elt)
  : res (tensor elt) :=
  match broadcast_shape (shape a) (shape b) with
  | Some s =>
      Ok (mkT s (fun idx => op (item a (bidx (shape a) idx))
                               (item b (bidx (shape b) idx))))
  | None => Raise RuntimeError
  end.

Definition tadd : tensor elt -> tensor elt -> res (tensor elt) := binop eadd.
Definition tsub : tensor elt -> tensor elt -> res (tensor elt) := binop esub.
Definition tmul : tensor elt -> tensor elt -> res (tensor elt) := binop emul.

(** [q * t] for a Python number [q] *)
Definition smul (q : Q) (t : tensor elt) : tensor elt :=
  mkT (shape t) (fun idx => escal q (item t idx)).

End Ops.
End Torch.

(** ** Results with a trace of the layers applied *)

(** What the main generation part of a forward pass applies, in order: the
    constant input, the style convolutions, the SFT modulations and the
    to-RGB layers.  The index of a [StyleConv] or [ToRGB] event is the
    latent slice the layer is given; the index of an [SFT] event is the
    loop counter [i] of the level.  The style MLP, applied before, leaves
    no event. *)
Inductive event : Type :=
| EvConstantInput
| EvStyleConv (i : nat)
| EvSFT (i : nat)
| EvToRGB (i : nat).

Definition M (A : Type) : Type := (list event * res A)%type.

Definition ret {A : Type} (a : A) : M A := ([], Ok a).

Definition bind {A B : Type} (m : M A) (f : A -> M B) : M B :=
  match m with
  | (tr, Ok a) => let (tr', r) := f a in (tr ++ tr', r)
  | (tr, Raise e) => (tr, Raise e)
  end.

Definition lift {A : Type} (r : res A) : M A := ([], r).

Definition tell (e : event) : M unit := ([e], Ok tt).

Declare Scope py_scope.
Delimit Scope py_scope with py.

Notation "x <- c ;; k" := (bind c (fun x => k))
  (at level 61, c at next level, right associativity) : py_scope.
Notation "c ;;; k" := (bind c (fun _ => k))
  (at level 61, right associativity) : py_scope.
Notation "x <~ c ;; k" := (rbind c (fun x => k))
  (at level 61, c at next level, right associativity) : py_scope.

Definition is_to_rgb (e : event) : bool :=
  match e with
  | EvToRGB _ => true
  | _ => false
  end.

(** The number of to-RGB steps a run performed. *)
Definition to_rgb_steps (tr : list event) : nat :=
  length (filter is_to_rgb tr).


(** ** StyleGAN2GeneratorSFT *)

Module Generator.
Section Gen.
Context {elt : Type} {Sc : Scalar elt}.
Import Torch.
Local Open Scope py_scope.

(** [conv(x, style, noise=...)] *)
Definition StyleConv : Type :=
  tensor elt -> tensor elt -> option (tensor elt) -> tensor elt.

(** [to_rgb(x, style, skip)] *)
Definition ToRGB : Type :=
  tensor elt -> tensor elt -> option (tensor elt) -> tensor elt.

(** The attributes [forward] reads.  All but [sft_half] are set by the
    constructor of the base class [StyleGAN2Generator] of basicsr. *)
Record StyleGAN2GeneratorSFT : Type := {
  log_size : Z;
  num_layers : Z;
  num_latent : Z;
  style_mlp : tensor elt -> tensor elt;
  constant_input : nat -> tensor elt;
  style_conv1 : StyleConv;
  to_rgb1 : ToRGB;
  style_convs : list StyleConv;
  to_rgbs : list ToRGB;
  noises : list (tensor elt);
  sft_half : bool
}.

(** What the base-class constructor establishes, for an output size of at
    least 4: [num_layers = (log_size - 2) * 2 + 1],
    [num_latent = log_size * 2 - 2], two style convolutions and one
    to-RGB layer per resolution from 8 up, one noise buffer per layer. *)
Definition constructed (g : StyleGAN2GeneratorSFT) : Prop :=
  (2 <= log_size g)%Z /\
  num_layers g = ((log_size g - 2) * 2 + 1)%Z /\
  num_latent g = (log_size g * 2 - 2)%Z /\
  Z.of_nat (length (style_convs g)) = (2 * (log_size g - 2))%Z /\
  Z.of_nat (length (to_rgbs g)) = (log_size g - 2)%Z /\
  Z.of_nat (length (noises g)) = num_layers g.

(** Lines 76-80: the noise of each style convolution. *)
Definition get_noise (g : StyleGAN2GeneratorSFT)
  (noise : option (list (option (tensor elt)))) (randomize_noise : bool)
  : res (list (option (tensor elt))) :=
  match noise with
  | Some l => Ok l
  | None =>
      if randomize_noise then
        Ok (List.repeat None (Z.to_nat (num_layers g)))
      else
        rmap (fun i => match nth_error (noises g) i with
                       | Some t => Ok (Some t)
                       | None => Raise AttributeError
                       end)
          (seq 0 (Z.to_nat (num_layers g)))
  end.

(** Lines 82-86: style truncation. *)
Definition style_truncation (truncation : Q)
  (truncation_latent : option (tensor elt)) (styles : list (tensor elt))
  : res (list (tensor elt)) :=
  if negb (Qle_bool 1 truncation) then
    rmap (fun style =>
            match truncation_latent with
            | None => Raise TypeError
            | Some center =>
                d <~ tsub style center ;;
                tadd center (smul truncation d)
            end) styles
  else Ok styles.

(** Lines 97-98: the injection index of style mixing. *)
Definition choose_inject_index (g : StyleGAN2GeneratorSFT)
  (inject_index : option Z) (rnd : nat) : res Z :=
  match inject_index with
  | None => randint 1 (num_latent g - 1) rnd
  | Some k => Ok k
  end.

(** Lines 88-101: the latent of every layer.  [None] is the local
    variable [latent] left unbound. *)
Definition get_latent (g : StyleGAN2GeneratorSFT)
  (styles : list (tensor elt)) (inject_index : option Z) (rnd : nat)
  : res (option (tensor elt)) :=
  match styles with
  | [s] =>
      let inject_index := num_latent g in
      if ndim s <? 3 then
        u <~ unsqueeze1 s ;;
        latent <~ t_repeat u [1%Z; inject_index; 1%Z] ;;
        Ok (Some latent)
      else Ok (Some s)
  | [s0; s1] =>
      inject_index <~ choose_inject_index g inject_index rnd ;;
      u0 <~ unsqueeze1 s0 ;;
      latent1 <~ t_repeat u0 [1%Z; inject_index; 1%Z] ;;
      u1 <~ unsqueeze1 s1 ;;
      latent2 <~ t_repeat u1 [1%Z; (num_latent g - inject_index)%Z; 1%Z] ;;
      latent <~ cat1 latent1 latent2 ;;
      Ok (Some latent)
  | _ => Ok None
  end.

(** [a, b = chunks] *)
Definition unpack2 {A : Type} (chunks : list A) : res (A * A) :=
  match chunks with
  | [a; b] => Ok (a, b)
  | _ => Raise ValueError
  end.

(** Lines 116-121: the SFT arithmetic of level [i]. *)
Definition sft_part (g : StyleGAN2GeneratorSFT)
  (conditions : list (tensor elt)) (i : nat) (out : tensor elt)
  : res (tensor elt) :=
  if sft_half g then
    c <~ size1 out ;;
    chunks <~ split1 out (c / 2) ;;
    halves <~ unpack2 chunks ;;
    let (out_same, out_sft) := halves in
    scale <~ getitem conditions (i - 1) ;;
    scaled <~ tmul out_sft scale ;;
    shift <~ getitem conditions i ;;
    out_sft <~ tadd scaled shift ;;
    cat1 out_same out_sft
  else
    scale <~ getitem conditions (i - 1) ;;
    scaled <~ tmul out scale ;;
    shift <~ getitem conditions i ;;
    tadd scaled shift.

(** Lines 113-121: SFT is applied while conditions remain. *)
Definition sft_level (g : StyleGAN2GeneratorSFT)
  (conditions : list (tensor elt)) (i : nat) (out : tensor elt)
  : M (tensor elt) :=
  if i <? length conditions then
    out <- lift (sft_part g conditions i out) ;;
    tell (EvSFT i) ;;;
    ret out
  else ret out.

(** Lines 109-125: the loop over the paired style convolutions. *)
Fixpoint main_loop (g : StyleGAN2GeneratorSFT)
  (conditions : list (tensor elt)) (latent : tensor elt)
  (levels : list (StyleConv * StyleConv * option (tensor elt)
                  * option (tensor elt) * ToRGB))
  (i : nat) (out skip : tensor elt) : M (tensor elt) :=
  match levels with
  | [] => ret skip
  | (conv1, conv2, noise1, noise2, to_rgb) :: levels' =>
      w <- lift (select1 latent i) ;;
      tell (EvStyleConv i) ;;;
      let out := conv1 out w noise1 in
      out <- sft_level g conditions i out ;;
      w <- lift (select1 latent (i + 1)) ;;
      tell (EvStyleConv (i + 1)) ;;;
      let out := conv2 out w noise2 in
      w <- lift (select1 latent (i + 2)) ;;
      tell (EvToRGB (i + 2)) ;;;
      let skip := to_rgb out w (Some skip) in
      main_loop g conditions latent levels' (i + 2) out skip
  end.

(** The tuples [zip] yields at line 109. *)
Definition levels_of (g : StyleGAN2GeneratorSFT)
  (noise : list (option (tensor elt)))
  : list (StyleConv * StyleConv * option (tensor elt)
          * option (tensor elt) * ToRGB) :=
  zip5 (evens (style_convs g)) (evens (skipn 1 (style_convs g)))
    (evens (skipn 1 noise)) (evens (skipn 2 noise)) (to_rgbs g).

(** Lines 72-132.  [rnd] is the entropy [random.randint] draws from. *)
Definition forward (g : StyleGAN2GeneratorSFT)
  (styles conditions : list (tensor elt))
  (input_is_latent : bool)
  (noise : option (list (option (tensor elt))))
  (randomize_noise : bool)
  (truncation : Q)
  (truncation_latent : option (tensor elt))
  (inject_index : option Z)
  (return_latents : bool)
  (rnd : nat)
  : M (tensor elt * option (tensor elt)) :=
  let styles :=
    if input_is_latent then styles else map (style_mlp g) styles in
  noise <- lift (get_noise g noise randomize_noise) ;;
  styles <- lift (style_truncation truncation truncation_latent styles) ;;
  latent <- lift (get_latent g styles inject_index rnd) ;;
  latent <- lift (match latent with
                  | Some t => Ok t
                  | None => Raise (UnboundLocalError "latent")
                  end) ;;
  batch <- lift (shape0 latent) ;;
  tell EvConstantInput ;;;
  let out := constant_input g batch in
  w <- lift (select1 latent 0) ;;
  noise0 <- lift (getitem noise 0) ;;
  tell (EvStyleConv 0) ;;;
  let out := style_conv1 g out w noise0 in
  w <- lift (select1 latent 1) ;;
  tell (EvToRGB 1) ;;;
  let skip := to_rgb1 g out w None in
  image <- main_loop g conditions latent (levels_of g noise) 1 out skip ;;
  ret (image, if return_latents then Some latent else None).

(** *** Vocabulary of the statements *)

(** The styles [get_latent] is given: the argument, mapped by the style
    MLP unless it is latent already, then truncated. *)
Definition latent_styles (g : StyleGAN2GeneratorSFT)
  (styles : list (tensor elt)) (input_is_latent : bool)
  (truncation : Q) (truncation_latent : option (tensor elt))
  : res (list (tensor elt)) :=
  style_truncation truncation truncation_latent
    (if input_is_latent then styles else map (style_mlp g) styles).

(** One style of shape (batch, dim), or one style that carries a latent
    per layer already, or two styles of one shape (batch, dim) with an
    injection index that leaves both repetition counts non-negative. *)
Definition styles_ok (g : StyleGAN2GeneratorSFT)
  (styles : list (tensor elt)) (inject_index : option Z) : Prop :=
  match styles with
  | [s] =>
      (exists b d, shape s = [b; d]) \/
      (exists d0 d1 d2 r, shape s = d0 :: d1 :: d2 :: r /\
                          (num_latent g <= Z.of_nat d1)%Z)
  | [s0; s1] =>
      (exists b d, shape s0 = [b; d] /\ shape s1 = [b; d]) /\
      match inject_index with
      | None => True
      | Some k => (0 <= k <= num_latent g)%Z
      end
  | _ => False
  end.

(** A noise list, when given, has an entry for every layer. *)
Definition noise_ok (g : StyleGAN2GeneratorSFT)
  (noise : option (list (option (tensor elt)))) : Prop :=
  match noise with
  | None => True
  | Some l => (num_layers g <= Z.of_nat (length l))%Z
  end.

(** Every supplied (scale, shift) pair fits, by torch's shape rules, what
    the first style convolution of its own level returns: the pair
    [conditions[2k]], [conditions[2k+1]] is met by [style_convs[2k]]. *)
Definition sft_fits (g : StyleGAN2GeneratorSFT)
  (conditions : list (tensor elt)) : Prop :=
  forall (k : nat) (scale shift : tensor elt) (conv : StyleConv)
         (x w : tensor elt) (n : option (tensor elt)),
    nth_error conditions (2 * k) = Some scale ->
    nth_error conditions (2 * k + 1) = Some shift ->
    nth_error (style_convs g) (2 * k) = Some conv ->
    exists r, sft_part g [scale; shift] 1 (conv x w n) = Ok r.

(** An index within the bounds of a shape. *)
Definition in_range (idx sh : list nat) : Prop := Forall2 lt idx sh.

(** The arithmetic [x * scale + shift] on whole tensors. *)
Definition scale_shift (x scale shift : tensor elt) : res (tensor elt) :=
  scaled <~ tmul x scale ;; tadd scaled shift.

(** What a pass holds between two levels: the feature map [out] and the
    image so far [skip]. *)
Definition row : Type := (tensor elt * tensor elt)%type.

(** Lines 104-106, when they return: the features are the first style
    convolution of the constant input, with latent slice 0 and noise 0;
    the image is the first to-RGB layer of these features, with latent
    slice 1 and no skip. *)
Definition first_row (g : StyleGAN2GeneratorSFT) (latent : tensor elt)
  (nl : list (option (tensor elt))) (r : row) : Prop :=
  exists (batch : nat) (w0 w1 : tensor elt) (noise0 : option (tensor elt)),
    shape0 latent = Ok batch /\
    select1 latent 0 = Ok w0 /\
    nth_error nl 0 = Some noise0 /\
    select1 latent 1 = Ok w1 /\
    fst r = style_conv1 g (constant_input g batch) w0 noise0 /\
    snd r = to_rgb1 g (fst r) w1 None.

(** Level [k] (0, 1, ...) of the loop, around its SFT step: [x] is what
    the first convolution of the level returns on the features of [r],
    [mid] is what the second convolution is given, and [r'] holds the
    features it returns and the image the to-RGB layer of the level makes
    of them and of the image of [r]. *)
Definition level_frame (g : StyleGAN2GeneratorSFT) (latent : tensor elt)
  (nl : list (option (tensor elt))) (k : nat)
  (r : row) (x mid : tensor elt) (r' : row) : Prop :=
  exists (conv1 conv2 : StyleConv) (to_rgb : ToRGB)
         (noise1 noise2 : option (tensor elt)) (w0 w1 w2 : tensor elt),
    nth_error (style_convs g) (2 * k) = Some conv1 /\
    nth_error (style_convs g) (2 * k + 1) = Some conv2 /\
    nth_error (to_rgbs g) k = Some to_rgb /\
    nth_error nl (2 * k + 1) = Some noise1 /\
    nth_error nl (2 * k + 2) = Some noise2 /\
    select1 latent (2 * k + 1) = Ok w0 /\
    select1 latent (2 * k + 2) = Ok w1 /\
    select1 latent (2 * k + 3) = Ok w2 /\
    x = conv1 (fst r) w0 noise1 /\
    fst r' = conv2 mid w1 noise2 /\
    snd r' = to_rgb (fst r') w2 (Some (snd r)).

(** The SFT step of the level with loop counter [i], on the features
    [x]: below [len(conditions)] the step returns [mid], the SFT
    arithmetic of [x] with the scale [conditions[i - 1]] and the shift
    [conditions[i]]; from [len(conditions)] on, [mid] is [x]. *)
Definition sft_outcome (g : StyleGAN2GeneratorSFT)
  (conditions : list (tensor elt)) (i : nat) (x mid : tensor elt) : Prop :=
  (i < length conditions ->
   exists scale shift : tensor elt,
     nth_error conditions (i - 1) = Some scale /\
     nth_error conditions i = Some shift /\
     sft_part g [scale; shift] 1 x = Ok mid) /\
  (length conditions <= i -> mid = x).

(** The rows of a pass, level by level: the first is [first_row], and
    each next one comes from the one before by a level of the loop with
    its SFT step.  Every row but the first holds one more to-RGB step. *)
Definition pass_rows (g : StyleGAN2GeneratorSFT)
  (conditions : list (tensor elt)) (latent : tensor elt)
  (nl : list (option (tensor elt))) (rows : list row) : Prop :=
  (exists r0, nth_error rows 0 = Some r0 /\ first_row g latent nl r0) /\
  forall (k : nat) (r r' : row),
    nth_error rows k = Some r ->
    nth_error rows (S k) = Some r' ->
    exists x mid : tensor elt,
      level_frame g latent nl k r x mid r' /\
      sft_outcome g conditions (2 * k + 1) x mid.

(** Every supplied (scale, shift) pair fits the features its level has
    in the pass: after [k] levels, the SFT arithmetic of the pair
    [conditions[2k]], [conditions[2k+1]] returns on what the first
    convolution of level [k] makes of the features reached. *)
Definition sft_fits_pass (g : StyleGAN2GeneratorSFT)
  (conditions : list (tensor elt)) (latent : tensor elt)
  (nl : list (option (tensor elt))) : Prop :=
  forall (k : nat) (rows : list row) (r : row) (conv : StyleConv)
         (w : tensor elt) (n : option (tensor elt))
         (scale shift : tensor elt),
    pass_rows g conditions latent nl rows ->
    length rows = S k ->
    nth_error rows k = Some r ->
    nth_error (style_convs g) (2 * k) = Some conv ->
    nth_error nl (2 * k + 1) = Some n ->
    select1 latent (2 * k + 1) = Ok w ->
    nth_error conditions (2 * k) = Some scale ->
    nth_error conditions (2 * k + 1) = Some shift ->
    exists y, sft_part g [scale; shift] 1 (conv (fst r) w n) = Ok y.

(** Two consecutive rows of the loop of lines 109-125 over [levels],
    entered with the counter [i]: turn [j] takes [r] to [r'] through the
    layers of its tuple, with the latent slices [i + 2j], [i + 2j + 1] and
    [i + 2j + 2], and through the SFT step of the counter [i + 2j]. *)
Definition loop_step (g : StyleGAN2GeneratorSFT)
  (conditions : list (tensor elt)) (latent : tensor elt)
  (levels : list (StyleConv * StyleConv * option (tensor elt)
                  * option (tensor elt) * ToRGB))
  (i j : nat) (r r' : row) : Prop :=
  exists (c1 c2 : StyleConv) (n1 n2 : option (tensor elt)) (rgb : ToRGB)
         (w0 w1 w2 mid : tensor elt),
    nth_error levels j = Some (c1, c2, n1, n2, rgb) /\
    select1 latent (i + 2 * j) = Ok w0 /\
    select1 latent (i + 2 * j + 1) = Ok w1 /\
    select1 latent (i + 2 * j + 2) = Ok w2 /\
    snd (sft_level g conditions (i + 2 * j) (c1 (fst r) w0 n1)) = Ok mid /\
    r' = (c2 mid w1 n2, rgb (c2 mid w1 n2) w2 (Some (snd r))).

(** A call is refused for its styles when it raises one and the same
    exception whatever its other arguments are: the styles are tested
    before anything else is looked at. *)
Definition refused_for_styles (g : StyleGAN2GeneratorSFT)
  (styles : list (tensor elt)) : Prop :=
  exists e : error,
    forall (conditions : list (tensor elt)) (input_is_latent : bool)
           (noise : option (list (option (tensor elt))))
           (randomize_noise : bool) (truncation : Q)
           (truncation_latent : option (tensor elt))
           (inject_index : option Z) (return_latents : bool) (rnd : nat),
      snd (forward g styles conditions input_is_latent noise
             randomize_noise truncation truncation_latent inject_index
             return_latents rnd)
      = Raise e.

(** The trace of [n] complete levels from loop counter [i] on, when
    [nconds] conditions are supplied. *)
Fixpoint loop_trace (nconds i n : nat) : list event :=
  match n with
  | 0 => []
  | S n' =>
      EvStyleConv i
        :: (if i <? nconds then [EvSFT i] else [])
        ++ EvStyleConv (i + 1) :: EvToRGB (i + 2)
        :: loop_trace nconds (i + 2) n'
  end.

End Gen.
End Generator.

(** ** ConvLayer of basicsr, as configured by its constructor arguments

    [ConvLayer(in_channels, out_channels, kernel_size, downsample=False,
    resample_kernel=(1, 3, 3, 1), bias=True, activate=True)] *)
Record ConvLayer : Type := mkConvLayer {
  cl_in_channels : Z;
  cl_out_channels : Z;
  cl_kernel_size : Z;
  cl_downsample : bool;
  cl_resample_kernel : list Z;
  cl_bias : bool;
  cl_activate : bool
}.

(** ** ConvUpLayer and ResUpBlock *)

Module ConvUp.

Inductive act_layer : Type :=
| FusedLeakyReLU (num_channels : Z)
| ScaledLeakyReLU (negative_slope : Q).

(** [1 / math.sqrt(n)], kept symbolic *)
Inductive scale_t : Type :=
| InvSqrt (n : Z).

(** The attributes [__init__] sets.  [weight] is drawn by [torch.randn]:
    only its shape is recorded.  [bias] is the parameter registered under
    that name, [None] when it is registered empty. *)
Record ConvUpLayer : Type := {
  in_channels : Z;
  out_channels : Z;
  kernel_size : Z;
  stride : Z;
  padding : Z;
  scale : scale_t;
  weight_shape : list Z;
  bias : option (list Q);
  activation : option act_layer
}.

(** The integers [float] takes: the conversion rounds to 53 bits, to
    even on a tie, and raises [OverflowError] from [2**1024 - 2**970]
    on, in either sign. *)
Definition fits_float (n : Z) : bool :=
  (Z.abs n <? 2 ^ 1024 - 2 ^ 970)%Z.

(** The integers torch takes as a size: those of a signed 64-bit word. *)
Definition int64 (n : Z) : bool :=
  (- 2 ^ 63 <=? n)%Z && (n <? 2 ^ 63)%Z.

(** [1 / math.sqrt(n)] for an integer [n]: [math.sqrt] converts [n] to a
    float, rejects a negative one, and the quotient rejects zero. *)
Definition inv_sqrt (n : Z) : res scale_t :=
  if negb (fits_float n) then Raise OverflowError
  else if (n <? 0)%Z then Raise ValueError
  else if (n =? 0)%Z then Raise ZeroDivisionError
  else Ok (InvSqrt n).

(** [torch.randn(d0, d1, ...)], the shape of it: the sizes are read as
    64-bit integers first, and none may be negative.  Memory is not a
    resource of the model: a tensor whose sizes torch accepts is
    allocated. *)
Definition randn (dims : list Z) : res (list Z) :=
  if negb (forallb int64 dims) then Raise TypeError
  else if existsb (fun z => (z <? 0)%Z) dims then Raise RuntimeError
  else Ok dims.

(** [torch.zeros(n).fill_(v)] *)
Definition zeros_fill (n : Z) (v : Q) : res (list Q) :=
  if negb (int64 n) then Raise TypeError
  else if (n <? 0)%Z then Raise RuntimeError
  else Ok (List.repeat v (Z.to_nat n)).

Local Open Scope py_scope.

(** Lines 149-181: [ConvUpLayer.__init__]. *)
Definition init (in_channels out_channels kernel_size stride padding : Z)
  (bias : bool) (bias_init_val : Q) (activate : bool) : res ConvUpLayer :=
  scale <~ inv_sqrt (in_channels * kernel_size ^ 2)%Z ;;
  weight <~ randn [out_channels; in_channels; kernel_size; kernel_size] ;;
  bias_param <~ (if bias && negb activate then
                   b <~ zeros_fill out_channels bias_init_val ;;
                   Ok (Some b)
                 else Ok None) ;;
  let activation :=
    if activate then
      if bias then Some (FusedLeakyReLU out_channels)
      else Some (ScaledLeakyReLU (2 # 10))
    else None in
  Ok {| in_channels := in_channels;
        out_channels := out_channels;
        kernel_size := kernel_size;
        stride := stride;
        padding := padding;
        scale := scale;
        weight_shape := weight;
        bias := bias_param;
        activation := activation |}.

Record ResUpBlock : Type := {
  conv1 : ConvLayer;
  conv2 : ConvUpLayer;
  skip : ConvUpLayer
}.

(** Lines 208-213: [ResUpBlock.__init__]. *)
Definition resup_init (in_channels out_channels : Z) : res ResUpBlock :=
  let c1 := mkConvLayer in_channels in_channels 3 false [1; 3; 3; 1]%Z
              true true in
  c2 <~ init in_channels out_channels 3 1 1 true 0 true ;;
  sk <~ init in_channels out_channels 1 1 0 false 0 false ;;
  Ok {| conv1 := c1; conv2 := c2; skip := sk |}.

End ConvUp.

(** ** FacialComponentDiscriminator *)

Module Discriminator.

Record FacialComponentDiscriminator : Type := {
  conv1 : ConvLayer;
  conv2 : ConvLayer;
  conv3 : ConvLayer;
  conv4 : ConvLayer;
  conv5 : ConvLayer;
  final_conv : ConvLayer
}.

(** Lines 316-324: [FacialComponentDiscriminator.__init__]. *)
Definition init : FacialComponentDiscriminator :=
  {| conv1 := mkConvLayer 3 64 3 false [1; 3; 3; 1]%Z true true;
     conv2 := mkConvLayer 64 128 3 true [1; 3; 3; 1]%Z true true;
     conv3 := mkConvLayer 128 128 3 false [1; 3; 3; 1]%Z true true;
     conv4 := mkConvLayer 128 256 3 true [1; 3; 3; 1]%Z true true;
     conv5 := mkConvLayer 256 256 3 false [1; 3; 3; 1]%Z true true;
     final_conv := mkConvLayer 256 1 3 false [1; 3; 3; 1]%Z true false |}.

(** [t.size(1)] when the tensor has a channel axis *)
Definition channels {elt : Type} (t : tensor elt) : option nat :=
  nth_error (shape t) 1.

Section Forward.
Context {elt : Type}.
(** The forward function of basicsr's [ConvLayer]. *)
Variable apply : ConvLayer -> tensor elt -> tensor elt.

(** Lines 326-346: [FacialComponentDiscriminator.forward].
    [feat.clone()] is a copy of [feat]. *)
Definition forward (d : FacialComponentDiscriminator) (x : tensor elt)
  (return_feats : bool) : tensor elt * option (list (tensor elt)) :=
  let feat := apply (conv1 d) x in
  let feat := apply (conv3 d) (apply (conv2 d) feat) in
  let rlt_feats := [] in
  let rlt_feats :=
    if return_feats then rlt_feats ++ [feat] else rlt_feats in
  let feat := apply (conv5 d) (apply (conv4 d) feat) in
  let rlt_feats :=
    if return_feats then rlt_feats ++ [feat] else rlt_feats in
  let out := apply (final_conv d) feat in
  if return_feats then (out, Some rlt_feats) else (out, None).

(** A [ConvLayer] given a tensor with its [in_channels] channels returns
    one with its [out_channels] channels. *)
Definition channels_respected : Prop :=
  forall (l : ConvLayer) (x : tensor elt),
    channels x = Some (Z.to_nat (cl_in_channels l)) ->
    channels (apply l x) = Some (Z.to_nat (cl_out_channels l)).

End Forward.

End Discriminator.

(** ** What a trace tells about the latent *)

Definition is_style_conv (e : event) : bool :=
  match e with
  | EvStyleConv _ => true
  | _ => false
  end.

(** The number of style convolutions a run applied. *)
Definition style_conv_steps (tr : list event) : nat :=
  length (filter is_style_conv tr).

(** The latent slices a run handed to its layers, in order. *)
Fixpoint latent_slices (tr : list event) : list nat :=
  match tr with
  | [] => []
  | EvStyleConv i :: tr' => i :: latent_slices tr'
  | EvToRGB i :: tr' => i :: latent_slices tr'
  | _ :: tr' => latent_slices tr'
  end.

(** ** GFPGANv1 *)

(** Indexing the encoder wrapper needs beyond that of the generator. *)
Module TorchIndex.
Section Ops.
Context {elt : Type}.

(** [t[i]] for [0 <= i] *)
Definition select0 (t : tensor elt) (i : nat) : res (tensor elt) :=
  match shape t with
  | d0 :: r =>
      if i <? d0 then Ok (mkT r (fun idx => item t (i :: idx)))
      else Raise IndexError
  | [] => Raise IndexError
  end.

(** [t.unsqueeze(0)] *)
Definition unsqueeze0 (t : tensor elt) : tensor elt :=
  mkT (1 :: shape t)
    (fun idx => match idx with
                | _ :: rest => item t rest
                | [] => item t []
                end).

(** [t[:, i, :]] for [0 <= i]: three indices need three axes. *)
Definition select_mid (t : tensor elt) (i : nat) : res (tensor elt) :=
  match shape t with
  | d0 :: d1 :: d2 :: r =>
      if i <? d1 then
        Ok (mkT (d0 :: d2 :: r)
              (fun idx => match idx with
                          | i0 :: rest => item t (i0 :: i :: rest)
                          | [] => item t []
                          end))
      else Raise IndexError
  | _ => Raise IndexError
  end.

(** [t[:, :n, :]]: the slice is clamped to the axis. *)
Definition slice_mid_to (t : tensor elt) (n : nat) : res (tensor elt) :=
  match shape t with
  | d0 :: d1 :: d2 :: r => Ok (mkT (d0 :: Nat.min n d1 :: d2 :: r) (item t))
  | _ => Raise IndexError
  end.

End Ops.
End TorchIndex.

Module GFPGAN.
Section Net.
Context {elt : Type} {Sc : Scalar elt}.
Import Torch TorchIndex.
Local Open Scope py_scope.

(** What [get_latents] and [forward] read of the [pSp] network: its
    encoder, [opts.start_from_latent_avg], [latent_avg], and its decoder
    called as [decoder(styles, None, input_is_latent=...,
    randomize_noise=..., return_latents=...)]. *)
Record pSp : Type := {
  encoder : tensor elt -> tensor elt;
  start_from_latent_avg : bool;
  latent_avg : tensor elt;
  decoder : list (tensor elt) -> option (list (tensor elt)) ->
            bool -> bool -> bool -> tensor elt * tensor elt
}.

Record GFPGANv1 : Type := {
  net : pSp
}.

(** Lines 278-287: [GFPGANv1.get_latents]. *)
Definition get_latents (net : pSp) (x : tensor elt) (is_cars : bool)
  : res (tensor elt) :=
  let codes := encoder net x in
  codes <~ (if start_from_latent_avg net then
              if ndim codes =? 2 then
                batch <~ shape0 codes ;;
                avg <~ t_repeat (latent_avg net) [Z.of_nat batch; 1%Z; 1%Z] ;;
                row <~ select_mid avg 0 ;;
                tadd codes row
              else
                batch <~ shape0 codes ;;
                avg <~ t_repeat (latent_avg net) [Z.of_nat batch; 1%Z; 1%Z] ;;
                tadd codes avg
            else Ok codes) ;;
  layers <~ size1 codes ;;
  if (layers =? 18) && is_cars then slice_mid_to codes 16 else Ok codes.

(** Lines 289-308: [GFPGANv1.forward].  [.cuda()] moves the tensor and
    leaves its elements. *)
Definition forward (g : GFPGANv1) (x : tensor elt)
  (return_latents return_rgb randomize_noise : bool)
  : res (tensor elt * tensor elt) :=
  latent_codes <~ get_latents (net g) x false ;;
  first <~ select0 latent_codes 0 ;;
  let (imgs, latents) :=
    decoder (net g) [unsqueeze0 first] None true false true in
  Ok (imgs, latents).

End Net.
End GFPGAN.

(** ** Concrete instances the statements are exercised on *)

Module Example.
Import Torch.

#[export] Instance QScalar : Scalar Q := {
  eadd := Qplus;
  esub := Qminus;
  emul := Qmult;
  escal := Qmult
}.

Definition const (sh : list nat) (v : Q) : tensor Q := mkT sh (fun _ => v).

(** A tensor whose elements tell their position. *)
Definition ramp (sh : list nat) : tensor Q :=
  mkT sh (fun idx => inject_Z (Z.of_nat (fold_left (fun a i => 10 * a + i) idx 0))).

(** A style convolution stand-in: two channels of one pixel. *)
Definition conv_2ch : Generator.StyleConv (elt := Q) :=
  fun x w n => mkT [1; 2; 1; 1] (item x).

Definition rgb_id : Generator.ToRGB (elt := Q) :=
  fun x w skip => x.

(** A generator as constructed for [out_size = 8]. *)
Definition gen8 (half : bool) : Generator.StyleGAN2GeneratorSFT (elt := Q) :=
  {| Generator.log_size := 3;
     Generator.num_layers := 3;
     Generator.num_latent := 4;
     Generator.style_mlp := fun t => t;
     Generator.constant_input := fun b => const [b; 2; 1; 1] 1;
     Generator.style_conv1 := conv_2ch;
     Generator.to_rgb1 := rgb_id;
     Generator.style_convs := [conv_2ch; conv_2ch];
     Generator.to_rgbs := [rgb_id];
     Generator.noises := [const [1; 1; 4; 4] 0; const [1; 1; 8; 8] 0;
                          const [1; 1; 8; 8] 0];
     Generator.sft_half := half |}.

(** A style convolution stand-in of a given size: two channels of [h]
    by [h] pixels. *)
Definition conv_px (h : nat) : Generator.StyleConv (elt := Q) :=
  fun x w n => mkT [1; 2; h; h] (item x).

(** A to-RGB stand-in that adds its features to the image so far. *)
Definition rgb_sum : Generator.ToRGB (elt := Q) :=
  fun x w skip =>
    match skip with
    | Some s => mkT (shape x) (fun idx => (item x idx + item s idx)%Q)
    | None => x
    end.

(** A generator as constructed for [out_size = 16]: two levels, of 8 by
    8 and of 16 by 16 pixels. *)
Definition gen16 : Generator.StyleGAN2GeneratorSFT (elt := Q) :=
  {| Generator.log_size := 4;
     Generator.num_layers := 5;
     Generator.num_latent := 6;
     Generator.style_mlp := fun t => t;
     Generator.constant_input := fun b => const [b; 2; 4; 4] 1;
     Generator.style_conv1 := conv_px 4;
     Generator.to_rgb1 := rgb_sum;
     Generator.style_convs := [conv_px 8; conv_px 8; conv_px 16; conv_px 16];
     Generator.to_rgbs := [rgb_sum; rgb_sum];
     Generator.noises := [const [1; 1; 4; 4] 0; const [1; 1; 8; 8] 0;
                          const [1; 1; 8; 8] 0; const [1; 1; 16; 16] 0;
                          const [1; 1; 16; 16] 0];
     Generator.sft_half := false |}.

(** A (scale, shift) pair for the level of 8 by 8 pixels. *)
Definition scale_8 : tensor Q := const [1; 2; 8; 8] 2.
Definition shift_8 : tensor Q := const [1; 2; 8; 8] 5.

Definition style_a : tensor Q := ramp [1; 2].
Definition style_b : tensor Q := const [1; 2] 7.

(** A (scale, shift) pair for one channel of one pixel. *)
Definition cond_scale : tensor Q := const [1; 1; 1; 1] 2.
Definition cond_shift : tensor Q := const [1; 1; 1; 1] 5.

Definition feat_4ch : tensor Q := ramp [1; 4; 1; 1].

(** A (scale, shift) pair for the upper half of [feat_4ch]. *)
Definition half_scale : tensor Q := const [1; 2; 1; 1] 2.
Definition half_shift : tensor Q := const [1; 2; 1; 1] 5.

(** A [ConvLayer] stand-in: one pixel per output channel. *)
Definition conv_layer (l : ConvLayer) (x : tensor Q) : tensor Q :=
  mkT [1; Z.to_nat (cl_out_channels l); 1; 1] (item x).

Definition image3 : tensor Q := const [1; 3; 1; 1] 1.

End Example.

(** Further instances: an encoder wrapper, longer condition lists. *)
Module ExampleNet.
Import Torch Example.

(** A per-layer latent for [gen8]: four layers of two features. *)
Definition latent_4x2 : tensor Q := ramp [1; 4; 2].

(** A per-layer latent one layer short for [gen8]. *)
Definition latent_3x2 : tensor Q := ramp [1; 3; 2].

(** A truncation centre of the shape of [style_a]. *)
Definition centre : tensor Q := const [1; 2] 3.

(** An encoder that returns eighteen layers of two features for a batch
    of two, whatever the image. *)
Definition encoder18 (x : tensor Q) : tensor Q := ramp [2; 18; 2].

(** An encoder that returns one latent of two features per image. *)
Definition encoder_flat (x : tensor Q) : tensor Q := ramp [2; 2].

Definition decoder_first (styles : list (tensor Q))
  (second : option (list (tensor Q))) (input_is_latent randomize_noise
  return_latents : bool) : tensor Q * tensor Q :=
  match styles with
  | s :: _ => (s, s)
  | [] => (const [] 0, const [] 0)
  end.

Definition psp18 (from_avg : bool) : GFPGAN.pSp (elt := Q) :=
  {| GFPGAN.encoder := encoder18;
     GFPGAN.start_from_latent_avg := from_avg;
     GFPGAN.latent_avg := const [18; 2] 100;
     GFPGAN.decoder := decoder_first |}.

Definition psp_flat : GFPGAN.pSp (elt := Q) :=
  {| GFPGAN.encoder := encoder_flat;
     GFPGAN.start_from_latent_avg := true;
     GFPGAN.latent_avg := const [18; 2] 100;
     GFPGAN.decoder := decoder_first |}.

(** A style for a batch of two. *)
Definition style_two : tensor Q := const [2; 2] 7.

Definition gfpgan18 : GFPGAN.GFPGANv1 (elt := Q) :=
  {| GFPGAN.net := psp18 false |}.

End ExampleNet.

(** * Properties *)

(** ** Style truncation and the injection index *)

Section GeneratorEntry.
Context {elt : Type} {Sc : Scalar elt}.
Import Torch Generator.

(** C8.  With [truncation = 1], the default, the truncation step returns
    the styles it was given, every element unchanged, and it never reads
    [truncation_latent]: the whole forward pass is the same with any
    [truncation_latent] as with none. *)
Theorem truncation_one_is_identity
  (g : @StyleGAN2GeneratorSFT elt) (styles conditions : list (tensor elt))
  (input_is_latent : bool) (noise : option (list (option (tensor elt))))
  (randomize_noise : bool) (truncation_latent : option (tensor elt))
  (inject_index : option Z) (return_latents : bool) (rnd : nat) :
  style_truncation 1 truncation_latent styles = Ok styles /\
  style_truncation 1 None styles = Ok styles /\
  forward g styles conditions input_is_latent noise randomize_noise
    1 truncation_latent inject_index return_latents rnd
  = forward g styles conditions input_is_latent noise randomize_noise
      1 None inject_index return_latents rnd.
Proof.
  repeat split; reflexivity.
Qed.

Lemma randint_range (a b : Z) (rnd : nat) :
  (a <= b)%Z ->
  exists k, randint a b rnd = Ok k /\ (a <= k <= b)%Z.
Proof.
  intros Hab. unfold randint.
  destruct (b <? a)%Z eqn:E; [apply Z.ltb_lt in E; lia|].
  eexists; split; [reflexivity|].
  pose proof (Z.mod_pos_bound (Z.of_nat rnd) (b - a + 1)) as Hm.
  lia.
Qed.

Lemma randint_onto (a b k : Z) :
  (a <= k <= b)%Z ->
  randint a b (Z.to_nat (k - a)) = Ok k.
Proof.
  intros Hk. unfold randint.
  destruct (b <? a)%Z eqn:E; [apply Z.ltb_lt in E; lia|].
  rewrite Z2Nat.id by lia.
  rewrite Z.mod_small by lia.
  f_equal; lia.
Qed.

(** C7, as the code has it.  With two styles and no [inject_index], the
    index drawn lies in [1, num_latent - 1], which is [1, num_layers]:
    every draw falls in that range and every index of the range is the
    outcome of some draw. *)
Theorem drawn_inject_index_range (g : @StyleGAN2GeneratorSFT elt) (rnd : nat) :
  constructed g ->
  (exists k, choose_inject_index g None rnd = Ok k /\
             (1 <= k <= num_latent g - 1)%Z) /\
  (num_latent g - 1 = num_layers g)%Z /\
  (forall k, (1 <= k <= num_layers g)%Z ->
             exists rnd', choose_inject_index g None rnd' = Ok k).
Proof.
  intros (Hlog & Hlay & Hlat & _).
  split; [|split].
  - apply randint_range. lia.
  - lia.
  - intros k Hk. exists (Z.to_nat (k - 1)).
    apply randint_onto. lia.
Qed.

(** C4, as the code has it.  With more than two styles, the call raises,
    and it does so before any layer of the main generation part is
    applied.  No check of the number of styles does it: the styles have
    been mapped and truncated by then, and the exception is the one the
    noise lookup or the truncation arithmetic raises when they fail, and
    otherwise the [UnboundLocalError] of [latent], read at line 104 while
    neither branch of lines 88-101 has bound it. *)
Theorem more_than_two_styles_raises
  (g : @StyleGAN2GeneratorSFT elt) (styles conditions : list (tensor elt))
  (input_is_latent : bool) (noise : option (list (option (tensor elt))))
  (randomize_noise : bool) (truncation : Q)
  (truncation_latent : option (tensor elt))
  (inject_index : option Z) (return_latents : bool) (rnd : nat) :
  2 < length styles ->
  forward g styles conditions input_is_latent noise randomize_noise
    truncation truncation_latent inject_index return_latents rnd
  = ([],
     Raise
       match get_noise g noise randomize_noise with
       | Raise e => e
       | Ok _ =>
           match latent_styles g styles input_is_latent truncation
                   truncation_latent with
           | Raise e => e
           | Ok _ => UnboundLocalError "latent"
           end
       end).
Proof.
  intros Hlen. unfold forward, latent_styles.
  destruct (get_noise g noise randomize_noise) as [n|e]; [|reflexivity].
  set (mapped := if input_is_latent then styles
                 else map (style_mlp g) styles).
  assert (Hm : length mapped = length styles).
  { subst mapped. destruct input_is_latent; [reflexivity|apply length_map]. }
  assert (Hkeep : forall ss,
             style_truncation truncation truncation_latent mapped = Ok ss ->
             length ss = length mapped).
  { unfold style_truncation.
    destruct (negb (Qle_bool 1 truncation)); [|intros ss [= <-]; reflexivity].
    generalize mapped. induction mapped0 as [|x l IH]; intros ss H; simpl in H.
    - injection H as <-. reflexivity.
    - destruct truncation_latent as [c|]; [|discriminate].
      destruct (rbind (tsub x c) _) as [y|]; [|discriminate]. simpl in H.
      destruct (rmap _ l) as [ys|] eqn:E; [|discriminate]. simpl in H.
      injection H as <-. simpl. f_equal. apply IH. reflexivity. }
  destruct (style_truncation truncation truncation_latent mapped)
    as [ss|e] eqn:E; [|reflexivity].
  specialize (Hkeep ss eq_refl).
  destruct ss as [|s0 [|s1 [|s2 ss]]]; simpl in Hkeep; try lia.
  reflexivity.
Qed.

End GeneratorEntry.

(** ** Latent expansion *)

Section LatentExpansion.
Context {elt : Type} {Sc : Scalar elt}.
Import Torch Generator.

Lemma shape_eqb_refl (l : list nat) : shape_eqb l l = true.
Proof.
  induction l as [|x l IH]; simpl; [reflexivity|].
  now rewrite Nat.eqb_refl.
Qed.

(** [s.unsqueeze(1).repeat(1, k, 1)] of a (batch, dim) style: [k] copies
    of the style along a new layer axis. *)
Lemma broadcast_style (s : tensor elt) (b d : nat) (k : Z) :
  shape s = [b; d] ->
  (0 <= k)%Z ->
  exists u r,
    unsqueeze1 s = Ok u /\
    t_repeat u [1%Z; k; 1%Z] = Ok r /\
    shape r = [b; Z.to_nat k; d] /\
    forall n l j, n < b -> j < d -> item r [n; l; j] = item s [n; j].
Proof.
  intros Hs Hk.
  unfold unsqueeze1. rewrite Hs.
  eexists. eexists. split; [reflexivity|].
  unfold t_repeat, ndim. simpl.
  assert (E : (k <? 0)%Z = false) by (apply Z.ltb_ge; lia).
  rewrite E. simpl.
  split; [reflexivity|]. split.
  - rewrite !Nat.mul_1_r, Nat.add_0_r. reflexivity.
  - intros n l j Hn Hj.
    simpl.
    rewrite (Nat.mod_small n b), (Nat.mod_small j d) by assumption.
    reflexivity.
Qed.

Lemma select1_slice (t : tensor elt) (d0 d1 : nat) (r : list nat) (i : nat) :
  shape t = d0 :: d1 :: r ->
  i < d1 ->
  exists w, select1 t i = Ok w /\
            shape w = d0 :: r /\
            forall i0 rest, item w (i0 :: rest) = item t (i0 :: i :: rest).
Proof.
  intros Hs Hi. unfold select1. rewrite Hs.
  apply Nat.ltb_lt in Hi. rewrite Hi.
  eexists. split; [reflexivity|]. split; reflexivity.
Qed.

(** C5.  For a single style of shape (batch, dim), latent expansion
    returns a latent of shape (batch, num_latent, dim), where [num_latent]
    is the number of style convolutions of the generator plus one, and
    every layer slice of it equals the style element by element. *)
Theorem single_style_is_repeated
  (g : @StyleGAN2GeneratorSFT elt) (s : tensor elt) (b d : nat)
  (inject_index : option Z) (rnd : nat) :
  constructed g ->
  shape s = [b; d] ->
  exists latent,
    get_latent g [s] inject_index rnd = Ok (Some latent) /\
    shape latent = [b; Z.to_nat (num_latent g); d] /\
    num_latent g = (Z.of_nat (1 + length (style_convs g)) + 1)%Z /\
    forall l, l < Z.to_nat (num_latent g) ->
      exists slice,
        select1 latent l = Ok slice /\
        shape slice = [b; d] /\
        forall n j, n < b -> j < d -> item slice [n; j] = item s [n; j].
Proof.
  intros (Hlog & Hlay & Hlat & Hconvs & _) Hs.
  destruct (broadcast_style s b d (num_latent g) Hs ltac:(lia))
    as (u & r & Hu & Hr & Hshape & Hitem).
  exists r. unfold get_latent, ndim. rewrite Hs. simpl.
  rewrite Hu. simpl. rewrite Hr. simpl.
  split; [reflexivity|]. split; [exact Hshape|]. split; [lia|].
  intros l Hl.
  destruct (select1_slice r _ _ _ l Hshape Hl) as (w & Hw & Hsw & Hiw).
  exists w. split; [exact Hw|]. split; [exact Hsw|].
  intros n j Hn Hj. rewrite Hiw. now apply Hitem.
Qed.

(** C6.  For two styles of one shape (batch, dim) and an injection index
    [k] with [1 <= k <= num_latent - 1], the latent has shape
    (batch, num_latent, dim); its layer slices below [k] equal the first
    style element by element, those from [k] on the second. *)
Theorem two_styles_are_mixed_at_index
  (g : @StyleGAN2GeneratorSFT elt) (s0 s1 : tensor elt) (b d : nat)
  (k : Z) (rnd : nat) :
  shape s0 = [b; d] ->
  shape s1 = [b; d] ->
  (1 <= k <= num_latent g - 1)%Z ->
  exists latent,
    get_latent g [s0; s1] (Some k) rnd = Ok (Some latent) /\
    shape latent = [b; Z.to_nat (num_latent g); d] /\
    forall l, l < Z.to_nat (num_latent g) ->
      exists slice,
        select1 latent l = Ok slice /\
        shape slice = [b; d] /\
        forall n j, n < b -> j < d ->
          item slice [n; j]
          = if l <? Z.to_nat k then item s0 [n; j] else item s1 [n; j].
Proof.
  intros Hs0 Hs1 Hk.
  destruct (broadcast_style s0 b d k Hs0 ltac:(lia))
    as (u0 & r0 & Hu0 & Hr0 & Hsh0 & Hit0).
  destruct (broadcast_style s1 b d (num_latent g - k) Hs1 ltac:(lia))
    as (u1 & r1 & Hu1 & Hr1 & Hsh1 & Hit1).
  unfold get_latent, choose_inject_index. simpl.
  rewrite Hu0. simpl. rewrite Hr0. simpl.
  rewrite Hu1. simpl. rewrite Hr1. simpl.
  unfold cat1. rewrite Hsh0, Hsh1.
  rewrite Nat.eqb_refl, shape_eqb_refl. simpl.
  match goal with
  | |- exists latent, Ok (Some ?t) = _ /\ _ => set (lat := t)
  end.
  assert (Hsh : shape lat = [b; Z.to_nat (num_latent g); d]).
  { simpl. do 2 f_equal. lia. }
  exists lat. split; [reflexivity|]. split; [exact Hsh|].
  intros l Hl.
  destruct (select1_slice lat _ _ _ l Hsh Hl) as (w & Hw & Hsw & Hiw).
  exists w. split; [exact Hw|]. split; [exact Hsw|].
  intros n j Hn Hj. rewrite Hiw. subst lat. simpl.
  destruct (l <? Z.to_nat k); [now apply Hit0|now apply Hit1].
Qed.

End LatentExpansion.

(** ** The SFT arithmetic of one level *)

Section SFT.
Context {elt : Type} {Sc : Scalar elt}.
Import Torch Generator.
Local Open Scope py_scope.

Lemma bshape_rev_refl (l : list nat) : bshape_rev l l = Some l.
Proof.
  induction l as [|x l IH]; simpl; [reflexivity|].
  now rewrite Nat.eqb_refl, IH.
Qed.

Lemma broadcast_shape_refl (l : list nat) : broadcast_shape l l = Some l.
Proof.
  unfold broadcast_shape. rewrite bshape_rev_refl. simpl.
  now rewrite rev_involutive.
Qed.

Lemma bidx_in_range (idx sh : list nat) :
  in_range idx sh -> bidx sh idx = idx.
Proof.
  intros H. unfold bidx.
  rewrite (Forall2_length H), Nat.sub_diag. simpl.
  induction H as [|i s idx sh His _ IH]; simpl; [reflexivity|].
  rewrite IH. destruct (s =? 1) eqn:E; [|reflexivity].
  apply Nat.eqb_eq in E. f_equal. lia.
Qed.

(** Splitting at half the channels and unpacking into two names succeeds
    exactly on an even, non-zero number of channels. *)
Lemma split_in_halves (out : tensor elt) (d0 c : nat) (r : list nat)
  (a b : tensor elt) :
  shape out = d0 :: c :: r ->
  (chunks <~ split1 out (c / 2) ;; unpack2 chunks) = Ok (a, b) ->
  c = 2 * (c / 2) /\ 0 < c / 2 /\
  a = chunk1 out d0 c r (c / 2) 0 /\ b = chunk1 out d0 c r (c / 2) 1.
Proof.
  intros Hs. unfold split1. rewrite Hs.
  destruct (c / 2 =? 0) eqn:Eh.
  - destruct (c =? 0); simpl; discriminate.
  - apply Nat.eqb_neq in Eh. set (h := c / 2) in *.
    pose proof (Nat.div_mod_eq c 2) as Hc. fold h in Hc.
    pose proof (Nat.mod_upper_bound c 2 ltac:(lia)) as Hm.
    destruct (Nat.eq_dec (c mod 2) 0) as [E0|E1].
    + assert (Hn : (c + h - 1) / h = 2).
      { symmetry. apply (Nat.div_unique _ _ _ (h - 1)); lia. }
      rewrite Hn. simpl. intros [= <- <-].
      repeat split; lia.
    + assert (Hn : (c + h - 1) / h = 3).
      { symmetry. apply (Nat.div_unique _ _ _ 0); lia. }
      rewrite Hn. simpl. discriminate.
Qed.

Lemma split_even (out : tensor elt) (d0 h : nat) (r : list nat) :
  shape out = d0 :: 2 * h :: r ->
  0 < h ->
  (chunks <~ split1 out (2 * h / 2) ;; unpack2 chunks)
  = Ok (chunk1 out d0 (2 * h) r h 0, chunk1 out d0 (2 * h) r h 1).
Proof.
  intros Hs Hh. unfold split1. rewrite Hs.
  assert (E : 2 * h / 2 = h) by (rewrite Nat.mul_comm; apply Nat.div_mul; lia).
  rewrite E.
  destruct (h =? 0) eqn:Eh; [apply Nat.eqb_eq in Eh; lia|].
  assert (Hn : (2 * h + h - 1) / h = 2).
  { symmetry. apply (Nat.div_unique _ _ _ (h - 1)); lia. }
  rewrite Hn. reflexivity.
Qed.

Lemma scale_shift_same_shape (x scale shift : tensor elt) :
  shape scale = shape x ->
  shape shift = shape x ->
  exists t,
    scale_shift x scale shift = Ok t /\
    shape t = shape x /\
    forall idx, in_range idx (shape x) ->
      item t idx = eadd (emul (item x idx) (item scale idx)) (item shift idx).
Proof.
  intros Hsc Hsh. unfold scale_shift, tmul, tadd, binop.
  rewrite Hsc, broadcast_shape_refl. simpl.
  rewrite Hsh, broadcast_shape_refl.
  eexists. split; [reflexivity|]. split; [reflexivity|].
  intros idx Hidx. simpl. now rewrite !(bidx_in_range _ _ Hidx).
Qed.

(** C2.  At a level where SFT is applied, with [scale] and [shift] the
    entries [i - 1] and [i] of the conditions:
    - when [sft_half] is false the result is [out * scale + shift] on the
      whole tensor, element by element when the three shapes agree;
    - when [sft_half] is true and the step returns, the channel count is
      even, the channels below the half are those of [out], unchanged, and
      the channels from the half on are those of
      [out_sft * scale + shift], where [out_sft] is the upper half of
      [out];
    - when [sft_half] is true, the step does return on an even, non-zero
      channel count with conditions of the shape of the half. *)
Theorem sft_half_keeps_first_half_full_transforms_all
  (g : @StyleGAN2GeneratorSFT elt) (conditions : list (tensor elt))
  (i : nat) (out scale shift : tensor elt) :
  1 <= i ->
  nth_error conditions (i - 1) = Some scale ->
  nth_error conditions i = Some shift ->
  (sft_half g = false ->
     sft_part g conditions i out = scale_shift out scale shift /\
     (shape scale = shape out -> shape shift = shape out ->
      exists out',
        sft_part g conditions i out = Ok out' /\
        shape out' = shape out /\
        forall idx, in_range idx (shape out) ->
          item out' idx
          = eadd (emul (item out idx) (item scale idx)) (item shift idx)))
  /\
  (sft_half g = true ->
     (forall out',
        sft_part g conditions i out = Ok out' ->
        exists d0 c r out_sft t,
          shape out = d0 :: c :: r /\
          c = 2 * (c / 2) /\
          shape out_sft = d0 :: c / 2 :: r /\
          (forall i0 j rest,
             item out_sft (i0 :: j :: rest)
             = item out (i0 :: c / 2 + j :: rest)) /\
          scale_shift out_sft scale shift = Ok t /\
          (forall i0 j rest, j < c / 2 ->
             item out' (i0 :: j :: rest) = item out (i0 :: j :: rest)) /\
          (forall i0 j rest, c / 2 <= j ->
             item out' (i0 :: j :: rest)
             = item t (i0 :: j - c / 2 :: rest)))
     /\
     (forall d0 h r,
        shape out = d0 :: 2 * h :: r -> 0 < h ->
        shape scale = d0 :: h :: r -> shape shift = d0 :: h :: r ->
        exists out',
          sft_part g conditions i out = Ok out' /\
          shape out' = shape out)).
Proof.
  intros Hi Hscale Hshift. split; intros Hhalf.
  - assert (E : sft_part g conditions i out = scale_shift out scale shift).
    { unfold sft_part, scale_shift, getitem.
      rewrite Hhalf, Hscale. simpl.
      destruct (tmul out scale); simpl; [|reflexivity].
      now rewrite Hshift. }
    split; [exact E|]. intros Hsc Hsh. rewrite E.
    now apply scale_shift_same_shape.
  - assert (E : forall d0 c r, shape out = d0 :: c :: r ->
              sft_part g conditions i out
              = (halves <~ (chunks <~ split1 out (c / 2) ;; unpack2 chunks) ;;
                 t <~ scale_shift (snd halves) scale shift ;;
                 cat1 (fst halves) t)).
    { intros d0 c r Hs. unfold sft_part, scale_shift, getitem, size1.
      rewrite Hhalf, Hs. cbn [rbind].
      destruct (split1 out (c / 2)) as [chunks|]; cbn [rbind]; [|reflexivity].
      destruct (unpack2 chunks) as [[a b]|]; cbn [rbind fst snd];
        [|reflexivity].
      rewrite Hscale. cbn [rbind].
      destruct (tmul b scale); cbn [rbind]; [|reflexivity].
      now rewrite Hshift. }
    split.
    + intros out' Hrun.
      destruct (shape out) as [|d0 [|c r]] eqn:Hs;
        try (unfold sft_part, size1 in Hrun;
             rewrite Hhalf, Hs in Hrun; discriminate).
      rewrite (E d0 c r eq_refl) in Hrun.
      destruct (chunks <~ split1 out (c / 2) ;; unpack2 chunks)
        as [[a b]|] eqn:Hsplit; [|discriminate].
      destruct (split_in_halves out d0 c r a b Hs Hsplit)
        as (Hc & Hh & -> & ->).
      cbn [rbind fst snd] in Hrun.
      destruct (scale_shift (chunk1 out d0 c r (c / 2) 1) scale shift)
        as [t|] eqn:Ht; [|discriminate].
      cbn [rbind] in Hrun.
      set (h := c / 2) in *.
      exists d0, c, r, (chunk1 out d0 c r h 1), t.
      assert (Hmin0 : Nat.min h (c - 0 * h) = h) by lia.
      assert (Hmin1 : Nat.min h (c - 1 * h) = h) by lia.
      split; [reflexivity|]. split; [exact Hc|].
      split; [cbn [shape chunk1]; now rewrite Hmin1|].
      split; [intros; cbn [item chunk1]; now rewrite Nat.mul_1_l|].
      split; [exact Ht|].
      unfold cat1 in Hrun. cbn [shape chunk1] in Hrun.
      rewrite Hmin0 in Hrun.
      destruct (shape t) as [|b0 [|b1 br]]; try discriminate.
      destruct ((d0 =? b0) && shape_eqb r br); [|discriminate].
      injection Hrun as <-. subst h. cbn [item chunk1]. split.
      * intros i0 j rest Hj. apply Nat.ltb_lt in Hj. now rewrite Hj.
      * intros i0 j rest Hj. apply Nat.ltb_ge in Hj. now rewrite Hj.
    + intros d0 h r Hs Hh Hsc Hsh.
      rewrite (E d0 (2 * h) r Hs), (split_even out d0 h r Hs Hh).
      cbn [rbind fst snd].
      assert (Hmin0 : Nat.min h (2 * h - 0 * h) = h) by lia.
      assert (Hmin1 : Nat.min h (2 * h - 1 * h) = h) by lia.
      destruct (scale_shift_same_shape
                  (chunk1 out d0 (2 * h) r h 1) scale shift)
        as (t & Ht & Hst & _).
      { cbn [shape chunk1]. now rewrite Hmin1. }
      { cbn [shape chunk1]. now rewrite Hmin1. }
      rewrite Ht. cbn [rbind].
      unfold cat1. rewrite Hst. cbn [shape chunk1].
      rewrite Hmin0, Hmin1, Nat.eqb_refl, shape_eqb_refl.
      cbn [andb].
      eexists. split; [reflexivity|]. cbn [shape]. rewrite Hs.
      do 2 f_equal. lia.
Qed.

End SFT.

(** ** The synthesis loop *)

Section Synthesis.
Context {elt : Type} {Sc : Scalar elt}.
Import Torch Generator.
Local Open Scope py_scope.

Lemma run_lift {A B : Type} (r : res A) (f : A -> M B) :
  bind (lift r) f
  = match r with
    | Ok a => f a
    | Raise e => ([], Raise e)
    end.
Proof.
  destruct r as [a|e]; [|reflexivity].
  unfold bind, lift. now destruct (f a).
Qed.

Lemma run_tell {B : Type} (e : event) (f : unit -> M B) :
  bind (tell e) f = (e :: fst (f tt), snd (f tt)).
Proof.
  unfold bind, tell. now destruct (f tt).
Qed.

Lemma run_bind {A B : Type} (m : M A) (f : A -> M B) :
  bind m f
  = match snd m with
    | Ok a => (fst m ++ fst (f a), snd (f a))
    | Raise e => (fst m, Raise e)
    end.
Proof.
  destruct m as [tr [a|e]]; simpl; [|reflexivity].
  now destruct (f a).
Qed.

Lemma sft_level_run (g : @StyleGAN2GeneratorSFT elt)
  (conditions : list (tensor elt)) (i : nat) (out : tensor elt) :
  sft_level g conditions i out
  = if i <? length conditions then
      match sft_part g conditions i out with
      | Ok o => ([EvSFT i], Ok o)
      | Raise e => ([], Raise e)
      end
    else ([], Ok out).
Proof.
  unfold sft_level. destruct (i <? length conditions); [|reflexivity].
  rewrite run_lift. now destruct (sft_part g conditions i out).
Qed.

(** One turn of the loop. *)
Lemma main_loop_turn (g : @StyleGAN2GeneratorSFT elt)
  (conditions : list (tensor elt)) (latent : tensor elt)
  (conv1 conv2 : StyleConv) (noise1 noise2 : option (tensor elt))
  (to_rgb : ToRGB) levels (i : nat) (out skip : tensor elt) :
  main_loop g conditions latent
    ((conv1, conv2, noise1, noise2, to_rgb) :: levels) i out skip
  = match select1 latent i with
    | Raise e => ([], Raise e)
    | Ok w0 =>
        let sft := sft_level g conditions i (conv1 out w0 noise1) in
        match snd sft with
        | Raise e => (EvStyleConv i :: fst sft, Raise e)
        | Ok o =>
            match select1 latent (i + 1) with
            | Raise e => (EvStyleConv i :: fst sft ++ [], Raise e)
            | Ok w1 =>
                let out' := conv2 o w1 noise2 in
                match select1 latent (i + 2) with
                | Raise e =>
                    (EvStyleConv i :: fst sft ++ [EvStyleConv (i + 1)],
                     Raise e)
                | Ok w2 =>
                    let rest :=
                      main_loop g conditions latent levels (i + 2) out'
                        (to_rgb out' w2 (Some skip)) in
                    (EvStyleConv i :: fst sft
                       ++ EvStyleConv (i + 1) :: EvToRGB (i + 2) :: fst rest,
                     snd rest)
                end
            end
        end
    end.
Proof.
  cbn [main_loop].
  rewrite run_lift.
  destruct (select1 latent i) as [w0|e]; [|reflexivity].
  rewrite run_tell. cbv beta. rewrite run_bind.
  destruct (sft_level g conditions i (conv1 out w0 noise1)) as [tr [o|e]];
    cbn [fst snd]; [|reflexivity].
  rewrite run_lift.
  destruct (select1 latent (i + 1)) as [w1|e]; [|reflexivity].
  rewrite run_tell. cbv beta. rewrite run_lift.
  destruct (select1 latent (i + 2)) as [w2|e]; [|reflexivity].
  rewrite run_tell. cbn [fst snd].
  reflexivity.
Qed.

(** A loop that returns has run every level in full. *)
Lemma main_loop_ok_trace (g : @StyleGAN2GeneratorSFT elt)
  (conditions : list (tensor elt)) (latent : tensor elt) levels :
  forall (i : nat) (out skip : tensor elt) tr img,
    main_loop g conditions latent levels i out skip = (tr, Ok img) ->
    tr = loop_trace (length conditions) i (length levels).
Proof.
  induction levels as [|[[[[c1 c2] n1] n2] rgb] levels IH];
    intros i out skip tr img H.
  - injection H as <- _. reflexivity.
  - rewrite main_loop_turn in H.
    destruct (select1 latent i) as [w0|]; [|discriminate].
    cbv zeta in H. rewrite sft_level_run in H.
    destruct (select1 latent (i + 1)) as [w1|];
      [|destruct (i <? length conditions);
        [destruct (sft_part g conditions i (c1 out w0 n1))|];
        discriminate].
    destruct (select1 latent (i + 2)) as [w2|];
      [|destruct (i <? length conditions);
        [destruct (sft_part g conditions i (c1 out w0 n1))|];
        discriminate].
    cbn [loop_trace length].
    destruct (i <? length conditions);
      [destruct (sft_part g conditions i (c1 out w0 n1)) as [o|];
       [|discriminate]|];
      cbn [fst snd] in H;
      match type of H with
      | context [main_loop ?a ?b ?c ?d ?e ?f ?h] =>
          destruct (main_loop a b c d e f h) as [tr' r'] eqn:Erec
      end;
      cbn [fst snd] in H; injection H as <- ->;
      rewrite (IH _ _ _ _ _ Erec); reflexivity.
Qed.

Lemma select1_ok (t : tensor elt) (d0 d1 : nat) (r : list nat) (i : nat) :
  shape t = d0 :: d1 :: r ->
  i < d1 ->
  exists w, select1 t i = Ok w.
Proof.
  intros Hs Hi. unfold select1. rewrite Hs.
  apply Nat.ltb_lt in Hi. rewrite Hi. eexists. reflexivity.
Qed.

(** The forward pass, stage by stage. *)
Lemma forward_stages (g : @StyleGAN2GeneratorSFT elt)
  (styles conditions : list (tensor elt))
  (input_is_latent : bool) (noise : option (list (option (tensor elt))))
  (randomize_noise : bool) (truncation : Q)
  (truncation_latent : option (tensor elt))
  (inject_index : option Z) (return_latents : bool) (rnd : nat) :
  forward g styles conditions input_is_latent noise randomize_noise
    truncation truncation_latent inject_index return_latents rnd
  = match get_noise g noise randomize_noise with
    | Raise e => ([], Raise e)
    | Ok nl =>
    match latent_styles g styles input_is_latent truncation
            truncation_latent with
    | Raise e => ([], Raise e)
    | Ok ss =>
    match get_latent g ss inject_index rnd with
    | Raise e => ([], Raise e)
    | Ok None => ([], Raise (UnboundLocalError "latent"))
    | Ok (Some latent) =>
    match shape0 latent with
    | Raise e => ([], Raise e)
    | Ok batch =>
    match select1 latent 0 with
    | Raise e => ([EvConstantInput], Raise e)
    | Ok w0 =>
    match getitem nl 0 with
    | Raise e => ([EvConstantInput], Raise e)
    | Ok noise0 =>
    match select1 latent 1 with
    | Raise e => ([EvConstantInput; EvStyleConv 0], Raise e)
    | Ok w1 =>
        let out := style_conv1 g (constant_input g batch) w0 noise0 in
        let rest := main_loop g conditions latent (levels_of g nl) 1 out
                      (to_rgb1 g out w1 None) in
        (EvConstantInput :: EvStyleConv 0 :: EvToRGB 1 :: fst rest,
         match snd rest with
         | Ok image =>
             Ok (image, if return_latents then Some latent else None)
         | Raise e => Raise e
         end)
    end end end end end end end.
Proof.
  unfold forward, latent_styles.
  rewrite run_lift.
  destruct (get_noise g noise randomize_noise) as [nl|]; [|reflexivity].
  rewrite run_lift.
  destruct (style_truncation _ _ _) as [ss|]; [|reflexivity].
  rewrite run_lift.
  destruct (get_latent g ss inject_index rnd) as [[latent|]|];
    [|reflexivity|reflexivity].
  rewrite run_lift, run_lift.
  destruct (shape0 latent) as [batch|]; [|reflexivity].
  rewrite run_tell. cbv beta. rewrite run_lift.
  destruct (select1 latent 0) as [w0|]; [|reflexivity].
  rewrite run_lift.
  destruct (getitem nl 0) as [noise0|]; [|reflexivity].
  rewrite run_tell. cbv beta. rewrite run_lift.
  destruct (select1 latent 1) as [w1|]; [|reflexivity].
  rewrite run_tell. cbv beta zeta. rewrite run_bind.
  destruct (main_loop _ _ _ _ _ _ _) as [tr [img|e]]; cbn [fst snd];
    [|reflexivity].
  unfold ret. cbn [fst snd]. now rewrite app_nil_r.
Qed.

(** *** Lengths of the zipped slices *)

Lemma evens_length {A : Type} (l : list A) :
  length (evens l) = Nat.div2 (S (length l)) /\
  forall x, length (evens (x :: l)) = Nat.div2 (S (S (length l))).
Proof.
  induction l as [|a l [IH1 IH2]].
  - split; reflexivity.
  - split; [apply IH2|].
    intros x. cbn [evens length]. rewrite IH1. reflexivity.
Qed.

Lemma evens_length_half {A : Type} (l : list A) :
  length (evens l) = (length l + 1) / 2.
Proof.
  rewrite (proj1 (evens_length l)), Nat.div2_div. f_equal. lia.
Qed.

Lemma zip5_length {A B C D E : Type}
  (la : list A) (lb : list B) (lc : list C) (ld : list D) (le : list E) :
  length (zip5 la lb lc ld le)
  = Nat.min (length la)
      (Nat.min (length lb)
         (Nat.min (length lc) (Nat.min (length ld) (length le)))).
Proof.
  revert lb lc ld le.
  induction la as [|a la IH]; intros [|b lb] [|c lc] [|d ld] [|e le];
    try reflexivity.
  cbn [zip5 length]. rewrite IH. lia.
Qed.

Lemma nth_error_evens {A : Type} (l : list A) :
  (forall k, nth_error (evens l) k = nth_error l (2 * k)) /\
  (forall x k, nth_error (evens (x :: l)) k = nth_error (x :: l) (2 * k)).
Proof.
  induction l as [|a l [IH1 IH2]].
  - split; [intros [|k]; reflexivity|].
    intros x [|[|k]]; reflexivity.
  - split; [apply IH2|].
    intros x [|k]; [reflexivity|].
    cbn [evens nth_error]. rewrite IH1.
    replace (2 * S k) with (S (S (2 * k))) by lia. reflexivity.
Qed.

Lemma nth_error_zip5 {A B C D E : Type}
  (la : list A) (lb : list B) (lc : list C) (ld : list D) (le : list E) :
  forall k a b c d e,
    nth_error (zip5 la lb lc ld le) k = Some (a, b, c, d, e) ->
    nth_error la k = Some a /\ nth_error lb k = Some b /\
    nth_error lc k = Some c /\ nth_error ld k = Some d /\
    nth_error le k = Some e.
Proof.
  revert lb lc ld le.
  induction la as [|a' la IH]; intros [|b' lb] [|c' lc] [|d' ld] [|e' le]
    k a b c d e H;
    try (destruct k; discriminate).
  destruct k as [|k].
  - injection H as <- <- <- <- <-. repeat split.
  - cbn [zip5 nth_error] in H |- *. now apply IH.
Qed.

(** The tuple the zip of line 109 yields at turn [k]. *)
Lemma levels_of_nth (g : @StyleGAN2GeneratorSFT elt)
  (nl : list (option (tensor elt))) (k : nat) c1 c2 n1 n2 rgb :
  nth_error (levels_of g nl) k = Some (c1, c2, n1, n2, rgb) ->
  nth_error (style_convs g) (2 * k) = Some c1 /\
  nth_error (style_convs g) (2 * k + 1) = Some c2 /\
  nth_error nl (2 * k + 1) = Some n1 /\
  nth_error nl (2 * k + 2) = Some n2 /\
  nth_error (to_rgbs g) k = Some rgb.
Proof.
  unfold levels_of. intros H.
  destruct (nth_error_zip5 _ _ _ _ _ _ _ _ _ _ _ H)
    as (H1 & H2 & H3 & H4 & H5).
  rewrite (proj1 (nth_error_evens _)) in H1.
  rewrite (proj1 (nth_error_evens _)), nth_error_skipn in H2.
  rewrite (proj1 (nth_error_evens _)), nth_error_skipn in H3.
  rewrite (proj1 (nth_error_evens _)), nth_error_skipn in H4.
  replace (1 + 2 * k) with (2 * k + 1) in H2, H3 by lia.
  replace (2 + 2 * k) with (2 * k + 2) in H4 by lia.
  now repeat split.
Qed.

Lemma levels_of_length (g : @StyleGAN2GeneratorSFT elt)
  (nl : list (option (tensor elt))) :
  constructed g ->
  (num_layers g <= Z.of_nat (length nl))%Z ->
  length (levels_of g nl) = Z.to_nat (log_size g - 2).
Proof.
  intros (Hlog & Hlay & Hlat & Hconvs & Hrgbs & Hnoises) Hnl.
  unfold levels_of.
  rewrite zip5_length, !evens_length_half, !length_skipn.
  set (m := Z.to_nat (log_size g - 2)).
  assert (Hc : length (style_convs g) = 2 * m) by lia.
  assert (Hr : length (to_rgbs g) = m) by lia.
  assert (Hn : 2 * m + 1 <= length nl) by lia.
  rewrite Hc, Hr.
  assert (E1 : (2 * m + 1) / 2 = m).
  { symmetry. apply (Nat.div_unique _ _ _ 1); lia. }
  assert (E2 : (2 * m - 1 + 1) / 2 = m).
  { destruct m; [reflexivity|].
    symmetry. apply (Nat.div_unique _ _ _ 0); lia. }
  assert (E3 : m <= (length nl - 1 + 1) / 2).
  { apply Nat.div_le_lower_bound; lia. }
  assert (E4 : m <= (length nl - 2 + 1) / 2).
  { apply Nat.div_le_lower_bound; lia. }
  rewrite E1, E2. lia.
Qed.

(** *** The stages before the loop, on valid arguments *)

Lemma stored_noise_ok (l : list (tensor elt)) (n a : nat) :
  a + n <= length l ->
  exists r,
    rmap (fun i => match nth_error l i with
                   | Some t => Ok (Some t)
                   | None => Raise AttributeError
                   end) (seq a n) = Ok r /\
    length r = n.
Proof.
  revert a. induction n as [|n IH]; intros a Ha.
  - exists []. split; reflexivity.
  - cbn [seq rmap].
    destruct (nth_error l a) as [t|] eqn:E;
      [|apply nth_error_None in E; lia].
    destruct (IH (S a) ltac:(lia)) as (r & Hr & Hlen).
    rewrite Hr. exists (Some t :: r). split; [reflexivity|].
    cbn [length]. now rewrite Hlen.
Qed.

Lemma get_noise_ok (g : @StyleGAN2GeneratorSFT elt)
  (noise : option (list (option (tensor elt)))) (randomize_noise : bool) :
  constructed g ->
  noise_ok g noise ->
  exists nl,
    get_noise g noise randomize_noise = Ok nl /\
    (num_layers g <= Z.of_nat (length nl))%Z.
Proof.
  intros (Hlog & Hlay & Hlat & Hconvs & Hrgbs & Hnoises) Hok.
  destruct noise as [l|]; cbn [get_noise].
  - exists l. split; [reflexivity|exact Hok].
  - destruct randomize_noise.
    + eexists. split; [reflexivity|]. rewrite repeat_length. lia.
    + destruct (stored_noise_ok (noises g) (Z.to_nat (num_layers g)) 0)
        as (r & Hr & Hlen); [lia|].
      exists r. split; [exact Hr|]. lia.
Qed.

Lemma get_latent_ok (g : @StyleGAN2GeneratorSFT elt)
  (ss : list (tensor elt)) (inject_index : option Z) (rnd : nat) :
  constructed g ->
  styles_ok g ss inject_index ->
  exists latent d0 d1 r,
    get_latent g ss inject_index rnd = Ok (Some latent) /\
    shape latent = d0 :: d1 :: r /\
    (num_latent g <= Z.of_nat d1)%Z.
Proof.
  intros (Hlog & Hlay & Hlat & _) Hok.
  destruct ss as [|s0 [|s1 [|s2 ss]]]; cbn [styles_ok] in Hok;
    try contradiction.
  - destruct Hok as [(b & d & Hs)|(d0 & d1 & d2 & r & Hs & Hd1)].
    + destruct (broadcast_style s0 b d (num_latent g) Hs ltac:(lia))
        as (u & t & Hu & Ht & Hshape & _).
      exists t, b, (Z.to_nat (num_latent g)), [d].
      unfold get_latent, ndim. rewrite Hs. cbn [length Nat.ltb Nat.leb].
      rewrite Hu. cbn [rbind]. rewrite Ht. cbn [rbind].
      split; [reflexivity|]. split; [exact Hshape|lia].
    + exists s0, d0, d1, (d2 :: r).
      unfold get_latent, ndim. rewrite Hs. cbn [length Nat.ltb Nat.leb].
      split; [reflexivity|]. split; [reflexivity|exact Hd1].
  - destruct Hok as ((b & d & Hs0 & Hs1) & Hk).
    assert (Hchoose : exists k, choose_inject_index g inject_index rnd = Ok k
                                /\ (0 <= k <= num_latent g)%Z).
    { destruct inject_index as [k|]; cbn [choose_inject_index].
      - exists k. split; [reflexivity|exact Hk].
      - destruct (randint_range 1 (num_latent g - 1) rnd ltac:(lia))
          as (k & Hr & Hrange).
        exists k. split; [exact Hr|lia]. }
    destruct Hchoose as (k & Hchoose & Hrange).
    destruct (broadcast_style s0 b d k Hs0 ltac:(lia))
      as (u0 & r0 & Hu0 & Hr0 & Hsh0 & _).
    destruct (broadcast_style s1 b d (num_latent g - k) Hs1 ltac:(lia))
      as (u1 & r1 & Hu1 & Hr1 & Hsh1 & _).
    unfold get_latent. rewrite Hchoose. cbn [rbind].
    rewrite Hu0. cbn [rbind]. rewrite Hr0. cbn [rbind].
    rewrite Hu1. cbn [rbind]. rewrite Hr1. cbn [rbind].
    unfold cat1. rewrite Hsh0, Hsh1.
    rewrite Nat.eqb_refl, shape_eqb_refl. cbn [andb rbind].
    eexists. exists b, (Z.to_nat k + Z.to_nat (num_latent g - k)), [d].
    split; [reflexivity|]. split; [reflexivity|lia].
Qed.

(** *** What a complete trace holds *)

Lemma to_rgb_steps_loop (nconds n : nat) :
  forall i, to_rgb_steps (loop_trace nconds i n) = n.
Proof.
  unfold to_rgb_steps.
  induction n as [|n IH]; intros i; [reflexivity|].
  cbn [loop_trace].
  destruct (i <? nconds); cbn [app filter is_to_rgb length];
    now rewrite IH.
Qed.


Lemma sft_part_pair (g : @StyleGAN2GeneratorSFT elt)
  (conditions : list (tensor elt)) (j : nat) (scale shift out : tensor elt) :
  nth_error conditions j = Some scale ->
  nth_error conditions (j + 1) = Some shift ->
  sft_part g conditions (j + 1) out = sft_part g [scale; shift] 1 out.
Proof.
  intros Hsc Hsh. unfold sft_part, getitem.
  replace (j + 1 - 1) with j by lia.
  rewrite Hsc, Hsh. reflexivity.
Qed.

(** *** The rows of a pass *)

(** A loop that returns has gone through a row per level: every level
    read its three latent slices and applied its first convolution, its
    SFT step, its second convolution and its to-RGB layer, in turn. *)
Lemma main_loop_rows (g : @StyleGAN2GeneratorSFT elt)
  (conditions : list (tensor elt)) (latent : tensor elt) levels :
  forall (i : nat) (out skip : tensor elt) tr img,
    main_loop g conditions latent levels i out skip = (tr, Ok img) ->
    exists (rows : list (@row elt)) (out' : tensor elt),
      length rows = S (length levels) /\
      nth_error rows 0 = Some (out, skip) /\
      nth_error rows (length levels) = Some (out', img) /\
      forall j r r',
        nth_error rows j = Some r ->
        nth_error rows (S j) = Some r' ->
        loop_step g conditions latent levels i j r r'.
Proof.
  induction levels as [|[[[[c1 c2] n1] n2] rgb] levels IH];
    intros i out skip tr img H.
  - injection H as _ <-. exists [(out, skip)], out.
    split; [reflexivity|]. split; [reflexivity|]. split; [reflexivity|].
    intros j r r' _ Hr'. destruct j; discriminate Hr'.
  - rewrite main_loop_turn in H.
    destruct (select1 latent i) as [w0|] eqn:E0; [|discriminate].
    cbv zeta in H.
    destruct (snd (sft_level g conditions i (c1 out w0 n1))) as [mid|]
      eqn:Esft; [|discriminate].
    destruct (select1 latent (i + 1)) as [w1|] eqn:E1; [|discriminate].
    destruct (select1 latent (i + 2)) as [w2|] eqn:E2; [|discriminate].
    match type of H with
    | context [main_loop ?a ?b ?c ?d ?e ?f ?h] =>
        destruct (main_loop a b c d e f h) as [tr' r'] eqn:Erec
    end.
    cbn [fst snd] in H. injection H as _ ->.
    destruct (IH _ _ _ _ _ Erec)
      as (rows & out' & Hlen & Hhead & Hlast & Hstep).
    exists ((out, skip) :: rows), out'.
    split; [cbn [length]; now rewrite Hlen|].
    split; [reflexivity|]. split; [exact Hlast|].
    intros j r r'' Hr Hr''. destruct j as [|j].
    + injection Hr as <-.
      change (nth_error rows 0 = Some r'') in Hr''.
      rewrite Hhead in Hr''. injection Hr'' as <-.
      exists c1, c2, n1, n2, rgb, w0, w1, w2, mid.
      rewrite Nat.mul_0_r, Nat.add_0_r. cbn [fst snd].
      split; [reflexivity|]. split; [exact E0|]. split; [exact E1|].
      split; [exact E2|]. split; [exact Esft|reflexivity].
    + change (nth_error rows j = Some r) in Hr.
      change (nth_error rows (S j) = Some r'') in Hr''.
      destruct (Hstep j r r'' Hr Hr'')
        as (a1 & a2 & m1 & m2 & argb & v0 & v1 & v2 & md
            & Hlv & S0 & S1 & S2 & Hmid & ->).
      exists a1, a2, m1, m2, argb, v0, v1, v2, md.
      replace (i + 2 * S j) with (i + 2 + 2 * j) by lia.
      split; [exact Hlv|]. split; [exact S0|]. split; [exact S1|].
      split; [exact S2|]. split; [exact Hmid|reflexivity].
Qed.

(** A loop over a latent with a slice for every layer raises only in the
    SFT arithmetic of a turn for which conditions remain, on the features
    the first convolution of that turn returned; the turns before are
    complete. *)
Lemma main_loop_raise_rows (g : @StyleGAN2GeneratorSFT elt)
  (conditions : list (tensor elt)) (latent : tensor elt)
  (d0 d1 : nat) (sh : list nat) levels :
  shape latent = d0 :: d1 :: sh ->
  forall (i : nat) (out skip : tensor elt) tr e,
    i + 2 * length levels < d1 ->
    main_loop g conditions latent levels i out skip = (tr, Raise e) ->
    exists (k : nat) (rows : list (@row elt)) (rk : @row elt)
           c1 c2 n1 n2 rgb w0,
      length rows = S k /\
      nth_error rows 0 = Some (out, skip) /\
      nth_error rows k = Some rk /\
      (forall j r r',
         nth_error rows j = Some r ->
         nth_error rows (S j) = Some r' ->
         loop_step g conditions latent levels i j r r') /\
      nth_error levels k = Some (c1, c2, n1, n2, rgb) /\
      select1 latent (i + 2 * k) = Ok w0 /\
      i + 2 * k < length conditions /\
      sft_part g conditions (i + 2 * k) (c1 (fst rk) w0 n1) = Raise e.
Proof.
  intros Hs.
  induction levels as [|[[[[c1 c2] n1] n2] rgb] levels IH];
    intros i out skip tr e Hi H.
  - discriminate.
  - cbn [length] in Hi. rewrite main_loop_turn in H.
    destruct (select1_ok latent d0 d1 sh i Hs ltac:(lia)) as (w0 & E0).
    destruct (select1_ok latent d0 d1 sh (i + 1) Hs ltac:(lia)) as (w1 & E1).
    destruct (select1_ok latent d0 d1 sh (i + 2) Hs ltac:(lia)) as (w2 & E2).
    rewrite E0, E1, E2 in H. cbv zeta in H.
    assert (Hi' : i + 2 + 2 * length levels < d1) by lia.
    destruct (snd (sft_level g conditions i (c1 out w0 n1))) as [mid|e']
      eqn:Esft.
    + match type of H with
      | context [main_loop ?a ?b ?c ?d ?e ?f ?h] =>
          destruct (main_loop a b c d e f h) as [tr' r'] eqn:Erec
      end.
      cbn [fst snd] in H. injection H as _ ->.
      destruct (IH _ _ _ _ _ Hi' Erec)
        as (k & rows & rk & a1 & a2 & m1 & m2 & argb & v0
            & Hlen & Hhead & Hrk & Hstep & Hlv & Hv0 & Hk & Hraise).
      exists (S k), ((out, skip) :: rows), rk, a1, a2, m1, m2, argb, v0.
      replace (i + 2 * S k) with (i + 2 + 2 * k) by lia.
      split; [cbn [length]; now rewrite Hlen|].
      split; [reflexivity|]. split; [exact Hrk|].
      split; [|split; [exact Hlv|split; [exact Hv0|split; assumption]]].
      intros j r r'' Hr Hr''. destruct j as [|j].
      * injection Hr as <-.
        change (nth_error rows 0 = Some r'') in Hr''.
        rewrite Hhead in Hr''. injection Hr'' as <-.
        exists c1, c2, n1, n2, rgb, w0, w1, w2, mid.
        rewrite Nat.mul_0_r, Nat.add_0_r. cbn [fst snd].
        split; [reflexivity|]. split; [exact E0|]. split; [exact E1|].
        split; [exact E2|]. split; [exact Esft|reflexivity].
      * change (nth_error rows j = Some r) in Hr.
        change (nth_error rows (S j) = Some r'') in Hr''.
        destruct (Hstep j r r'' Hr Hr'')
          as (b1 & b2 & p1 & p2 & brgb & u0 & u1 & u2 & md
              & Hlv' & S0 & S1 & S2 & Hmid & ->).
        exists b1, b2, p1, p2, brgb, u0, u1, u2, md.
        replace (i + 2 * S j) with (i + 2 + 2 * j) by lia.
        split; [exact Hlv'|]. split; [exact S0|]. split; [exact S1|].
        split; [exact S2|]. split; [exact Hmid|reflexivity].
    + injection H as _ <-.
      rewrite sft_level_run in Esft.
      destruct (i <? length conditions) eqn:Ei; [|discriminate].
      destruct (sft_part g conditions i (c1 out w0 n1)) as [o|e''] eqn:Epart;
        [discriminate|].
      cbn [snd] in Esft. injection Esft as ->.
      apply Nat.ltb_lt in Ei.
      exists 0, [(out, skip)], (out, skip), c1, c2, n1, n2, rgb, w0.
      rewrite Nat.mul_0_r, Nat.add_0_r. cbn [fst].
      split; [reflexivity|]. split; [reflexivity|]. split; [reflexivity|].
      split; [|split; [reflexivity|split; [exact E0|split; assumption]]].
      intros j r r' _ Hr'. destruct j; discriminate Hr'.
Qed.

(** The SFT step of a level, read off the features. *)
Lemma sft_level_outcome (g : @StyleGAN2GeneratorSFT elt)
  (conditions : list (tensor elt)) (i : nat) (x mid : tensor elt) :
  1 <= i ->
  snd (sft_level g conditions i x) = Ok mid ->
  sft_outcome g conditions i x mid.
Proof.
  intros Hi H. destruct i as [|j]; [lia|].
  replace (S j) with (j + 1) in * by lia.
  rewrite sft_level_run in H. unfold sft_outcome.
  replace (j + 1 - 1) with j by lia.
  destruct (j + 1 <? length conditions) eqn:Ei.
  - apply Nat.ltb_lt in Ei.
    destruct (sft_part g conditions (j + 1) x) as [o|] eqn:Esft;
      [|discriminate].
    cbn [snd] in H. injection H as ->.
    split; [|lia]. intros _.
    destruct (nth_error conditions j) as [scale|] eqn:Esc;
      [|apply nth_error_None in Esc; lia].
    destruct (nth_error conditions (j + 1)) as [shift|] eqn:Esh;
      [|apply nth_error_None in Esh; lia].
    exists scale, shift. split; [reflexivity|]. split; [reflexivity|].
    now rewrite <- (sft_part_pair g conditions j scale shift x Esc Esh).
  - apply Nat.ltb_ge in Ei. cbn [snd] in H. injection H as E.
    split; [lia|]. intros _. now symmetry.
Qed.

(** The rows of the loop of a pass, which is entered with the counter 1
    and runs over the zip of line 109, are rows of the pass. *)
Lemma loop_rows_pass (g : @StyleGAN2GeneratorSFT elt)
  (conditions : list (tensor elt)) (latent : tensor elt)
  (nl : list (option (tensor elt))) (rows : list (@row elt))
  (r0 : @row elt) :
  nth_error rows 0 = Some r0 ->
  first_row g latent nl r0 ->
  (forall j r r',
     nth_error rows j = Some r ->
     nth_error rows (S j) = Some r' ->
     loop_step g conditions latent (levels_of g nl) 1 j r r') ->
  pass_rows g conditions latent nl rows.
Proof.
  intros Hhead Hfirst Hstep. split; [now exists r0|].
  intros k r r' Hr Hr'.
  destruct (Hstep k r r' Hr Hr')
    as (c1 & c2 & n1 & n2 & rgb & v0 & v1 & v2 & mid
        & Hlv & S0 & S1 & S2 & Hmid & ->).
  apply levels_of_nth in Hlv.
  destruct Hlv as (L1 & L2 & L3 & L4 & L5).
  replace (1 + 2 * k) with (2 * k + 1) in S0, S1, S2, Hmid by lia.
  replace (2 * k + 1 + 1) with (2 * k + 2) in S1 by lia.
  replace (2 * k + 1 + 2) with (2 * k + 3) in S2 by lia.
  exists (c1 (fst r) v0 n1), mid. split.
  - exists c1, c2, rgb, n1, n2, v0, v1, v2. cbn [fst snd].
    now repeat split.
  - apply sft_level_outcome; [lia|exact Hmid].
Qed.

(** The rows of a pass are determined by the generator, the conditions,
    the latent and the noise: two lists of rows agree wherever both have
    a row. *)
Lemma pass_rows_functional (g : @StyleGAN2GeneratorSFT elt)
  (conditions : list (tensor elt)) (latent : tensor elt)
  (nl : list (option (tensor elt))) (rows rows' : list (@row elt)) :
  pass_rows g conditions latent nl rows ->
  pass_rows g conditions latent nl rows' ->
  forall k r r',
    nth_error rows k = Some r -> nth_error rows' k = Some r' -> r = r'.
Proof.
  intros ((a0 & Ha0 & Hfa) & Hstep) ((b0 & Hb0 & Hfb) & Hstep').
  induction k as [|k IH]; intros r r' Hr Hr'.
  - rewrite Ha0 in Hr. rewrite Hb0 in Hr'.
    injection Hr as <-. injection Hr' as <-.
    destruct Hfa as (b & w0 & w1 & n0 & E1 & E2 & E3 & E4 & E5 & E6).
    destruct Hfb as (b' & w0' & w1' & n0' & F1 & F2 & F3 & F4 & F5 & F6).
    destruct a0 as [a s], b0 as [a' s']. cbn [fst snd] in *.
    congruence.
  - destruct (nth_error rows k) as [q|] eqn:Eq.
    2: { apply nth_error_None in Eq.
         assert (S k < length rows) by (apply nth_error_Some; congruence).
         lia. }
    destruct (nth_error rows' k) as [q'|] eqn:Eq'.
    2: { apply nth_error_None in Eq'.
         assert (S k < length rows') by (apply nth_error_Some; congruence).
         lia. }
    assert (E : q = q') by (now apply IH). subst q'.
    destruct (Hstep k q r Eq Hr)
      as (x & mid & (c1 & c2 & rgb & n1 & n2 & w0 & w1 & w2
                     & L1 & L2 & L3 & L4 & L5 & S0 & S1 & S2
                     & Hx & Hout & Hskip) & Hsft & Hnone).
    destruct (Hstep' k q r' Eq' Hr')
      as (x' & mid' & (c1' & c2' & rgb' & n1' & n2' & w0' & w1' & w2'
                       & L1' & L2' & L3' & L4' & L5' & S0' & S1' & S2'
                       & Hx' & Hout' & Hskip') & Hsft' & Hnone').
    assert (Ex : x = x') by congruence.
    assert (Emid : mid = mid').
    { destruct (Nat.lt_ge_cases (2 * k + 1) (length conditions)) as [Hi|Hi].
      - destruct (Hsft Hi) as (sc & sh & A1 & A2 & A3).
        destruct (Hsft' Hi) as (sc' & sh' & B1 & B2 & B3).
        congruence.
      - pose proof (Hnone Hi). pose proof (Hnone' Hi). congruence. }
    destruct r as [o s], r' as [o' s']. cbn [fst snd] in *.
    congruence.
Qed.

(** A pass that returns, row by row. *)
Lemma forward_ok_rows (g : @StyleGAN2GeneratorSFT elt)
  (styles conditions : list (tensor elt))
  (input_is_latent : bool) (noise : option (list (option (tensor elt))))
  (randomize_noise : bool) (truncation : Q)
  (truncation_latent : option (tensor elt))
  (inject_index : option Z) (return_latents : bool) (rnd : nat)
  tr image lat :
  forward g styles conditions input_is_latent noise randomize_noise
    truncation truncation_latent inject_index return_latents rnd
  = (tr, Ok (image, lat)) ->
  exists nl ss latent (rows : list (@row elt)) out,
    get_noise g noise randomize_noise = Ok nl /\
    latent_styles g styles input_is_latent truncation truncation_latent
    = Ok ss /\
    get_latent g ss inject_index rnd = Ok (Some latent) /\
    lat = (if return_latents then Some latent else None) /\
    pass_rows g conditions latent nl rows /\
    length rows = S (length (levels_of g nl)) /\
    nth_error rows (length (levels_of g nl)) = Some (out, image) /\
    tr = EvConstantInput :: EvStyleConv 0 :: EvToRGB 1
           :: loop_trace (length conditions) 1 (length (levels_of g nl)).
Proof.
  intros H. rewrite forward_stages in H.
  destruct (get_noise g noise randomize_noise) as [nl|] eqn:Enl;
    [|discriminate].
  destruct (latent_styles _ _ _ _ _) as [ss|] eqn:Ess; [|discriminate].
  destruct (get_latent g ss inject_index rnd) as [[latent|]|] eqn:Elat;
    [|discriminate|discriminate].
  destruct (shape0 latent) as [batch|] eqn:Eb; [|discriminate].
  destruct (select1 latent 0) as [w0|] eqn:E0; [|discriminate].
  destruct (getitem nl 0) as [noise0|] eqn:En; [|discriminate].
  destruct (select1 latent 1) as [w1|] eqn:E1; [|discriminate].
  cbv zeta in H.
  destruct (main_loop _ _ _ _ _ _ _) as [tr' [img|e]] eqn:Eloop;
    cbn [fst snd] in H; [|discriminate].
  injection H as Htr Himg Hlat. subst tr image lat.
  destruct (main_loop_rows _ _ _ _ _ _ _ _ _ Eloop)
    as (rows & out' & Hlen & Hhead & Hlast & Hstep).
  exists nl, ss, latent, rows, out'.
  split; [reflexivity|]. split; [reflexivity|]. split; [exact Elat|].
  split; [reflexivity|]. split; [|split; [exact Hlen|split; [exact Hlast|]]].
  - apply (loop_rows_pass g conditions latent nl rows _ Hhead);
      [|exact Hstep].
    exists batch, w0, w1, noise0. cbn [fst snd].
    unfold getitem in En.
    destruct (nth_error nl 0) as [n0|]; [|discriminate].
    injection En as ->. now repeat split.
  - now rewrite (main_loop_ok_trace _ _ _ _ _ _ _ _ _ Eloop).
Qed.

(** The forward pass on valid styles and noise: the stages before the
    loop succeed, and the loop runs over a latent with a slice for every
    layer and over [(num_layers - 1) / 2] levels. *)
Lemma forward_on_valid (g : @StyleGAN2GeneratorSFT elt)
  (styles conditions : list (tensor elt))
  (input_is_latent : bool) (noise : option (list (option (tensor elt))))
  (randomize_noise : bool) (truncation : Q)
  (truncation_latent : option (tensor elt))
  (inject_index : option Z) (return_latents : bool) (rnd : nat)
  (ss : list (tensor elt)) :
  constructed g ->
  noise_ok g noise ->
  latent_styles g styles input_is_latent truncation truncation_latent
  = Ok ss ->
  styles_ok g ss inject_index ->
  exists nl latent d0 d1 r out skip,
    get_noise g noise randomize_noise = Ok nl /\
    get_latent g ss inject_index rnd = Ok (Some latent) /\
    first_row g latent nl (out, skip) /\
    shape latent = d0 :: d1 :: r /\
    1 + 2 * length (levels_of g nl) < d1 /\
    Z.of_nat (length (levels_of g nl)) = ((num_layers g - 1) / 2)%Z /\
    forward g styles conditions input_is_latent noise randomize_noise
      truncation truncation_latent inject_index return_latents rnd
    = let rest := main_loop g conditions latent (levels_of g nl) 1 out skip in
      (EvConstantInput :: EvStyleConv 0 :: EvToRGB 1 :: fst rest,
       match snd rest with
       | Ok image => Ok (image, if return_latents then Some latent else None)
       | Raise e => Raise e
       end).
Proof.
  intros Hg Hnoise Hss Hok.
  destruct (get_noise_ok g noise randomize_noise Hg Hnoise)
    as (nl & Hnl & Hlen).
  destruct (get_latent_ok g ss inject_index rnd Hg Hok)
    as (latent & d0 & d1 & r & Hlat & Hshape & Hd1).
  pose proof (levels_of_length g nl Hg Hlen) as Hlevels.
  destruct Hg as (Hlog & Hlay & Hlatent & _).
  destruct (select1_ok latent d0 d1 r 0 Hshape ltac:(lia)) as (w0 & E0).
  destruct (select1_ok latent d0 d1 r 1 Hshape ltac:(lia)) as (w1 & E1).
  destruct nl as [|noise0 nl']; [cbn [length] in Hlen; lia|].
  eexists (noise0 :: nl'), latent, d0, d1, r, _, _.
  split; [exact Hnl|]. split; [exact Hlat|].
  split.
  { exists d0, w0, w1, noise0. unfold shape0. rewrite Hshape.
    cbn [fst snd nth_error]. now repeat split. }
  split; [exact Hshape|].
  split; [rewrite Hlevels; lia|].
  split.
  { rewrite Hlevels, Hlay.
    replace ((log_size g - 2) * 2 + 1 - 1)%Z with ((log_size g - 2) * 2)%Z
      by lia.
    rewrite Z.div_mul by lia. lia. }
  rewrite forward_stages, Hnl, Hss, Hlat.
  unfold shape0. rewrite Hshape, E0, E1.
  reflexivity.
Qed.

(** C1.  On a generator as its constructor builds it, with valid styles
    and a noise argument that serves every layer, and for any list of
    conditions.  A pass that returns has gone through
    [(num_layers - 1) / 2 + 1] rows: the first holds the image of the
    first to-RGB layer, each next one the image the to-RGB layer of its
    level makes of the features of the level and of the image before, and
    the image returned is that of the last row; a level for which no
    condition remains hands the features of its first convolution to its
    second as they are.  A pass that raises has completed [k] levels and
    raises in the SFT arithmetic of level [k], one with
    [2k + 1 < len(conditions)], on what the first convolution of that
    level returned: never for want of conditions.  The pass returns when
    no complete pair is supplied, and whenever each supplied pair fits
    the features of its own level, however few the pairs: be it on
    whatever the first convolution of the level returns ([sft_fits]) or
    on the features the level has in the pass ([sft_fits_pass]). *)
Theorem to_rgb_steps_do_not_depend_on_conditions
  (g : @StyleGAN2GeneratorSFT elt)
  (styles conditions : list (tensor elt))
  (input_is_latent : bool) (noise : option (list (option (tensor elt))))
  (randomize_noise : bool) (truncation : Q)
  (truncation_latent : option (tensor elt))
  (inject_index : option Z) (return_latents : bool) (rnd : nat)
  (ss : list (tensor elt)) :
  constructed g ->
  noise_ok g noise ->
  latent_styles g styles input_is_latent truncation truncation_latent
  = Ok ss ->
  styles_ok g ss inject_index ->
  exists nl latent tr result,
    get_noise g noise randomize_noise = Ok nl /\
    get_latent g ss inject_index rnd = Ok (Some latent) /\
    forward g styles conditions input_is_latent noise randomize_noise
      truncation truncation_latent inject_index return_latents rnd
    = (tr, result) /\
    (forall image lat, result = Ok (image, lat) ->
       exists (rows : list (@row elt)) (out : tensor elt),
         pass_rows g conditions latent nl rows /\
         Z.of_nat (length rows) = ((num_layers g - 1) / 2 + 1)%Z /\
         nth_error rows (length rows - 1) = Some (out, image) /\
         to_rgb_steps tr = length rows) /\
    (forall e, result = Raise e ->
       exists (k : nat) (rows : list (@row elt)) (r : @row elt)
              (conv : StyleConv) (w : tensor elt)
              (n : option (tensor elt)),
         pass_rows g conditions latent nl rows /\
         length rows = S k /\
         nth_error rows k = Some r /\
         (Z.of_nat k < (num_layers g - 1) / 2)%Z /\
         nth_error (style_convs g) (2 * k) = Some conv /\
         nth_error nl (2 * k + 1) = Some n /\
         select1 latent (2 * k + 1) = Ok w /\
         2 * k + 1 < length conditions /\
         sft_part g conditions (2 * k + 1) (conv (fst r) w n) = Raise e) /\
    (length conditions <= 1 -> exists x, result = Ok x) /\
    (sft_fits g conditions -> exists x, result = Ok x) /\
    (sft_fits_pass g conditions latent nl -> exists x, result = Ok x).
Proof.
  intros Hg Hnoise Hss Hok.
  destruct (forward_on_valid g styles conditions input_is_latent noise
              randomize_noise truncation truncation_latent inject_index
              return_latents rnd ss Hg Hnoise Hss Hok)
    as (nl & latent & d0 & d1 & r & out & skip
        & Hnl & Hlat & Hfirst & Hshape & Hd1 & Hcount & Hrun).
  exists nl, latent.
  destruct (forward g styles conditions input_is_latent noise
              randomize_noise truncation truncation_latent inject_index
              return_latents rnd) as [tr result] eqn:Efw.
  exists tr, result.
  split; [exact Hnl|]. split; [exact Hlat|]. split; [reflexivity|].
  split.
  { intros image lat ->.
    destruct (forward_ok_rows _ _ _ _ _ _ _ _ _ _ _ _ _ _ Efw)
      as (nl' & ss' & latent' & rows & out' & Hnl' & Hss' & Hlat' & _
          & Hrows & Hlen & Hlast & ->).
    rewrite Hnl in Hnl'. injection Hnl' as <-.
    rewrite Hss in Hss'. injection Hss' as <-.
    rewrite Hlat in Hlat'. injection Hlat' as <-.
    exists rows, out'. split; [exact Hrows|].
    split; [lia|]. split.
    - rewrite Hlen. replace (S (length (levels_of g nl)) - 1)
        with (length (levels_of g nl)) by lia. exact Hlast.
    - unfold to_rgb_steps. cbn [filter is_to_rgb length].
      fold (to_rgb_steps
              (loop_trace (length conditions) 1 (length (levels_of g nl)))).
      rewrite to_rgb_steps_loop. lia. }
  cbv zeta in Hrun.
  destruct (main_loop g conditions latent (levels_of g nl) 1 out skip)
    as [tr' [img|e]] eqn:Eloop; cbn [fst snd] in Hrun;
    injection Hrun as -> ->.
  - split; [discriminate|].
    split; [|split]; intros _; eexists; reflexivity.
  - destruct (main_loop_raise_rows g conditions latent d0 d1 r _ Hshape
                _ _ _ _ _ Hd1 Eloop)
      as (k & rows & rk & c1 & c2 & n1 & n2 & rgb & w0
          & Hlen & Hhead & Hrk & Hstep & Hlv & Hw0 & Hk & Hraise).
    assert (Hklt : k < length (levels_of g nl))
      by (apply nth_error_Some; congruence).
    apply levels_of_nth in Hlv. destruct Hlv as (Hconv & _ & Hn1 & _).
    replace (1 + 2 * k) with (2 * k + 1) in Hw0, Hk, Hraise by lia.
    pose proof (loop_rows_pass g conditions latent nl rows _
                  Hhead Hfirst Hstep) as Hrows.
    destruct (nth_error conditions (2 * k)) as [scale|] eqn:Esc;
      [|apply nth_error_None in Esc; lia].
    destruct (nth_error conditions (2 * k + 1)) as [shift|] eqn:Esh;
      [|apply nth_error_None in Esh; lia].
    rewrite (sft_part_pair g conditions (2 * k) scale shift _ Esc Esh)
      in Hraise.
    split; [|split; [|split]].
    + intros e' [= <-]. exists k, rows, rk, c1, w0, n1.
      split; [exact Hrows|].
      split; [exact Hlen|]. split; [exact Hrk|]. split; [lia|].
      split; [exact Hconv|]. split; [exact Hn1|]. split; [exact Hw0|].
      split; [exact Hk|].
      now rewrite (sft_part_pair g conditions (2 * k) scale shift _ Esc Esh).
    + intros Hshort. lia.
    + intros Hfits. exfalso.
      destruct (Hfits k scale shift c1 (fst rk) w0 n1 Esc Esh Hconv)
        as (o & Ho).
      congruence.
    + intros Hfits. exfalso.
      destruct (Hfits k rows rk c1 w0 n1 scale shift Hrows Hlen Hrk Hconv
                  Hn1 Hw0 Esc Esh) as (o & Ho).
      congruence.
Qed.

(** *** A trailing condition at an even position *)




End Synthesis.

(** ** ConvUpLayer *)

Section ConvUpFacts.
Import ConvUp.

Lemma int64_range (n : Z) :
  int64 n = true <-> (- 2 ^ 63 <= n < 2 ^ 63)%Z.
Proof.
  unfold int64. rewrite andb_true_iff, Z.leb_le, Z.ltb_lt. reflexivity.
Qed.

Lemma int64_outside (n : Z) :
  int64 n = false <-> (n < - 2 ^ 63 \/ 2 ^ 63 <= n)%Z.
Proof.
  unfold int64. rewrite andb_false_iff, Z.leb_gt, Z.ltb_ge. reflexivity.
Qed.

Lemma fits_float_below (n : Z) :
  (Z.abs n < 2 ^ 189)%Z -> fits_float n = true.
Proof.
  intros H. unfold fits_float. apply Z.ltb_lt.
  eapply Z.lt_trans; [exact H|]. now vm_compute.
Qed.

(** The fan-in of sizes that torch accepts is far below the floats'
    range. *)
Lemma fan_in_fits (c k : Z) :
  (0 < c < 2 ^ 63)%Z -> (- 2 ^ 63 <= k < 2 ^ 63)%Z ->
  fits_float (c * k ^ 2) = true.
Proof.
  intros Hc Hk. apply fits_float_below.
  replace (2 ^ 189)%Z with (2 ^ 63 * (2 ^ 63 * 2 ^ 63))%Z
    by (now vm_compute).
  remember (2 ^ 63)%Z as B eqn:HB.
  assert (HBpos : (0 < B)%Z) by (subst B; now vm_compute).
  replace (k ^ 2)%Z with (k * k)%Z by ring.
  assert (Hkk : (0 <= k * k <= B * B)%Z) by nia.
  rewrite Z.abs_eq by nia. nia.
Qed.

(** Every outcome of [ConvUpLayer.__init__], by the checks of lines 165
    to 170 in their order. *)
Lemma init_cases
  (in_channels out_channels kernel_size stride padding : Z)
  (bias : bool) (bias_init_val : Q) (activate : bool) :
  match init in_channels out_channels kernel_size stride padding
          bias bias_init_val activate with
  | Ok l =>
      (0 < in_channels < 2 ^ 63)%Z /\ (0 < kernel_size < 2 ^ 63)%Z /\
      (0 <= out_channels < 2 ^ 63)%Z /\
      scale l = InvSqrt (in_channels * kernel_size ^ 2) /\
      weight_shape l
      = [out_channels; in_channels; kernel_size; kernel_size] /\
      ConvUp.stride l = stride /\ ConvUp.padding l = padding
  | Raise e =>
      (e = OverflowError /\
       (2 ^ 1024 - 2 ^ 970 <= Z.abs (in_channels * kernel_size ^ 2))%Z) \/
      (e = ZeroDivisionError /\ (in_channels = 0 \/ kernel_size = 0)%Z) \/
      (e = ValueError /\ (in_channels < 0)%Z /\ kernel_size <> 0%Z /\
       (Z.abs (in_channels * kernel_size ^ 2) < 2 ^ 1024 - 2 ^ 970)%Z) \/
      (e = TypeError /\ (0 < in_channels)%Z /\ kernel_size <> 0%Z /\
       (Z.abs (in_channels * kernel_size ^ 2) < 2 ^ 1024 - 2 ^ 970)%Z /\
       (int64 out_channels = false \/ int64 in_channels = false \/
        int64 kernel_size = false)) \/
      (e = RuntimeError /\ (0 < in_channels < 2 ^ 63)%Z /\
       int64 out_channels = true /\ int64 kernel_size = true /\
       (out_channels < 0 \/ kernel_size < 0)%Z)
  end.
Proof.
  unfold init, inv_sqrt.
  destruct (fits_float (in_channels * kernel_size ^ 2)) eqn:Ef;
    cbn [negb].
  2: { cbn [rbind]. left. split; [reflexivity|].
       unfold fits_float in Ef. now apply Z.ltb_ge in Ef. }
  assert (Hfits : (Z.abs (in_channels * kernel_size ^ 2)
                   < 2 ^ 1024 - 2 ^ 970)%Z)
    by (unfold fits_float in Ef; now apply Z.ltb_lt in Ef).
  clear Ef.
  destruct (in_channels * kernel_size ^ 2 <? 0)%Z eqn:E1.
  { apply Z.ltb_lt in E1. cbn [rbind]. right. right. left.
    split; [reflexivity|]. split; [clear Hfits; nia|].
    split; [clear Hfits; nia|exact Hfits]. }
  destruct (in_channels * kernel_size ^ 2 =? 0)%Z eqn:E2.
  { apply Z.eqb_eq in E2. cbn [rbind]. right. left.
    split; [reflexivity|]. clear Hfits. nia. }
  apply Z.ltb_ge in E1. apply Z.eqb_neq in E2.
  assert (Hin : (0 < in_channels)%Z) by (clear Hfits; nia).
  assert (Hk : kernel_size <> 0%Z) by (clear Hfits; nia).
  cbn [rbind]. unfold randn. cbn [forallb existsb].
  destruct (int64 out_channels) eqn:Io; cbn [andb negb].
  2: { cbn [rbind]. right. right. right. left.
       split; [reflexivity|]. split; [exact Hin|]. split; [exact Hk|].
       split; [exact Hfits|]. now left. }
  destruct (int64 in_channels) eqn:Ii; cbn [andb negb].
  2: { cbn [rbind]. right. right. right. left.
       split; [reflexivity|]. split; [exact Hin|]. split; [exact Hk|].
       split; [exact Hfits|]. right. now left. }
  destruct (int64 kernel_size) eqn:Ik; cbn [andb negb].
  2: { cbn [rbind]. right. right. right. left.
       split; [reflexivity|]. split; [exact Hin|]. split; [exact Hk|].
       split; [exact Hfits|]. right. now right. }
  clear Hfits.
  pose proof (proj1 (int64_range _) Io) as Ro.
  pose proof (proj1 (int64_range _) Ii) as Ri.
  pose proof (proj1 (int64_range _) Ik) as Rk.
  destruct (out_channels <? 0)%Z eqn:E3.
  { apply Z.ltb_lt in E3. cbn [orb rbind]. right. right. right. right.
    split; [reflexivity|]. split; [lia|]. split; [reflexivity|].
    split; [reflexivity|]. now left. }
  assert (E4 : (in_channels <? 0)%Z = false) by (apply Z.ltb_ge; lia).
  rewrite E4.
  destruct (kernel_size <? 0)%Z eqn:E5.
  { apply Z.ltb_lt in E5. cbn [orb rbind]. right. right. right. right.
    split; [reflexivity|]. split; [lia|]. split; [reflexivity|].
    split; [reflexivity|]. now right. }
  apply Z.ltb_ge in E3, E5. cbn [orb rbind]. unfold zeros_fill.
  rewrite Io, (proj2 (Z.ltb_ge out_channels 0) E3). cbn [negb].
  destruct (bias && negb activate); cbn [rbind];
    cbn [scale weight_shape ConvUp.stride ConvUp.padding];
    repeat split; lia.
Qed.

(** What a returned layer records. *)
Lemma init_records
  (in_channels out_channels kernel_size stride padding : Z)
  (bias : bool) (bias_init_val : Q) (activate : bool) (l : ConvUpLayer) :
  init in_channels out_channels kernel_size stride padding
    bias bias_init_val activate = Ok l ->
  ConvUp.in_channels l = in_channels /\
  ConvUp.out_channels l = out_channels /\
  ConvUp.kernel_size l = kernel_size /\
  ConvUp.stride l = stride /\
  ConvUp.padding l = padding /\
  ConvUp.bias l
  = (if bias && negb activate
     then Some (List.repeat bias_init_val (Z.to_nat out_channels))
     else None) /\
  activation l
  = (if activate
     then if bias then Some (FusedLeakyReLU out_channels)
          else Some (ScaledLeakyReLU (2 # 10))
     else None).
Proof.
  unfold init, zeros_fill.
  destruct (inv_sqrt _) as [sc|]; [|discriminate]. cbn [rbind].
  destruct (randn _) as [w|]; [|discriminate]. cbn [rbind].
  destruct (bias && negb activate); cbn [rbind].
  - destruct (negb (int64 out_channels)); [discriminate|].
    destruct (out_channels <? 0)%Z; [discriminate|]. cbn [rbind].
    intros [= <-]. cbn. repeat split.
  - intros [= <-]. cbn. repeat split.
Qed.

(** The constructor returns on sizes torch accepts. *)
Lemma init_returns
  (in_channels out_channels kernel_size stride padding : Z)
  (bias : bool) (bias_init_val : Q) (activate : bool) :
  (0 < in_channels < 2 ^ 63)%Z ->
  (0 < kernel_size < 2 ^ 63)%Z ->
  (0 <= out_channels < 2 ^ 63)%Z ->
  exists l,
    init in_channels out_channels kernel_size stride padding
      bias bias_init_val activate = Ok l.
Proof.
  intros Hin Hk Hout.
  pose proof (init_cases in_channels out_channels kernel_size stride
                padding bias bias_init_val activate) as H.
  destruct (init in_channels out_channels kernel_size stride padding
              bias bias_init_val activate) as [l|e]; [now exists l|].
  exfalso.
  assert (Hfits : fits_float (in_channels * kernel_size ^ 2) = true)
    by (apply fan_in_fits; lia).
  unfold fits_float in Hfits. apply Z.ltb_lt in Hfits.
  destruct H as [(_ & H)|[(_ & H)|[(_ & H & _)
                 |[(_ & _ & _ & _ & H)|(_ & _ & _ & _ & H)]]]].
  - apply (Z.lt_irrefl (Z.abs (in_channels * kernel_size ^ 2))).
    eapply Z.lt_le_trans; [exact Hfits|exact H].
  - clear Hfits. lia.
  - clear Hfits. lia.
  - clear Hfits. rewrite !int64_outside in H. lia.
  - clear Hfits. lia.
Qed.

(** C3, as the code has it.  [ConvUpLayer(..., bias=True, activate=True)]
    is constructed without error, as is every configuration on sizes
    torch accepts.  In every layer the constructor returns, the free
    parameter [bias] exists exactly when [bias] is requested without
    activation; with [bias] and [activate] both set the parameter is
    registered as [None] and the bias lives in the [FusedLeakyReLU]
    activation. *)
Theorem convup_bias_is_free_or_fused
  (in_channels out_channels kernel_size stride padding : Z)
  (bias : bool) (bias_init_val : Q) (activate : bool) :
  ((0 < in_channels < 2 ^ 63)%Z ->
   (0 < kernel_size < 2 ^ 63)%Z ->
   (0 <= out_channels < 2 ^ 63)%Z ->
   exists l,
     init in_channels out_channels kernel_size stride padding
       bias bias_init_val activate = Ok l) /\
  (forall l,
     init in_channels out_channels kernel_size stride padding
       bias bias_init_val activate = Ok l ->
     (ConvUp.bias l <> None <-> bias = true /\ activate = false) /\
     (bias = true -> activate = false ->
      ConvUp.bias l
      = Some (List.repeat bias_init_val (Z.to_nat out_channels)) /\
      activation l = None) /\
     (bias = true -> activate = true ->
      ConvUp.bias l = None /\
      activation l = Some (FusedLeakyReLU out_channels)) /\
     (bias = false -> activate = true ->
      activation l = Some (ScaledLeakyReLU (2 # 10)))).
Proof.
  split; [apply init_returns|].
  intros l Hl. apply init_records in Hl.
  destruct Hl as (_ & _ & _ & _ & _ & Hb & Ha).
  rewrite Hb, Ha.
  destruct bias, activate; cbn [andb negb];
    repeat split; try congruence; try tauto;
    intros [? ?]; congruence.
Qed.

(** The residual block asks for that configuration itself. *)
Lemma resup_block_constructs (in_channels out_channels : Z) :
  (0 < in_channels < 2 ^ 63)%Z ->
  (0 <= out_channels < 2 ^ 63)%Z ->
  exists blk,
    resup_init in_channels out_channels = Ok blk /\
    ConvUp.bias (conv2 blk) = None /\
    activation (conv2 blk) = Some (FusedLeakyReLU out_channels) /\
    ConvUp.bias (skip blk) = None /\
    activation (skip blk) = None.
Proof.
  intros Hin Hout. unfold resup_init.
  assert (H3 : (0 < 3 < 2 ^ 63)%Z) by (split; now vm_compute).
  assert (H1 : (0 < 1 < 2 ^ 63)%Z) by (split; now vm_compute).
  destruct (init_returns in_channels out_channels 3 1 1 true 0 true
              Hin H3 Hout) as (c2 & E2).
  destruct (init_returns in_channels out_channels 1 1 0 false 0 false
              Hin H1 Hout) as (sk & Es).
  rewrite E2, Es. cbn [rbind]. eexists. split; [reflexivity|].
  apply init_records in E2, Es.
  destruct E2 as (_ & _ & _ & _ & _ & B2 & A2).
  destruct Es as (_ & _ & _ & _ & _ & Bs & As).
  cbn [conv2 skip andb negb] in *. now repeat split.
Qed.

End ConvUpFacts.

(** ** FacialComponentDiscriminator *)

Section DiscriminatorFacts.
Context {elt : Type}.
Import Discriminator.

(** C9.  With [return_feats=True] the discriminator returns, for every
    input, exactly two features: the output of [conv3], a layer of 128
    output channels, and the output of [conv5], a layer of 256 output
    channels.  On an image of three channels, with layers that return as
    many channels as they are configured for, the two features have 128
    and 256 channels. *)
Theorem discriminator_returns_conv3_and_conv5_feats
  (apply : ConvLayer -> tensor elt -> tensor elt) (x : tensor elt) :
  exists out feat3 feat5,
    forward apply init x true = (out, Some [feat3; feat5]) /\
    feat3 = apply (conv3 init) (apply (conv2 init) (apply (conv1 init) x)) /\
    feat5 = apply (conv5 init) (apply (conv4 init) feat3) /\
    out = apply (final_conv init) feat5 /\
    cl_out_channels (conv3 init) = 128%Z /\
    cl_out_channels (conv5 init) = 256%Z /\
    (channels_respected apply ->
     channels x = Some 3 ->
     channels feat3 = Some 128 /\ channels feat5 = Some 256).
Proof.
  do 3 eexists. split; [reflexivity|].
  split; [reflexivity|]. split; [reflexivity|]. split; [reflexivity|].
  split; [reflexivity|]. split; [reflexivity|].
  intros Happly Hx.
  assert (H1 : channels (apply (conv1 init) x) = Some 64)
    by (apply (Happly (conv1 init)); exact Hx).
  assert (H2 : channels (apply (conv2 init) (apply (conv1 init) x))
               = Some 128)
    by (apply (Happly (conv2 init)); exact H1).
  assert (H3 : channels (apply (conv3 init)
                           (apply (conv2 init) (apply (conv1 init) x)))
               = Some 128)
    by (apply (Happly (conv3 init)); exact H2).
  split; [exact H3|].
  apply (Happly (conv5 init)).
  apply (Happly (conv4 init)). exact H3.
Qed.

End DiscriminatorFacts.

(** * The statements at concrete arguments *)

Module Instances.
Import Torch Generator Example.

Lemma gen8_constructed (half : bool) : constructed (gen8 half).
Proof.
  unfold constructed. cbn. repeat split; lia.
Defined.

Lemma gen16_constructed : constructed gen16.
Proof.
  unfold constructed. cbn. repeat split; lia.
Defined.

(** One pair, for the first of the two levels of [gen16]. *)
Lemma gen16_pair_fits : sft_fits gen16 [scale_8; shift_8].
Proof.
  intros k scale shift conv x w n Hscale Hshift Hconv.
  assert (Hk : 2 * k < length [scale_8; shift_8])
    by (apply nth_error_Some; congruence).
  assert (E : k = 0) by (cbn [length] in Hk; lia). subst k.
  injection Hscale as <-. injection Hshift as <-. injection Hconv as <-.
  eexists. reflexivity.
Defined.

(** The layers the pass applies on the generator of output size 8, with
    one condition pair and with none. *)
Example forward_trace_at_gen8 :
  fst (forward (gen8 false) [style_a] [cond_scale; cond_shift]
         false None true 1 None None false 0)
  = [EvConstantInput; EvStyleConv 0; EvToRGB 1;
     EvStyleConv 1; EvSFT 1; EvStyleConv 2; EvToRGB 3] /\
  fst (forward (gen8 false) [style_a] []
         false None true 1 None None false 0)
  = [EvConstantInput; EvStyleConv 0; EvToRGB 1;
     EvStyleConv 1; EvStyleConv 2; EvToRGB 3].
Proof.
  split; reflexivity.
Qed.

(** Half mode on four channels 0, 100, 200, 300 with scale 2 and
    shift 5. *)
Example sft_half_values :
  match sft_part (gen8 true) [cond_scale; cond_shift] 1 feat_4ch with
  | Ok t => map (item t) [[0; 0; 0; 0]; [0; 1; 0; 0]; [0; 2; 0; 0];
                          [0; 3; 0; 0]]
  | Raise _ => []
  end
  = [0%Q; 100%Q; 405%Q; 605%Q].
Proof.
  vm_compute. reflexivity.
Qed.

(** The image of a pass over the two levels of [gen16], on a constant
    input of ones: with the pair (2, 5) for the first level the three
    to-RGB steps add up 1, 1 * 2 + 5 and 7 again; with no condition they
    add up three ones. *)
Example image_at_gen16 :
  match snd (forward gen16 [style_a] [scale_8; shift_8]
               false None true 1 None None false 0),
        snd (forward gen16 [style_a] []
               false None true 1 None None false 0) with
  | Ok (image, _), Ok (plain, _) =>
      Some (shape image, item image [0; 0; 0; 0], item plain [0; 0; 0; 0])
  | _, _ => None
  end
  = Some ([1; 2; 16; 16], 15%Q, 3%Q).
Proof.
  vm_compute. reflexivity.
Qed.

(** C1 on the generator of output size 16, one style and one condition
    pair for two levels: the pass returns the image of the third of three
    rows. *)
Lemma to_rgb_steps_at_gen16 :
  exists nl latent tr image lat (rows : list (@row Q)) out,
    forward gen16 [style_a] [scale_8; shift_8]
      false None true 1 None None false 0 = (tr, Ok (image, lat)) /\
    pass_rows gen16 [scale_8; shift_8] latent nl rows /\
    length rows = 3 /\
    nth_error rows 2 = Some (out, image) /\
    to_rgb_steps tr = 3.
Proof.
  destruct (to_rgb_steps_do_not_depend_on_conditions gen16
              [style_a] [scale_8; shift_8] false None true 1 None None
              false 0 [style_a])
    as (nl & latent & tr & result & _ & _ & Hrun & Hok & _ & _ & Hfits & _).
  - apply gen16_constructed.
  - simpl. exact I.
  - reflexivity.
  - simpl. left. exists 1, 2. reflexivity.
  - destruct (Hfits gen16_pair_fits) as ([image lat] & ->).
    destruct (Hok image lat eq_refl)
      as (rows & out & Hrows & Hcount & Hlast & Hsteps).
    assert (Hlen : length rows = 3) by (cbn in Hcount; lia).
    rewrite Hlen in Hlast, Hsteps.
    exists nl, latent, tr, image, lat, rows, out.
    split; [exact Hrun|]. split; [exact Hrows|]. split; [exact Hlen|].
    split; [exact Hlast|exact Hsteps].
Defined.

(** C2 on a feature map of four channels, in half mode: the step returns,
    and the two lower channels are those of the input. *)
Lemma sft_half_at_four_channels :
  exists out',
    sft_part (gen8 true) [half_scale; half_shift] 1 feat_4ch = Ok out' /\
    shape out' = shape feat_4ch /\
    item out' [0; 0; 0; 0] = item feat_4ch [0; 0; 0; 0] /\
    item out' [0; 1; 0; 0] = item feat_4ch [0; 1; 0; 0].
Proof.
  destruct (sft_half_keeps_first_half_full_transforms_all (gen8 true)
              [half_scale; half_shift] 1 feat_4ch half_scale half_shift)
    as (_ & Hhalf).
  - lia.
  - reflexivity.
  - reflexivity.
  - destruct (Hhalf eq_refl) as (Hkept & Hreturns).
    destruct (Hreturns 1 2 [1; 1]) as (out' & Hrun & Hshape).
    + reflexivity.
    + lia.
    + reflexivity.
    + reflexivity.
    + destruct (Hkept out' Hrun)
        as (d0 & c & r & out_sft & t & Hs & _ & _ & _ & _ & Hfirst & _).
      injection Hs as <- <- <-.
      exists out'. split; [exact Hrun|]. split; [exact Hshape|].
      split; apply Hfirst; simpl; lia.
Defined.

(** C3.  Constructing a [ConvUpLayer] with [bias=True] and
    [activate=True] returns a layer; it does not raise. *)
Lemma convup_bias_and_activate_does_not_raise :
  (exists l, ConvUp.init 64 64 3 1 1 true 0 true = Ok l) /\
  ~ (exists e, ConvUp.init 64 64 3 1 1 true 0 true = Raise e).
Proof.
  split.
  - vm_compute. eexists. reflexivity.
  - intros (e & H). vm_compute in H. discriminate H.
Qed.

Lemma convup_bias_is_free_or_fused_at_64 :
  exists l,
    ConvUp.init 64 64 3 1 1 true 0 true = Ok l /\
    ConvUp.bias l = None /\
    ConvUp.activation l = Some (ConvUp.FusedLeakyReLU 64).
Proof.
  destruct (convup_bias_is_free_or_fused 64 64 3 1 1 true 0 true)
    as (Hreturns & Hfacts).
  destruct Hreturns as (l & Hl); [lia..|].
  exists l. split; [exact Hl|].
  destruct (Hfacts l Hl) as (_ & _ & Hfused & _).
  exact (Hfused eq_refl eq_refl).
Defined.

(** C4.  Three styles are not refused for their number: the exception
    they end in depends on the other arguments.  At the default
    truncation it is the [UnboundLocalError] of [latent]; at a truncation
    of one half with no centre it is the [TypeError] of the truncation
    arithmetic, the one a single style raises there. *)
Lemma three_styles_are_not_refused_as_such :
  forward (gen8 false) [style_a; style_a; style_b] []
    false None true 1 None None false 0
  = ([], Raise (UnboundLocalError "latent")) /\
  forward (gen8 false) [style_a; style_a; style_b] []
    false None true (1 # 2) None None false 0
  = ([], Raise TypeError) /\
  forward (gen8 false) [style_a] []
    false None true (1 # 2) None None false 0
  = ([], Raise TypeError) /\
  ~ refused_for_styles (gen8 false) [style_a; style_a; style_b].
Proof.
  split; [reflexivity|]. split; [reflexivity|]. split; [reflexivity|].
  intros (e & H).
  pose proof (H [] false None true 1%Q None None false 0) as H1.
  pose proof (H [] false None true (1 # 2)%Q None None false 0) as H2.
  vm_compute in H1, H2. congruence.
Qed.

(** C4 with three styles. *)
Lemma three_styles_raise :
  forward (gen8 false) [style_a; style_a; style_b] []
    false None true 1 None None false 0
  = ([], Raise (UnboundLocalError "latent")).
Proof.
  apply (more_than_two_styles_raises (gen8 false)
           [style_a; style_a; style_b] [] false None true 1 None None
           false 0).
  simpl. lia.
Defined.

(** C5 on a style of shape (1, 2). *)
Lemma single_style_at_gen8 :
  exists latent,
    get_latent (gen8 false) [style_a] None 0 = Ok (Some latent) /\
    shape latent = [1; Z.to_nat (num_latent (gen8 false)); 2] /\
    num_latent (gen8 false)
    = (Z.of_nat (1 + length (style_convs (gen8 false))) + 1)%Z /\
    forall l, l < Z.to_nat (num_latent (gen8 false)) ->
      exists slice,
        select1 latent l = Ok slice /\
        shape slice = [1; 2] /\
        forall n j, n < 1 -> j < 2 ->
          item slice [n; j] = item style_a [n; j].
Proof.
  apply (single_style_is_repeated (gen8 false) style_a 1 2 None 0).
  - apply gen8_constructed.
  - reflexivity.
Defined.

(** C6 on two styles of shape (1, 2), mixed at index 2. *)
Lemma two_styles_at_gen8 :
  exists latent,
    get_latent (gen8 false) [style_a; style_b] (Some 2%Z) 0
    = Ok (Some latent) /\
    shape latent = [1; Z.to_nat (num_latent (gen8 false)); 2] /\
    forall l, l < Z.to_nat (num_latent (gen8 false)) ->
      exists slice,
        select1 latent l = Ok slice /\
        shape slice = [1; 2] /\
        forall n j, n < 1 -> j < 2 ->
          item slice [n; j]
          = if l <? Z.to_nat 2 then item style_a [n; j]
            else item style_b [n; j].
Proof.
  apply (two_styles_are_mixed_at_index (gen8 false) style_a style_b 1 2
           2%Z 0).
  - reflexivity.
  - reflexivity.
  - simpl. lia.
Defined.

(** C7.  On the generator of output size 8, where [num_layers = 3], a
    draw returns the injection index 3, outside [1, num_layers - 1]. *)
Lemma drawn_inject_index_exceeds_num_layers_minus_one :
  ~ (forall rnd k,
       choose_inject_index (gen8 false) None rnd = Ok k ->
       (1 <= k <= num_layers (gen8 false) - 1)%Z).
Proof.
  intros H. specialize (H 2 3%Z eq_refl). simpl in H. lia.
Qed.

Lemma drawn_inject_index_range_at_gen8 :
  (exists k, choose_inject_index (gen8 false) None 2 = Ok k /\
             (1 <= k <= num_latent (gen8 false) - 1)%Z) /\
  (num_latent (gen8 false) - 1 = num_layers (gen8 false))%Z /\
  (forall k, (1 <= k <= num_layers (gen8 false))%Z ->
             exists rnd', choose_inject_index (gen8 false) None rnd' = Ok k).
Proof.
  apply (drawn_inject_index_range (gen8 false) 2).
  apply gen8_constructed.
Defined.

(** C9 on an image of three channels. *)
Lemma discriminator_feats_at_image3 :
  exists out feat3 feat5,
    Discriminator.forward conv_layer Discriminator.init image3 true
    = (out, Some [feat3; feat5]) /\
    Discriminator.channels feat3 = Some 128 /\
    Discriminator.channels feat5 = Some 256.
Proof.
  destruct (discriminator_returns_conv3_and_conv5_feats conv_layer image3)
    as (out & feat3 & feat5 & Hrun & _ & _ & _ & _ & _ & Hchannels).
  exists out, feat3, feat5. split; [exact Hrun|].
  apply Hchannels.
  - intros l x _. reflexivity.
  - reflexivity.
Defined.


End Instances.

(** * Further properties of the code *)

(** ** Truncation, styles and the injection index at their edges *)

Section EntryEdges.
Context {elt : Type} {Sc : Scalar elt}.
Import Torch Generator.
Local Open Scope py_scope.

Lemma not_below_one (t : Q) : (1 <= t)%Q -> Qle_bool 1 t = true.
Proof.
  intros H. now apply Qle_bool_iff.
Qed.

Lemma below_one (t : Q) : (t < 1)%Q -> Qle_bool 1 t = false.
Proof.
  intros H. destruct (Qle_bool 1 t) eqn:E; [|reflexivity].
  apply Qle_bool_iff in E. exfalso. exact (Qlt_not_le _ _ H E).
Qed.

(** X1.  A truncation ratio of one or more is ignored: the styles are
    returned as given and the pass is the one of [truncation = 1] with no
    centre, whatever centre is supplied. *)
Theorem truncation_of_one_or_more_is_ignored
  (g : @StyleGAN2GeneratorSFT elt) (styles conditions : list (tensor elt))
  (input_is_latent : bool) (noise : option (list (option (tensor elt))))
  (randomize_noise : bool) (truncation : Q)
  (truncation_latent : option (tensor elt))
  (inject_index : option Z) (return_latents : bool) (rnd : nat) :
  (1 <= truncation)%Q ->
  style_truncation truncation truncation_latent styles = Ok styles /\
  forward g styles conditions input_is_latent noise randomize_noise
    truncation truncation_latent inject_index return_latents rnd
  = forward g styles conditions input_is_latent noise randomize_noise
      1 None inject_index return_latents rnd.
Proof.
  intros Ht. apply not_below_one in Ht.
  unfold forward, style_truncation. rewrite Ht. split; reflexivity.
Qed.

(** X2.  With a ratio below one and no truncation centre, a pass over at
    least one style raises [TypeError] before any layer of the main
    generation part is applied. *)
Theorem truncation_without_centre_raises
  (g : @StyleGAN2GeneratorSFT elt) (styles conditions : list (tensor elt))
  (input_is_latent : bool) (noise : option (list (option (tensor elt))))
  (randomize_noise : bool) (truncation : Q)
  (inject_index : option Z) (return_latents : bool) (rnd : nat) :
  constructed g ->
  noise_ok g noise ->
  (truncation < 1)%Q ->
  styles <> [] ->
  forward g styles conditions input_is_latent noise randomize_noise
    truncation None inject_index return_latents rnd
  = ([], Raise TypeError).
Proof.
  intros Hg Hnoise Ht Hstyles.
  destruct (get_noise_ok g noise randomize_noise Hg Hnoise) as (nl & Hnl & _).
  rewrite forward_stages, Hnl.
  unfold latent_styles, style_truncation. rewrite (below_one _ Ht).
  destruct styles as [|s styles]; [contradiction|].
  destruct input_is_latent; reflexivity.
Qed.

Lemma binop_same_shape (op : elt -> elt -> elt) (a b : tensor elt) :
  shape b = shape a ->
  exists t,
    binop op a b = Ok t /\
    shape t = shape a /\
    forall idx, in_range idx (shape a) ->
      item t idx = op (item a idx) (item b idx).
Proof.
  intros Hb. unfold binop. rewrite Hb, broadcast_shape_refl.
  eexists. split; [reflexivity|]. split; [reflexivity|].
  intros idx Hidx. cbn [item]. now rewrite (bidx_in_range _ _ Hidx).
Qed.

(** X3.  With a ratio below one and a centre of the shape of the styles,
    truncation returns as many styles, of the same shapes, each element
    being [centre + truncation * (style - centre)]. *)
Theorem truncation_interpolates_towards_centre
  (truncation : Q) (centre : tensor elt) (styles : list (tensor elt)) :
  (truncation < 1)%Q ->
  Forall (fun s => shape s = shape centre) styles ->
  exists truncated,
    style_truncation truncation (Some centre) styles = Ok truncated /\
    Forall2 (fun s s' =>
               shape s' = shape s /\
               forall idx, in_range idx (shape s) ->
                 item s' idx
                 = eadd (item centre idx)
                     (escal truncation (esub (item s idx) (item centre idx))))
      styles truncated.
Proof.
  intros Ht Hshapes. unfold style_truncation. rewrite (below_one _ Ht).
  cbn [negb].
  induction Hshapes as [|s styles Hs _ IH].
  - exists []. split; [reflexivity|constructor].
  - destruct IH as (rest & Hrest & Hall).
    destruct (binop_same_shape esub s centre (eq_sym Hs))
      as (d & Hd & Hdshape & Hditem).
    destruct (binop_same_shape eadd centre (smul truncation d))
      as (r & Hr & Hrshape & Hritem).
    { cbn [smul shape]. now rewrite Hdshape. }
    exists (r :: rest). split.
    + cbn [rmap]. rewrite Hrest.
      change (tsub s centre) with (binop esub s centre). rewrite Hd.
      cbn [rbind].
      change (tadd centre (smul truncation d))
        with (binop eadd centre (smul truncation d)).
      rewrite Hr. reflexivity.
    + constructor; [|exact Hall]. split; [congruence|].
      intros idx Hidx.
      rewrite Hritem by (rewrite <- Hs; exact Hidx).
      cbn [smul item]. now rewrite Hditem.
Qed.

(** X4.  With no style at all the pass raises the [UnboundLocalError] of
    [latent] before any layer of the main generation part is applied,
    whatever the truncation arguments: the truncation loop has nothing to
    run on. *)
Theorem no_style_raises_unbound_latent
  (g : @StyleGAN2GeneratorSFT elt) (conditions : list (tensor elt))
  (input_is_latent : bool) (noise : option (list (option (tensor elt))))
  (randomize_noise : bool) (truncation : Q)
  (truncation_latent : option (tensor elt))
  (inject_index : option Z) (return_latents : bool) (rnd : nat) :
  constructed g ->
  noise_ok g noise ->
  forward g [] conditions input_is_latent noise randomize_noise
    truncation truncation_latent inject_index return_latents rnd
  = ([], Raise (UnboundLocalError "latent")).
Proof.
  intros Hg Hnoise.
  destruct (get_noise_ok g noise randomize_noise Hg Hnoise) as (nl & Hnl & _).
  rewrite forward_stages, Hnl.
  unfold latent_styles, style_truncation.
  destruct input_is_latent, (negb (Qle_bool 1 truncation)); reflexivity.
Qed.

(** Two styles of one shape (batch, dim) mixed at any index that leaves
    both repetition counts non-negative. *)
Lemma mix_at_any_index
  (g : @StyleGAN2GeneratorSFT elt) (s0 s1 : tensor elt) (b d : nat)
  (k : Z) (rnd : nat) :
  shape s0 = [b; d] ->
  shape s1 = [b; d] ->
  (0 <= k <= num_latent g)%Z ->
  exists latent,
    get_latent g [s0; s1] (Some k) rnd = Ok (Some latent) /\
    shape latent = [b; Z.to_nat (num_latent g); d] /\
    forall l n j, n < b -> j < d ->
      item latent [n; l; j]
      = if l <? Z.to_nat k then item s0 [n; j] else item s1 [n; j].
Proof.
  intros Hs0 Hs1 Hk.
  destruct (broadcast_style s0 b d k Hs0 ltac:(lia))
    as (u0 & r0 & Hu0 & Hr0 & Hsh0 & Hit0).
  destruct (broadcast_style s1 b d (num_latent g - k) Hs1 ltac:(lia))
    as (u1 & r1 & Hu1 & Hr1 & Hsh1 & Hit1).
  unfold get_latent, choose_inject_index. cbn [rbind].
  rewrite Hu0. cbn [rbind]. rewrite Hr0. cbn [rbind].
  rewrite Hu1. cbn [rbind]. rewrite Hr1. cbn [rbind].
  unfold cat1. rewrite Hsh0, Hsh1.
  rewrite Nat.eqb_refl, shape_eqb_refl. cbn [andb rbind].
  eexists. split; [reflexivity|]. cbn [shape item]. split.
  - do 2 f_equal. lia.
  - intros l n j Hn Hj.
    destruct (l <? Z.to_nat k); [now apply Hit0|now apply Hit1].
Qed.

(** X5.  The injection index may sit at either end: with
    [inject_index = num_latent] every layer of the latent is the first
    style, with [inject_index = 0] every layer is the second. *)
Theorem inject_index_at_the_ends_keeps_one_style
  (g : @StyleGAN2GeneratorSFT elt) (s0 s1 : tensor elt) (b d : nat)
  (rnd : nat) :
  constructed g ->
  shape s0 = [b; d] ->
  shape s1 = [b; d] ->
  (exists latent,
     get_latent g [s0; s1] (Some (num_latent g)) rnd = Ok (Some latent) /\
     shape latent = [b; Z.to_nat (num_latent g); d] /\
     forall l n j, l < Z.to_nat (num_latent g) -> n < b -> j < d ->
       item latent [n; l; j] = item s0 [n; j]) /\
  (exists latent,
     get_latent g [s0; s1] (Some 0%Z) rnd = Ok (Some latent) /\
     shape latent = [b; Z.to_nat (num_latent g); d] /\
     forall l n j, l < Z.to_nat (num_latent g) -> n < b -> j < d ->
       item latent [n; l; j] = item s1 [n; j]).
Proof.
  intros (Hlog & Hlay & Hlat & _) Hs0 Hs1. split.
  - destruct (mix_at_any_index g s0 s1 b d (num_latent g) rnd Hs0 Hs1
                ltac:(lia))
      as (latent & Hrun & Hshape & Hitem).
    exists latent. split; [exact Hrun|]. split; [exact Hshape|].
    intros l n j Hl Hn Hj. rewrite (Hitem l n j Hn Hj).
    apply Nat.ltb_lt in Hl. now rewrite Hl.
  - destruct (mix_at_any_index g s0 s1 b d 0%Z rnd Hs0 Hs1 ltac:(lia))
      as (latent & Hrun & Hshape & Hitem).
    exists latent. split; [exact Hrun|]. split; [exact Hshape|].
    intros l n j Hl Hn Hj. rewrite (Hitem l n j Hn Hj). reflexivity.
Qed.

(** X6.  With two styles of shape (batch, dim), an injection index below
    zero or above [num_latent], within the 64-bit range torch reads a
    count in, makes the latent expansion raise [RuntimeError]: one of the
    two repetition counts is negative.  With [num_latent] not negative,
    as it is once constructed, both counts are within that range. *)
Theorem inject_index_outside_the_latents_raises
  (g : @StyleGAN2GeneratorSFT elt) (s0 s1 : tensor elt) (b0 d0 b1 d1 : nat)
  (k : Z) (rnd : nat) :
  (0 <= num_latent g)%Z ->
  shape s0 = [b0; d0] ->
  shape s1 = [b1; d1] ->
  (- 2 ^ 63 <= k < 0 \/ num_latent g < k < 2 ^ 63)%Z ->
  get_latent g [s0; s1] (Some k) rnd = Raise RuntimeError.
Proof.
  intros _ Hs0 Hs1 Hk.
  unfold get_latent, choose_inject_index, unsqueeze1. cbn [rbind].
  rewrite Hs0, Hs1. cbn [rbind].
  unfold t_repeat, ndim. cbn [shape length Nat.ltb Nat.leb existsb].
  destruct (k <? 0)%Z eqn:Ek; [reflexivity|].
  apply Z.ltb_ge in Ek.
  assert (E : (num_latent g - k <? 0)%Z = true) by (apply Z.ltb_lt; lia).
  cbn [orb rbind]. rewrite E. reflexivity.
Qed.

(** X7.  Style mixing takes two styles of one shape (batch, dim): two
    such styles of different shapes make [torch.cat] raise
    [RuntimeError], and a first style with three axes or more makes
    [repeat] raise it. *)
Theorem mixed_styles_must_be_flat_and_alike
  (g : @StyleGAN2GeneratorSFT elt) (s0 s1 : tensor elt)
  (k : Z) (rnd : nat) :
  (0 <= k <= num_latent g)%Z ->
  (forall b0 d0 b1 d1,
     shape s0 = [b0; d0] -> shape s1 = [b1; d1] ->
     (b0 <> b1 \/ d0 <> d1) ->
     get_latent g [s0; s1] (Some k) rnd = Raise RuntimeError) /\
  (forall a0 a1 a2 r,
     shape s0 = a0 :: a1 :: a2 :: r ->
     get_latent g [s0; s1] (Some k) rnd = Raise RuntimeError).
Proof.
  intros Hk. split.
  - intros b0 d0 b1 d1 Hs0 Hs1 Hdiff.
    destruct (broadcast_style s0 b0 d0 k Hs0 ltac:(lia))
      as (u0 & r0 & Hu0 & Hr0 & Hsh0 & _).
    destruct (broadcast_style s1 b1 d1 (num_latent g - k) Hs1 ltac:(lia))
      as (u1 & r1 & Hu1 & Hr1 & Hsh1 & _).
    unfold get_latent, choose_inject_index. cbn [rbind].
    rewrite Hu0. cbn [rbind]. rewrite Hr0. cbn [rbind].
    rewrite Hu1. cbn [rbind]. rewrite Hr1. cbn [rbind].
    unfold cat1. rewrite Hsh0, Hsh1. cbn [shape_eqb].
    destruct (b0 =? b1) eqn:Eb; [|reflexivity].
    destruct (d0 =? d1) eqn:Ed; [|reflexivity].
    apply Nat.eqb_eq in Eb, Ed. lia.
  - intros a0 a1 a2 r Hs0.
    unfold get_latent, choose_inject_index, unsqueeze1. cbn [rbind].
    rewrite Hs0. cbn [rbind].
    unfold t_repeat, ndim. cbn [shape length].
    reflexivity.
Qed.

End EntryEdges.

(** ** Noise and the pairing of layers *)

Section NoiseAndLevels.
Context {elt : Type} {Sc : Scalar elt}.
Import Torch Generator.
Local Open Scope py_scope.

Lemma skipn_cons_nth {A : Type} (l : list A) (a : nat) (x : A) :
  nth_error l a = Some x -> skipn a l = x :: skipn (S a) l.
Proof.
  revert a. induction l as [|y l IH]; intros [|a] H; try discriminate.
  - injection H as <-. reflexivity.
  - cbn [nth_error] in H. cbn [skipn]. now apply IH.
Qed.

Lemma stored_noise_found (l : list (tensor elt)) (n : nat) :
  forall a,
    a + n <= length l ->
    rmap (fun i => match nth_error l i with
                   | Some t => Ok (Some t)
                   | None => Raise AttributeError
                   end) (seq a n)
    = Ok (map Some (firstn n (skipn a l))).
Proof.
  induction n as [|n IH]; intros a Ha; [reflexivity|].
  cbn [seq rmap].
  destruct (nth_error l a) as [t|] eqn:E;
    [|apply nth_error_None in E; lia].
  cbn [rbind]. rewrite (IH (S a)) by lia. cbn [rbind].
  rewrite (skipn_cons_nth l a t E). reflexivity.
Qed.

Lemma stored_noise_missing (l : list (tensor elt)) (n : nat) :
  forall a,
    a <= length l < a + n ->
    rmap (fun i => match nth_error l i with
                   | Some t => Ok (Some t)
                   | None => Raise AttributeError
                   end) (seq a n)
    = Raise AttributeError.
Proof.
  induction n as [|n IH]; intros a Ha; [lia|].
  cbn [seq rmap].
  destruct (nth_error l a) as [t|] eqn:E; [|reflexivity].
  cbn [rbind].
  assert (Hlt : a < length l) by (apply nth_error_Some; congruence).
  rewrite (IH (S a)) by lia. reflexivity.
Qed.

(** X8.  With no noise argument: [randomize_noise=True] gives every layer
    [None], [num_layers] times; [randomize_noise=False] gives layer [i]
    the stored buffer [noise{i}], and raises [AttributeError] when the
    generator has fewer buffers than layers. *)
Theorem noise_is_drawn_or_read_from_the_buffers
  (g : @StyleGAN2GeneratorSFT elt) :
  (0 <= num_layers g)%Z ->
  get_noise g None true = Ok (List.repeat None (Z.to_nat (num_layers g))) /\
  (Z.of_nat (length (noises g)) = num_layers g ->
   get_noise g None false = Ok (map Some (noises g))) /\
  ((Z.of_nat (length (noises g)) < num_layers g)%Z ->
   get_noise g None false = Raise AttributeError).
Proof.
  intros Hn. split; [reflexivity|]. split; intros Hlen; cbn [get_noise].
  - rewrite stored_noise_found by lia. cbn [skipn].
    replace (Z.to_nat (num_layers g)) with (length (noises g)) by lia.
    now rewrite firstn_all.
  - apply stored_noise_missing. lia.
Qed.

(** X9.  The [k]-th turn of the loop is given the style convolutions
    [2k] and [2k + 1], the noises [2k + 1] and [2k + 2] and the to-RGB
    layer [k]: noise [0] is left to the first convolution. *)
Theorem levels_pair_layers_and_noises
  (g : @StyleGAN2GeneratorSFT elt) (noise : list (option (tensor elt)))
  (k : nat) conv1 conv2 noise1 noise2 to_rgb :
  nth_error (levels_of g noise) k
  = Some (conv1, conv2, noise1, noise2, to_rgb) ->
  nth_error (style_convs g) (2 * k) = Some conv1 /\
  nth_error (style_convs g) (2 * k + 1) = Some conv2 /\
  nth_error noise (2 * k + 1) = Some noise1 /\
  nth_error noise (2 * k + 2) = Some noise2 /\
  nth_error (to_rgbs g) k = Some to_rgb.
Proof.
  intros H. unfold levels_of in H.
  apply nth_error_zip5 in H. destruct H as (H1 & H2 & H3 & H4 & H5).
  rewrite (proj1 (nth_error_evens _)) in H1.
  rewrite (proj1 (nth_error_evens _)), nth_error_skipn in H2.
  rewrite (proj1 (nth_error_evens _)), nth_error_skipn in H3.
  rewrite (proj1 (nth_error_evens _)), nth_error_skipn in H4.
  replace (1 + 2 * k) with (2 * k + 1) in H2, H3 by lia.
  replace (2 + 2 * k) with (2 * k + 2) in H4 by lia.
  repeat split; assumption.
Qed.

End NoiseAndLevels.

(** ** Passes on short noise lists, short latents and long condition lists *)

Section LoopEdges.
Context {elt : Type} {Sc : Scalar elt}.
Import Torch Generator.
Local Open Scope py_scope.

(** What a pass that returns has gone through. *)
Lemma forward_ok_inv (g : @StyleGAN2GeneratorSFT elt)
  (styles conditions : list (tensor elt))
  (input_is_latent : bool) (noise : option (list (option (tensor elt))))
  (randomize_noise : bool) (truncation : Q)
  (truncation_latent : option (tensor elt))
  (inject_index : option Z) (return_latents : bool) (rnd : nat) tr x :
  forward g styles conditions input_is_latent noise randomize_noise
    truncation truncation_latent inject_index return_latents rnd
  = (tr, Ok x) ->
  exists nl ss latent w1 out skip tr' img,
    get_noise g noise randomize_noise = Ok nl /\
    nl <> [] /\
    latent_styles g styles input_is_latent truncation truncation_latent
    = Ok ss /\
    get_latent g ss inject_index rnd = Ok (Some latent) /\
    select1 latent 1 = Ok w1 /\
    main_loop g conditions latent (levels_of g nl) 1 out skip
    = (tr', Ok img) /\
    tr = EvConstantInput :: EvStyleConv 0 :: EvToRGB 1 :: tr' /\
    x = (img, if return_latents then Some latent else None).
Proof.
  intros H. rewrite forward_stages in H.
  destruct (get_noise g noise randomize_noise) as [nl|] eqn:Enl;
    [|discriminate].
  destruct (latent_styles _ _ _ _ _) as [ss|] eqn:Ess; [|discriminate].
  destruct (get_latent g ss inject_index rnd) as [[latent|]|] eqn:Elat;
    [|discriminate|discriminate].
  destruct (shape0 latent) as [batch|]; [|discriminate].
  destruct (select1 latent 0) as [w0|]; [|discriminate].
  destruct (getitem nl 0) as [noise0|] eqn:En; [|discriminate].
  destruct (select1 latent 1) as [w1|] eqn:E1; [|discriminate].
  cbv zeta in H.
  destruct (main_loop _ _ _ _ _ _ _) as [tr' [img|e]] eqn:Eloop;
    cbn [fst snd] in H; [|discriminate].
  injection H as <- <-.
  exists nl, ss, latent, w1. do 2 eexists. exists tr', img.
  split; [reflexivity|]. split.
  { intros ->. discriminate En. }
  split; [reflexivity|]. split; [exact Elat|]. split; [exact E1|].
  split; [exact Eloop|]. split; reflexivity.
Qed.

Lemma levels_of_length_any_noise (g : @StyleGAN2GeneratorSFT elt)
  (nl : list (option (tensor elt))) :
  constructed g ->
  nl <> [] ->
  length (levels_of g nl)
  = Nat.min (Z.to_nat ((num_layers g - 1) / 2)) ((length nl - 1) / 2).
Proof.
  intros (Hlog & Hlay & Hlat & Hconvs & Hrgbs & Hnoises) Hnl.
  unfold levels_of.
  rewrite zip5_length, !evens_length_half, !length_skipn.
  assert (Hm : ((num_layers g - 1) / 2 = log_size g - 2)%Z).
  { rewrite Hlay.
    replace ((log_size g - 2) * 2 + 1 - 1)%Z with ((log_size g - 2) * 2)%Z
      by lia.
    apply Z.div_mul. lia. }
  rewrite Hm. set (m := Z.to_nat (log_size g - 2)).
  assert (Hc : length (style_convs g) = 2 * m) by lia.
  assert (Hr : length (to_rgbs g) = m) by lia.
  rewrite Hc, Hr.
  assert (E1 : (2 * m + 1) / 2 = m).
  { symmetry. apply (Nat.div_unique _ _ _ 1); lia. }
  assert (E2 : (2 * m - 1 + 1) / 2 = m).
  { destruct m; [reflexivity|].
    symmetry. apply (Nat.div_unique _ _ _ 0); lia. }
  rewrite E1, E2.
  destruct nl as [|n0 nl]; [contradiction|]. cbn [length].
  replace (S (length nl) - 1 + 1) with (length nl + 1) by lia.
  replace (S (length nl) - 1) with (length nl) by lia.
  assert (E3 : (S (length nl) - 2 + 1) / 2 = length nl / 2).
  { destruct nl as [|n1 nl]; [reflexivity|]. cbn [length].
    f_equal. lia. }
  rewrite E3.
  assert (E4 : length nl / 2 <= (length nl + 1) / 2).
  { apply Nat.Div0.div_le_mono. lia. }
  lia.
Qed.

(** X10.  A noise list shorter than the layers cuts the loop short
    without an error: a pass that returns on a noise list of [n] entries
    has gone through [1 + min((num_layers - 1) / 2, (n - 1) / 2)] rows,
    one to-RGB step each, and returns the image of the last one. *)
Theorem short_noise_list_cuts_the_loop
  (g : @StyleGAN2GeneratorSFT elt)
  (styles conditions : list (tensor elt))
  (input_is_latent : bool) (noise : list (option (tensor elt)))
  (randomize_noise : bool) (truncation : Q)
  (truncation_latent : option (tensor elt))
  (inject_index : option Z) (return_latents : bool) (rnd : nat)
  tr image lat :
  constructed g ->
  forward g styles conditions input_is_latent (Some noise) randomize_noise
    truncation truncation_latent inject_index return_latents rnd
  = (tr, Ok (image, lat)) ->
  exists ss latent (rows : list (@row elt)) (out : tensor elt),
    latent_styles g styles input_is_latent truncation truncation_latent
    = Ok ss /\
    get_latent g ss inject_index rnd = Ok (Some latent) /\
    pass_rows g conditions latent noise rows /\
    length rows
    = 1 + Nat.min (Z.to_nat ((num_layers g - 1) / 2))
            ((length noise - 1) / 2) /\
    nth_error rows (length rows - 1) = Some (out, image) /\
    to_rgb_steps tr = length rows.
Proof.
  intros Hg H.
  destruct (forward_ok_rows _ _ _ _ _ _ _ _ _ _ _ _ _ _ H)
    as (nl & ss & latent & rows & out & Hnl & Hss & Hlat & _
        & Hrows & Hlen & Hlast & ->).
  cbn [get_noise] in Hnl. injection Hnl as <-.
  assert (Hne : noise <> []).
  { destruct Hrows as ((r0 & _ & (b & w0 & w1 & n0 & _ & _ & Hn & _)) & _).
    intros ->. discriminate Hn. }
  pose proof (levels_of_length_any_noise g noise Hg Hne) as Hlv.
  exists ss, latent, rows, out.
  split; [exact Hss|]. split; [exact Hlat|]. split; [exact Hrows|].
  split; [rewrite Hlen, Hlv; reflexivity|]. split.
  - rewrite Hlen. replace (S (length (levels_of g noise)) - 1)
      with (length (levels_of g noise)) by lia. exact Hlast.
  - unfold to_rgb_steps. cbn [filter is_to_rgb length].
    fold (to_rgb_steps
            (loop_trace (length conditions) 1 (length (levels_of g noise)))).
    rewrite to_rgb_steps_loop, Hlen. reflexivity.
Qed.

(** X11.  An empty noise list makes a pass on valid styles raise
    [IndexError] at [noise[0]], once the constant input has been
    applied. *)
Theorem empty_noise_list_raises
  (g : @StyleGAN2GeneratorSFT elt)
  (styles conditions : list (tensor elt))
  (input_is_latent : bool) (randomize_noise : bool) (truncation : Q)
  (truncation_latent : option (tensor elt))
  (inject_index : option Z) (return_latents : bool) (rnd : nat)
  (ss : list (tensor elt)) :
  constructed g ->
  latent_styles g styles input_is_latent truncation truncation_latent
  = Ok ss ->
  styles_ok g ss inject_index ->
  forward g styles conditions input_is_latent (Some []) randomize_noise
    truncation truncation_latent inject_index return_latents rnd
  = ([EvConstantInput], Raise IndexError).
Proof.
  intros Hg Hss Hok.
  destruct (get_latent_ok g ss inject_index rnd Hg Hok)
    as (latent & d0 & d1 & r & Hlat & Hshape & Hd1).
  destruct Hg as (Hlog & Hlay & Hlatent & _).
  destruct (select1_ok latent d0 d1 r 0 Hshape ltac:(lia)) as (w0 & E0).
  rewrite forward_stages. cbn [get_noise].
  rewrite Hss, Hlat. unfold shape0. rewrite Hshape, E0. reflexivity.
Qed.

Lemma select1_ok_inv (t w : tensor elt) (i : nat) :
  select1 t i = Ok w ->
  exists d0 d1 r, shape t = d0 :: d1 :: r /\ i < d1.
Proof.
  unfold select1. intros H.
  destruct (shape t) as [|d0 [|d1 r]]; try discriminate.
  destruct (i <? d1) eqn:E; [|discriminate].
  apply Nat.ltb_lt in E. now exists d0, d1, r.
Qed.

Lemma select1_raises_index_error (t : tensor elt) (i : nat) e :
  select1 t i = Raise e -> e = IndexError.
Proof.
  unfold select1. intros H.
  destruct (shape t) as [|d0 [|d1 r]]; try (injection H as <-; reflexivity).
  destruct (i <? d1); [discriminate|]. now injection H as <-.
Qed.

(** A loop that returns has read the latent slice of its last to-RGB
    layer. *)
Lemma main_loop_reads_last_slice (g : @StyleGAN2GeneratorSFT elt)
  (conditions : list (tensor elt)) (latent : tensor elt) levels :
  forall (i : nat) (out skip : tensor elt) tr img,
    levels <> [] ->
    main_loop g conditions latent levels i out skip = (tr, Ok img) ->
    exists w, select1 latent (i + 2 * length levels) = Ok w.
Proof.
  induction levels as [|[[[[c1 c2] n1] n2] rgb] levels IH];
    intros i out skip tr img Hne H; [contradiction|].
  rewrite main_loop_turn in H.
  destruct (select1 latent i) as [w0|]; [|discriminate].
  cbv zeta in H.
  destruct (snd (sft_level g conditions i (c1 out w0 n1))) as [o|];
    [|discriminate].
  destruct (select1 latent (i + 1)) as [w1|]; [|discriminate].
  destruct (select1 latent (i + 2)) as [w2|] eqn:E2; [|discriminate].
  destruct levels as [|lv levels].
  - exists w2. cbn [length]. exact E2.
  - match type of H with
    | context [main_loop ?a ?b ?c ?d ?e ?f ?h] =>
        destruct (main_loop a b c d e f h) as [tr' r'] eqn:Erec
    end.
    cbn [fst snd] in H. injection H as _ ->.
    assert (Hcons : lv :: levels <> []) by discriminate.
    destruct (IH _ _ _ _ _ Hcons Erec) as (w & Hw).
    exists w. rewrite <- Hw. f_equal. cbn [length]. lia.
Qed.

(** Without conditions the loop raises nothing but [IndexError]. *)
Lemma main_loop_unconditioned_raises_index_error
  (g : @StyleGAN2GeneratorSFT elt) (latent : tensor elt) levels :
  forall (i : nat) (out skip : tensor elt) tr e,
    main_loop g [] latent levels i out skip = (tr, Raise e) ->
    e = IndexError.
Proof.
  induction levels as [|[[[[c1 c2] n1] n2] rgb] levels IH];
    intros i out skip tr e H; [discriminate|].
  rewrite main_loop_turn in H.
  destruct (select1 latent i) as [w0|e0] eqn:E0;
    [|injection H as _ <-; exact (select1_raises_index_error _ _ _ E0)].
  cbv zeta in H. rewrite sft_level_run in H. cbn [length Nat.ltb Nat.leb] in H.
  cbn [fst snd] in H.
  destruct (select1 latent (i + 1)) as [w1|e1] eqn:E1;
    [|injection H as _ <-; exact (select1_raises_index_error _ _ _ E1)].
  destruct (select1 latent (i + 2)) as [w2|e2] eqn:E2;
    [|injection H as _ <-; exact (select1_raises_index_error _ _ _ E2)].
  match type of H with
  | context [main_loop ?a ?b ?c ?d ?e ?f ?h] =>
      destruct (main_loop a b c d e f h) as [tr' r'] eqn:Erec
  end.
  cbn [fst snd] in H. injection H as _ ->.
  exact (IH _ _ _ _ _ Erec).
Qed.

(** X12.  A single style with three axes or more is taken as the latent
    of every layer, as it is: a pass that returns hands it back when
    [return_latents] is set, and it returns only if the style has at
    least [num_latent] layers.  On a shorter one the pass never returns,
    and without conditions it raises [IndexError]. *)
Theorem per_layer_latent_is_used_as_is
  (g : @StyleGAN2GeneratorSFT elt)
  (styles conditions : list (tensor elt))
  (input_is_latent : bool) (noise : option (list (option (tensor elt))))
  (randomize_noise : bool) (truncation : Q)
  (truncation_latent : option (tensor elt))
  (inject_index : option Z) (return_latents : bool) (rnd : nat)
  (s : tensor elt) (d0 d1 d2 : nat) (r : list nat) :
  constructed g ->
  noise_ok g noise ->
  latent_styles g styles input_is_latent truncation truncation_latent
  = Ok [s] ->
  shape s = d0 :: d1 :: d2 :: r ->
  (forall tr img latent,
     forward g styles conditions input_is_latent noise randomize_noise
       truncation truncation_latent inject_index return_latents rnd
     = (tr, Ok (img, latent)) ->
     latent = (if return_latents then Some s else None) /\
     (num_latent g <= Z.of_nat d1)%Z) /\
  ((Z.of_nat d1 < num_latent g)%Z ->
   exists tr,
     forward g styles [] input_is_latent noise randomize_noise
       truncation truncation_latent inject_index return_latents rnd
     = (tr, Raise IndexError)).
Proof.
  intros Hg Hnoise Hss Hs.
  assert (Hlat : get_latent g [s] inject_index rnd = Ok (Some s)).
  { unfold get_latent, ndim. rewrite Hs. reflexivity. }
  split.
  - intros tr img lat H.
    destruct (forward_ok_inv _ _ _ _ _ _ _ _ _ _ _ _ _ H)
      as (nl & ss & latent & w1 & out & skip & tr' & img'
          & Hnl & Hne & Hss' & Hlat' & Hw1 & Hloop & _ & Hx).
    rewrite Hss in Hss'. injection Hss' as <-.
    rewrite Hlat in Hlat'. injection Hlat' as <-.
    injection Hx as _ ->. split; [reflexivity|].
    destruct (get_noise_ok g noise randomize_noise Hg Hnoise)
      as (nl' & Hnl' & Hlen).
    rewrite Hnl in Hnl'. injection Hnl' as <-.
    pose proof (levels_of_length g nl Hg Hlen) as Hlevels.
    destruct Hg as (Hlog & Hlay & Hlatent & _).
    destruct (levels_of g nl) as [|lv levels] eqn:Elv.
    + apply select1_ok_inv in Hw1.
      destruct Hw1 as (a0 & a1 & ar & Ha & Hlt).
      rewrite Hs in Ha. injection Ha as <- <- <-.
      cbn [length] in Hlevels. lia.
    + assert (Hcons : lv :: levels <> []) by discriminate.
      destruct (main_loop_reads_last_slice _ _ _ _ _ _ _ _ _ Hcons Hloop)
        as (w & Hw).
      apply select1_ok_inv in Hw.
      destruct Hw as (a0 & a1 & ar & Ha & Hlt).
      rewrite Hs in Ha. injection Ha as <- <- <-.
      rewrite Hlevels in Hlt. lia.
  - intros Hshort.
    destruct (get_noise_ok g noise randomize_noise Hg Hnoise)
      as (nl & Hnl & Hlen).
    pose proof (levels_of_length g nl Hg Hlen) as Hlevels.
    rewrite forward_stages, Hnl, Hss, Hlat.
    unfold shape0. rewrite Hs.
    destruct (select1 s 0) as [w0|e0] eqn:E0;
      [|rewrite (select1_raises_index_error _ _ _ E0); eexists; reflexivity].
    destruct nl as [|noise0 nl'];
      [destruct Hg as (Hlog & Hlay & _); cbn [length] in Hlen; lia|].
    cbn [getitem nth_error].
    destruct (select1 s 1) as [w1|e1] eqn:E1;
      [|rewrite (select1_raises_index_error _ _ _ E1); eexists; reflexivity].
    cbv zeta.
    destruct (main_loop _ _ _ _ _ _ _) as [tr' [img|e]] eqn:Eloop;
      cbn [fst snd].
    + exfalso.
      destruct Hg as (Hlog & Hlay & Hlatent & _).
      destruct (levels_of g (noise0 :: nl')) as [|lv levels] eqn:Elv.
      * apply select1_ok_inv in E1.
        destruct E1 as (a0 & a1 & ar & Ha & Hlt).
        rewrite Hs in Ha. injection Ha as <- <- <-.
        cbn [length] in Hlevels. lia.
      * assert (Hcons : lv :: levels <> []) by discriminate.
        destruct (main_loop_reads_last_slice _ _ _ _ _ _ _ _ _ Hcons Eloop)
          as (w & Hw).
        apply select1_ok_inv in Hw.
        destruct Hw as (a0 & a1 & ar & Ha & Hlt).
        rewrite Hs in Ha. injection Ha as <- <- <-.
        rewrite Hlevels in Hlt. lia.
    + rewrite (main_loop_unconditioned_raises_index_error _ _ _ _ _ _ _ _
                 Eloop).
      eexists. reflexivity.
Qed.

Lemma sft_level_surplus (g : @StyleGAN2GeneratorSFT elt)
  (conditions extra : list (tensor elt)) (i : nat) (out : tensor elt) :
  1 <= i < length conditions ->
  sft_level g (conditions ++ extra) i out = sft_level g conditions i out.
Proof.
  intros Hi. unfold sft_level. rewrite length_app.
  assert (E1 : (i <? length conditions + length extra) = true)
    by (apply Nat.ltb_lt; lia).
  assert (E2 : (i <? length conditions) = true) by (apply Nat.ltb_lt; lia).
  rewrite E1, E2. unfold sft_part, getitem.
  rewrite !(nth_error_app1 conditions extra) by lia.
  reflexivity.
Qed.

Lemma main_loop_surplus (g : @StyleGAN2GeneratorSFT elt)
  (conditions extra : list (tensor elt)) (latent : tensor elt) levels :
  forall (i : nat) (out skip : tensor elt),
    1 <= i ->
    i + 2 * length levels <= length conditions + 1 ->
    main_loop g (conditions ++ extra) latent levels i out skip
    = main_loop g conditions latent levels i out skip.
Proof.
  induction levels as [|[[[[c1 c2] n1] n2] rgb] levels IH];
    intros i out skip Hi Hlen; [reflexivity|].
  cbn [length] in Hlen.
  rewrite !main_loop_turn.
  destruct (select1 latent i) as [w0|]; [|reflexivity].
  cbv zeta. rewrite sft_level_surplus by lia.
  destruct (snd (sft_level g conditions i (c1 out w0 n1))) as [o|];
    [|reflexivity].
  destruct (select1 latent (i + 1)) as [w1|]; [|reflexivity].
  destruct (select1 latent (i + 2)) as [w2|]; [|reflexivity].
  rewrite IH by lia. reflexivity.
Qed.

Lemma levels_of_at_most (g : @StyleGAN2GeneratorSFT elt)
  (nl : list (option (tensor elt))) :
  length (levels_of g nl) <= length (to_rgbs g).
Proof.
  unfold levels_of. rewrite zip5_length. lia.
Qed.

(** X13.  Conditions beyond the levels of the generator are never read:
    once the list has [num_layers - 1] entries, a pair for every level,
    appending more leaves the whole pass unchanged. *)
Theorem surplus_conditions_are_ignored
  (g : @StyleGAN2GeneratorSFT elt)
  (styles conditions extra : list (tensor elt))
  (input_is_latent : bool) (noise : option (list (option (tensor elt))))
  (randomize_noise : bool) (truncation : Q)
  (truncation_latent : option (tensor elt))
  (inject_index : option Z) (return_latents : bool) (rnd : nat) :
  constructed g ->
  (num_layers g - 1 <= Z.of_nat (length conditions))%Z ->
  forward g styles (conditions ++ extra) input_is_latent noise
    randomize_noise truncation truncation_latent inject_index
    return_latents rnd
  = forward g styles conditions input_is_latent noise randomize_noise
      truncation truncation_latent inject_index return_latents rnd.
Proof.
  intros (Hlog & Hlay & Hlat & Hconvs & Hrgbs & Hnoises) Hlen.
  rewrite !forward_stages.
  destruct (get_noise g noise randomize_noise) as [nl|]; [|reflexivity].
  destruct (latent_styles _ _ _ _ _) as [ss|]; [|reflexivity].
  destruct (get_latent g ss inject_index rnd) as [[latent|]|];
    [|reflexivity|reflexivity].
  destruct (shape0 latent) as [batch|]; [|reflexivity].
  destruct (select1 latent 0) as [w0|]; [|reflexivity].
  destruct (getitem nl 0) as [noise0|]; [|reflexivity].
  destruct (select1 latent 1) as [w1|]; [|reflexivity].
  cbv zeta. rewrite main_loop_surplus; [reflexivity|lia|].
  pose proof (levels_of_at_most g nl). lia.
Qed.



End LoopEdges.

(** ** More of the SFT arithmetic and of the latent *)

Section SftAndLatentEdges.
Context {elt : Type} {Sc : Scalar elt}.
Import Torch Generator.
Local Open Scope py_scope.

(** X22.  In half mode the features must have an even, non-zero number
    of channels: on an odd count of three or more, and on none, unpacking
    the split raises [ValueError]; on a single channel the split itself
    raises [RuntimeError]; features with fewer than two axes raise
    [IndexError].  The conditions are not read before. *)
Theorem sft_half_rejects_odd_channel_counts
  (g : @StyleGAN2GeneratorSFT elt) (conditions : list (tensor elt))
  (i : nat) (out : tensor elt) :
  sft_half g = true ->
  (forall d0 c r,
     shape out = d0 :: c :: r ->
     (c = 0 -> sft_part g conditions i out = Raise ValueError) /\
     (c = 1 -> sft_part g conditions i out = Raise RuntimeError) /\
     (3 <= c -> c <> 2 * (c / 2) ->
      sft_part g conditions i out = Raise ValueError)) /\
  (length (shape out) < 2 ->
   sft_part g conditions i out = Raise IndexError).
Proof.
  intros Hhalf. split.
  - intros d0 c r Hs. unfold sft_part, size1, split1.
    rewrite Hhalf, Hs. cbn [rbind].
    split; [intros ->; reflexivity|].
    split; [intros ->; reflexivity|].
    intros Hc Hodd.
    set (h := c / 2).
    pose proof (Nat.div_mod_eq c 2) as Hdm. fold h in Hdm.
    pose proof (Nat.mod_upper_bound c 2 ltac:(lia)) as Hm.
    assert (Hh : 1 <= h) by (subst h; apply Nat.div_le_lower_bound; lia).
    destruct (h =? 0) eqn:Eh; [apply Nat.eqb_eq in Eh; lia|].
    assert (Hn : (c + h - 1) / h = 3).
    { symmetry. apply (Nat.div_unique _ _ _ 0); subst h; lia. }
    rewrite Hn. reflexivity.
  - intros Hrank. unfold sft_part, size1. rewrite Hhalf.
    destruct (shape out) as [|d0 [|c r]]; cbn [length] in Hrank;
      try lia; reflexivity.
Qed.

Lemma bshape_rev_mismatch (sfx a b : list nat) (x y : nat) :
  x <> y -> x <> 1 -> y <> 1 ->
  bshape_rev (sfx ++ x :: a) (sfx ++ y :: b) = None.
Proof.
  intros Hxy Hx Hy. induction sfx as [|s sfx IH]; cbn [app bshape_rev].
  - apply Nat.eqb_neq in Hxy, Hx, Hy. now rewrite Hxy, Hx, Hy.
  - now rewrite Nat.eqb_refl, IH.
Qed.

(** X23.  In full mode a scale whose channel count differs from that of
    the features, neither being one, makes the level raise
    [RuntimeError]: the shapes do not broadcast. *)
Theorem sft_full_rejects_unlike_channel_counts
  (g : @StyleGAN2GeneratorSFT elt) (conditions : list (tensor elt))
  (i : nat) (out scale : tensor elt) (b c c' : nat) (hw : list nat) :
  sft_half g = false ->
  nth_error conditions (i - 1) = Some scale ->
  shape out = b :: c :: hw ->
  shape scale = b :: c' :: hw ->
  c <> c' -> c <> 1 -> c' <> 1 ->
  sft_part g conditions i out = Raise RuntimeError.
Proof.
  intros Hfull Hscale Hout Hsc Hcc Hc Hc'.
  unfold sft_part, getitem. rewrite Hfull, Hscale. cbn [rbind].
  unfold tmul, binop, broadcast_shape. rewrite Hout, Hsc.
  cbn [rev]. rewrite <- !app_assoc. cbn [app].
  rewrite (bshape_rev_mismatch (rev hw) [b] [b] c c' Hcc Hc Hc').
  reflexivity.
Qed.

Lemma drawn_index_is_the_given_one (g : @StyleGAN2GeneratorSFT elt)
  (s0 s1 : tensor elt) (rnd : nat) (k : Z) :
  choose_inject_index g None rnd = Ok k ->
  get_latent g [s0; s1] None rnd = get_latent g [s0; s1] (Some k) rnd.
Proof.
  intros H. unfold get_latent. rewrite H. reflexivity.
Qed.

(** X24.  Mixing at a drawn index always uses both styles: whatever the
    draw, the latent of two styles of one shape (batch, dim) is returned,
    its first layer is the first style and its last layer the second. *)
Theorem drawn_mixing_uses_both_styles
  (g : @StyleGAN2GeneratorSFT elt) (s0 s1 : tensor elt) (b d : nat)
  (rnd : nat) :
  constructed g ->
  shape s0 = [b; d] ->
  shape s1 = [b; d] ->
  exists latent,
    get_latent g [s0; s1] None rnd = Ok (Some latent) /\
    shape latent = [b; Z.to_nat (num_latent g); d] /\
    forall n j, n < b -> j < d ->
      item latent [n; 0; j] = item s0 [n; j] /\
      item latent [n; Z.to_nat (num_latent g) - 1; j] = item s1 [n; j].
Proof.
  intros (Hlog & Hlay & Hlat & _) Hs0 Hs1.
  destruct (randint_range 1 (num_latent g - 1) rnd ltac:(lia))
    as (k & Hk & Hrange).
  rewrite (drawn_index_is_the_given_one g s0 s1 rnd k Hk).
  destruct (mix_at_any_index g s0 s1 b d k rnd Hs0 Hs1 ltac:(lia))
    as (latent & Hrun & Hshape & Hitem).
  exists latent. split; [exact Hrun|]. split; [exact Hshape|].
  intros n j Hn Hj. rewrite !(Hitem _ n j Hn Hj). split.
  - assert (E : (0 <? Z.to_nat k) = true) by (apply Nat.ltb_lt; lia).
    now rewrite E.
  - assert (E : (Z.to_nat (num_latent g) - 1 <? Z.to_nat k) = false)
      by (apply Nat.ltb_ge; lia).
    now rewrite E.
Qed.

Lemma style_conv_steps_loop (nconds n : nat) :
  forall i, style_conv_steps (loop_trace nconds i n) = 2 * n.
Proof.
  unfold style_conv_steps.
  induction n as [|n IH]; intros i; [reflexivity|].
  cbn [loop_trace].
  destruct (i <? nconds); cbn [app filter is_style_conv length];
    rewrite IH; lia.
Qed.

Lemma style_conv_steps_loop_all (nconds n : nat) :
  style_conv_steps
    (EvConstantInput :: EvStyleConv 0 :: EvToRGB 1 :: loop_trace nconds 1 n)
  = 1 + 2 * n.
Proof.
  unfold style_conv_steps. cbn [filter is_style_conv length].
  fold (style_conv_steps (loop_trace nconds 1 n)).
  now rewrite style_conv_steps_loop.
Qed.

Lemma latent_slices_loop (nconds n : nat) :
  forall i l,
    In l (latent_slices (loop_trace nconds i n)) <->
    0 < n /\ i <= l <= i + 2 * n.
Proof.
  induction n as [|n IH]; intros i l.
  - cbn. split; [intros []|lia].
  - cbn [loop_trace].
    destruct (i <? nconds); cbn [app latent_slices In]; rewrite IH; lia.
Qed.

(** X25.  A pass that returns has applied [num_layers] style
    convolutions, one in its first row and two in each further one, and
    has handed its layers the latent slices [0] to [num_latent - 1], two
    per row: every one of these slices is there in the latent and was
    read. *)
Theorem every_latent_slice_is_read
  (g : @StyleGAN2GeneratorSFT elt)
  (styles conditions : list (tensor elt))
  (input_is_latent : bool) (noise : option (list (option (tensor elt))))
  (randomize_noise : bool) (truncation : Q)
  (truncation_latent : option (tensor elt))
  (inject_index : option Z) (return_latents : bool) (rnd : nat)
  tr image lat :
  constructed g ->
  noise_ok g noise ->
  forward g styles conditions input_is_latent noise randomize_noise
    truncation truncation_latent inject_index return_latents rnd
  = (tr, Ok (image, lat)) ->
  exists nl ss latent (rows : list (@row elt)) (out : tensor elt),
    get_noise g noise randomize_noise = Ok nl /\
    latent_styles g styles input_is_latent truncation truncation_latent
    = Ok ss /\
    get_latent g ss inject_index rnd = Ok (Some latent) /\
    pass_rows g conditions latent nl rows /\
    nth_error rows (length rows - 1) = Some (out, image) /\
    Z.of_nat (1 + 2 * (length rows - 1)) = num_layers g /\
    Z.of_nat (2 * length rows) = num_latent g /\
    (forall l, (Z.of_nat l < num_latent g)%Z ->
               exists w, select1 latent l = Ok w) /\
    Z.of_nat (style_conv_steps tr) = num_layers g /\
    (forall l, In l (latent_slices tr) <-> (Z.of_nat l < num_latent g)%Z).
Proof.
  intros Hg Hnoise H.
  destruct (forward_ok_rows _ _ _ _ _ _ _ _ _ _ _ _ _ _ H)
    as (nl & ss & latent & rows & out & Hnl & Hss & Hlat & _
        & Hrows & Hlen & Hlast & ->).
  destruct (get_noise_ok g noise randomize_noise Hg Hnoise)
    as (nl' & Hnl' & Hnoises).
  rewrite Hnl in Hnl'. injection Hnl' as <-.
  pose proof (levels_of_length g nl Hg Hnoises) as Hlevels.
  destruct Hg as (Hlog & Hlay & Hlatent & _).
  exists nl, ss, latent, rows, out.
  split; [exact Hnl|]. split; [exact Hss|]. split; [exact Hlat|].
  split; [exact Hrows|]. split; [|split; [lia|split; [lia|split; [|split]]]].
  - rewrite Hlen. replace (S (length (levels_of g nl)) - 1)
      with (length (levels_of g nl)) by lia. exact Hlast.
  - assert (Htop : exists w, select1 latent (2 * length rows - 1) = Ok w).
    { destruct Hrows as ((r0 & Hr0 & (b & w0 & w1 & n0 & _ & _ & _ & E1 & _))
                         & Hstep).
      destruct (length (levels_of g nl)) as [|n] eqn:En.
      - rewrite Hlen. exists w1. exact E1.
      - destruct (nth_error rows n) as [r|] eqn:Er;
          [|apply nth_error_None in Er; lia].
        destruct (Hstep n r (out, image) Er Hlast)
          as (x & mid & (c1 & c2 & rgb & n1 & n2 & v0 & v1 & v2
                         & _ & _ & _ & _ & _ & _ & _ & E2 & _) & _).
        exists v2. rewrite Hlen.
        replace (2 * S (S n) - 1) with (2 * n + 3) by lia. exact E2. }
    destruct Htop as (w & Hw).
    apply select1_ok_inv in Hw. destruct Hw as (d0 & d1 & r & Hshape & Hlt).
    intros l Hl. apply (select1_ok latent d0 d1 r l Hshape). lia.
  - rewrite (style_conv_steps_loop_all (length conditions)
               (length (levels_of g nl))), Hlevels. lia.
  - intros l. cbn [latent_slices In].
    rewrite latent_slices_loop, Hlevels. lia.
Qed.

End SftAndLatentEdges.

(** ** Construction of the upsampling layers *)

Section ConvUpConstruction.
Import ConvUp.

(** X15.  [ConvUpLayer.__init__] returns only on a positive
    [in_channels], a positive [kernel_size] and a non-negative
    [out_channels], all three below [2**63]; it then records the scale
    [1 / sqrt(in_channels * kernel_size ** 2)] and draws a weight of
    shape (out_channels, in_channels, kernel_size, kernel_size).
    Otherwise it raises, by the first check that fails:
    [OverflowError] when the fan-in is beyond the floats,
    [ZeroDivisionError] when it is zero, [ValueError] when it is
    negative, [TypeError] for a weight dimension outside the 64-bit
    integers, and [RuntimeError] for a negative one. *)
Theorem convup_init_outcome
  (in_channels out_channels kernel_size stride padding : Z)
  (bias : bool) (bias_init_val : Q) (activate : bool) :
  match init in_channels out_channels kernel_size stride padding
          bias bias_init_val activate with
  | Ok l =>
      (0 < in_channels < 2 ^ 63)%Z /\ (0 < kernel_size < 2 ^ 63)%Z /\
      (0 <= out_channels < 2 ^ 63)%Z /\
      scale l = InvSqrt (in_channels * kernel_size ^ 2) /\
      weight_shape l
      = [out_channels; in_channels; kernel_size; kernel_size] /\
      ConvUp.stride l = stride /\ ConvUp.padding l = padding
  | Raise e =>
      (e = OverflowError /\
       (2 ^ 1024 - 2 ^ 970 <= Z.abs (in_channels * kernel_size ^ 2))%Z) \/
      (e = ZeroDivisionError /\ (in_channels = 0 \/ kernel_size = 0)%Z) \/
      (e = ValueError /\ (in_channels < 0)%Z /\ kernel_size <> 0%Z /\
       (Z.abs (in_channels * kernel_size ^ 2) < 2 ^ 1024 - 2 ^ 970)%Z) \/
      (e = TypeError /\ (0 < in_channels)%Z /\ kernel_size <> 0%Z /\
       (Z.abs (in_channels * kernel_size ^ 2) < 2 ^ 1024 - 2 ^ 970)%Z /\
       (int64 out_channels = false \/ int64 in_channels = false \/
        int64 kernel_size = false)) \/
      (e = RuntimeError /\ (0 < in_channels < 2 ^ 63)%Z /\
       int64 out_channels = true /\ int64 kernel_size = true /\
       (out_channels < 0 \/ kernel_size < 0)%Z)
  end.
Proof.
  apply init_cases.
Qed.

(** A kernel size of 3 or 1 never stops the constructor. *)
Lemma init_raises_on_channels (in_channels out_channels k stride padding : Z)
  (bias : bool) (v : Q) (activate : bool) (e : error) :
  (k = 3 \/ k = 1)%Z ->
  init in_channels out_channels k stride padding bias v activate
  = Raise e ->
  (in_channels <= 0 \/ 2 ^ 63 <= in_channels \/
   out_channels < 0 \/ 2 ^ 63 <= out_channels)%Z.
Proof.
  intros Hk H.
  pose proof (init_cases in_channels out_channels k stride padding
                bias v activate) as Hc.
  rewrite H in Hc.
  destruct Hc as [(_ & Hc)|[(_ & Hc)|[(_ & Hc & _)
                  |[(_ & _ & _ & _ & Hc)|(_ & _ & _ & _ & Hc)]]]].
  - destruct Hk as [-> | ->]; lia.
  - lia.
  - lia.
  - rewrite !int64_outside in Hc. lia.
  - lia.
Qed.

(** X16.  [ResUpBlock.__init__] returns only on a positive
    [in_channels] and a non-negative [out_channels], both below [2**63],
    and raises on no others.  Its main branch ends in a 3x3 upsampling
    convolution of padding 1 whose bias lives in the activation; its skip
    branch is a 1x1 upsampling convolution with neither bias nor
    activation; the first convolution keeps the channel count. *)
Theorem resup_block_outcome (in_channels out_channels : Z) :
  match resup_init in_channels out_channels with
  | Ok blk =>
      (0 < in_channels < 2 ^ 63)%Z /\ (0 <= out_channels < 2 ^ 63)%Z /\
      cl_in_channels (conv1 blk) = in_channels /\
      cl_out_channels (conv1 blk) = in_channels /\
      kernel_size (conv2 blk) = 3%Z /\ ConvUp.padding (conv2 blk) = 1%Z /\
      ConvUp.bias (conv2 blk) = None /\
      activation (conv2 blk) = Some (FusedLeakyReLU out_channels) /\
      kernel_size (skip blk) = 1%Z /\ ConvUp.padding (skip blk) = 0%Z /\
      ConvUp.bias (skip blk) = None /\
      activation (skip blk) = None
  | Raise e =>
      (in_channels <= 0 \/ 2 ^ 63 <= in_channels \/
       out_channels < 0 \/ 2 ^ 63 <= out_channels)%Z
  end.
Proof.
  unfold resup_init.
  pose proof (init_cases in_channels out_channels 3 1 1 true 0 true) as H2.
  destruct (init in_channels out_channels 3 1 1 true 0 true) as [c2|e2] eqn:E2;
    cbn [rbind].
  - destruct H2 as (Hin & _ & Hout & _).
    destruct (init in_channels out_channels 1 1 0 false 0 false) as [sk|es]
      eqn:Es; cbn [rbind].
    + apply init_records in E2, Es.
      destruct E2 as (_ & _ & K2 & _ & P2 & B2 & A2).
      destruct Es as (_ & _ & Ks & _ & Ps & Bs & As).
      cbn [conv1 conv2 skip cl_in_channels cl_out_channels].
      cbn [andb negb] in B2, A2, Bs, As.
      repeat split; try assumption; lia.
    + eapply init_raises_on_channels; [|exact Es]. now right.
  - eapply init_raises_on_channels; [|exact E2]. now left.
Qed.

End ConvUpConstruction.

(** ** The logit of the discriminator *)

Section DiscriminatorLogit.
Context {elt : Type}.
Import Discriminator.

(** X17.  The logit of the discriminator is the same with and without
    [return_feats], no feature is returned without it, and on an image of
    three channels, with layers that return as many channels as they are
    configured for, the logit has one channel. *)
Theorem discriminator_logit_has_one_channel
  (apply : ConvLayer -> tensor elt -> tensor elt) (x : tensor elt)
  (return_feats : bool) :
  fst (forward apply init x return_feats) = fst (forward apply init x true) /\
  snd (forward apply init x false) = None /\
  (channels_respected apply ->
   channels x = Some 3 ->
   channels (fst (forward apply init x return_feats)) = Some 1).
Proof.
  split; [destruct return_feats; reflexivity|].
  split; [reflexivity|].
  intros Happly Hx.
  assert (E : fst (forward apply init x return_feats)
              = apply (final_conv init)
                  (apply (conv5 init)
                     (apply (conv4 init)
                        (apply (conv3 init)
                           (apply (conv2 init) (apply (conv1 init) x))))))
    by (destruct return_feats; reflexivity).
  rewrite E.
  apply (Happly (final_conv init)).
  apply (Happly (conv5 init)).
  apply (Happly (conv4 init)).
  apply (Happly (conv3 init)).
  apply (Happly (conv2 init)).
  apply (Happly (conv1 init)).
  exact Hx.
Qed.

End DiscriminatorLogit.

(** ** GFPGANv1: the encoded latents and the decoded sample *)

Section EncoderWrapper.
Context {elt : Type} {Sc : Scalar elt}.
Import Torch TorchIndex GFPGAN.
Local Open Scope py_scope.

(** [avg.repeat(b, 1, 1)] of an average of shape (layers, dim): the
    average, once per image. *)
Lemma repeat_per_image (avg : tensor elt) (b L d : nat) :
  shape avg = [L; d] ->
  exists r,
    t_repeat avg [Z.of_nat b; 1%Z; 1%Z] = Ok r /\
    shape r = [b; L; d] /\
    forall n l j, l < L -> j < d -> item r [n; l; j] = item avg [l; j].
Proof.
  intros Hs. unfold t_repeat, ndim. rewrite Hs.
  cbn [length Nat.ltb Nat.leb existsb].
  assert (E : (Z.of_nat b <? 0)%Z = false) by (apply Z.ltb_ge; lia).
  rewrite E. cbn [orb Z.ltb Z.compare].
  eexists. split; [reflexivity|]. split.
  - cbn. rewrite Nat2Z.id, !Nat.mul_1_r, Nat.add_0_r. reflexivity.
  - intros n l j Hl Hj. cbn.
    rewrite (Nat.mod_small l L), (Nat.mod_small j d) by assumption.
    reflexivity.
Qed.

(** X18.  With [start_from_latent_avg], codes of shape (batch, layers,
    dim) and an average of shape (layers, dim), [get_latents] returns
    codes of the same shape, each element being the code plus the average
    of its layer and feature, unless it is asked for the cars layout on
    eighteen layers. *)
Theorem get_latents_adds_the_average
  (net : @pSp elt) (x : tensor elt) (is_cars : bool) (b L d : nat) :
  start_from_latent_avg net = true ->
  shape (encoder net x) = [b; L; d] ->
  shape (latent_avg net) = [L; d] ->
  (L <> 18 \/ is_cars = false) ->
  exists codes,
    get_latents net x is_cars = Ok codes /\
    shape codes = [b; L; d] /\
    forall n l j, n < b -> l < L -> j < d ->
      item codes [n; l; j]
      = eadd (item (encoder net x) [n; l; j]) (item (latent_avg net) [l; j]).
Proof.
  intros Havg Hcodes Hshape Hcars.
  destruct (repeat_per_image (latent_avg net) b L d Hshape)
    as (r & Hr & Hrs & Hri).
  destruct (binop_same_shape eadd (encoder net x) r)
    as (t & Ht & Hts & Hti).
  { now rewrite Hrs, Hcodes. }
  exists t. unfold get_latents, ndim, shape0.
  rewrite Havg, Hcodes. cbn [length Nat.eqb rbind]. rewrite Hr.
  cbn [rbind]. unfold tadd. rewrite Ht. cbn [rbind].
  unfold size1. rewrite Hts, Hcodes. cbn [rbind].
  assert (E : (L =? 18) && is_cars = false).
  { destruct Hcars as [Hne| ->]; [|apply andb_false_r].
    apply Nat.eqb_neq in Hne. now rewrite Hne. }
  rewrite E. split; [reflexivity|]. split; [reflexivity|].
  intros n l j Hn Hl Hj.
  rewrite Hti, Hri by (rewrite ?Hcodes; repeat constructor; assumption).
  reflexivity.
Qed.

(** X19.  With [start_from_latent_avg] and codes of shape (batch, dim),
    one latent per image, [get_latents] adds the first layer of the
    average to every image.  Asked for the cars layout on codes of
    eighteen features it raises [IndexError]: the slice takes three
    axes. *)
Theorem get_latents_on_flat_codes
  (net : @pSp elt) (x : tensor elt) (is_cars : bool) (b L d : nat) :
  start_from_latent_avg net = true ->
  shape (encoder net x) = [b; d] ->
  shape (latent_avg net) = [L; d] ->
  0 < L ->
  ((d <> 18 \/ is_cars = false) ->
   exists codes,
     get_latents net x is_cars = Ok codes /\
     shape codes = [b; d] /\
     forall n j, n < b -> j < d ->
       item codes [n; j]
       = eadd (item (encoder net x) [n; j]) (item (latent_avg net) [0; j])) /\
  (d = 18 -> is_cars = true ->
   get_latents net x is_cars = Raise IndexError).
Proof.
  intros Havg Hcodes Hshape HL.
  destruct (repeat_per_image (latent_avg net) b L d Hshape)
    as (r & Hr & Hrs & Hri).
  assert (Hrow : exists row,
             select_mid r 0 = Ok row /\ shape row = [b; d] /\
             forall n j, item row [n; j] = item r [n; 0; j]).
  { unfold select_mid. rewrite Hrs.
    apply Nat.ltb_lt in HL. rewrite HL.
    eexists. split; [reflexivity|]. split; reflexivity. }
  destruct Hrow as (row & Hrow & Hrows & Hrowi).
  destruct (binop_same_shape eadd (encoder net x) row)
    as (t & Ht & Hts & Hti).
  { now rewrite Hrows, Hcodes. }
  assert (Hrun : forall c,
             get_latents net x c
             = if (d =? 18) && c then slice_mid_to t 16 else Ok t).
  { intros c. unfold get_latents, ndim, shape0.
    rewrite Havg, Hcodes. cbn [length Nat.eqb rbind]. rewrite Hr.
    cbn [rbind]. rewrite Hrow. cbn [rbind].
    unfold tadd. rewrite Ht. cbn [rbind].
    unfold size1. rewrite Hts, Hcodes. reflexivity. }
  split.
  - intros Hcars. exists t. rewrite Hrun.
    assert (E : (d =? 18) && is_cars = false).
    { destruct Hcars as [Hne| ->]; [|apply andb_false_r].
      apply Nat.eqb_neq in Hne. now rewrite Hne. }
    rewrite E. split; [reflexivity|]. split; [congruence|].
    intros n j Hn Hj.
    rewrite Hti by (rewrite Hcodes; repeat constructor; assumption).
    rewrite Hrowi, Hri by assumption. reflexivity.
  - intros -> ->. rewrite Hrun. cbn [Nat.eqb andb].
    unfold slice_mid_to. rewrite Hts, Hcodes. reflexivity.
Qed.

(** X20.  The cars layout keeps the first sixteen of eighteen layers:
    when [get_latents] without [is_cars] returns codes of three axes or
    more, then with [is_cars] it returns the same codes cut to sixteen
    layers if they have eighteen, and the same codes otherwise. *)
Theorem cars_layout_keeps_sixteen_layers
  (net : @pSp elt) (x : tensor elt) (codes : tensor elt)
  (d0 L d2 : nat) (r : list nat) :
  get_latents net x false = Ok codes ->
  shape codes = d0 :: L :: d2 :: r ->
  exists cars,
    get_latents net x true = Ok cars /\
    shape cars = d0 :: (if L =? 18 then 16 else L) :: d2 :: r /\
    forall idx, item cars idx = item codes idx.
Proof.
  unfold get_latents. intros H Hs.
  destruct (if start_from_latent_avg net then _ else _) as [c|];
    [|discriminate].
  cbn [rbind] in H |- *.
  destruct (size1 c) as [layers|] eqn:Esize; [|discriminate].
  cbn [rbind] in H |- *. rewrite andb_false_r in H. injection H as ->.
  unfold size1 in Esize. rewrite Hs in Esize. injection Esize as <-.
  rewrite andb_true_r.
  destruct (L =? 18) eqn:E.
  - apply Nat.eqb_eq in E. subst L.
    unfold slice_mid_to. rewrite Hs.
    eexists. split; [reflexivity|]. split; reflexivity.
  - exists codes. split; [reflexivity|]. split; [exact Hs|reflexivity].
Qed.

(** X21.  [GFPGANv1.forward] decodes the first image of the batch only:
    the decoder is given one latent, of batch size one, whose elements
    are those of the first encoded latent, whatever its three flags; on
    an empty batch it raises [IndexError]. *)
Theorem gfpgan_forward_decodes_the_first_sample
  (g : @GFPGANv1 elt) (x codes : tensor elt) (b : nat) (rest : list nat)
  (return_latents return_rgb randomize_noise : bool) :
  get_latents (net g) x false = Ok codes ->
  shape codes = b :: rest ->
  (0 < b ->
   exists first,
     forward g x return_latents return_rgb randomize_noise
     = Ok (decoder (net g) [first] None true false true) /\
     shape first = 1 :: rest /\
     forall i idx, item first (i :: idx) = item codes (0 :: idx)) /\
  (b = 0 ->
   forward g x return_latents return_rgb randomize_noise = Raise IndexError).
Proof.
  intros Hcodes Hs. unfold forward. rewrite Hcodes. cbn [rbind].
  unfold select0. rewrite Hs. split.
  - intros Hb. apply Nat.ltb_lt in Hb. rewrite Hb. cbn [rbind].
    exists (unsqueeze0 (mkT rest (fun idx => item codes (0 :: idx)))).
    split.
    + destruct (decoder (net g) _ None true false true). reflexivity.
    + split; reflexivity.
  - intros ->. reflexivity.
Qed.

End EncoderWrapper.

(** * The further properties at concrete arguments *)

Module MoreInstances.
Import Torch TorchIndex Generator Example ExampleNet.

Lemma gen8_built (half : bool) : constructed (gen8 half).
Proof.
  unfold constructed. cbn. repeat split; lia.
Defined.

(** X1 with a ratio of two. *)
Lemma truncation_of_two_is_ignored :
  style_truncation 2 (Some centre) [style_a] = Ok [style_a] /\
  forward (gen8 false) [style_a] [] false None true 2 (Some centre) None
    false 0
  = forward (gen8 false) [style_a] [] false None true 1 None None false 0.
Proof.
  apply (truncation_of_one_or_more_is_ignored (gen8 false) [style_a] []
           false None true 2 (Some centre) None false 0).
  unfold Qle. simpl. lia.
Defined.

(** X2 with a ratio of one half. *)
Lemma truncation_of_a_half_without_centre_raises :
  forward (gen8 false) [style_a] [] false None true (1 # 2) None None
    false 0
  = ([], Raise TypeError).
Proof.
  apply (truncation_without_centre_raises (gen8 false) [style_a] []
           false None true (1 # 2) None false 0).
  - apply gen8_built.
  - simpl. exact I.
  - unfold Qlt. simpl. lia.
  - discriminate.
Defined.

(** X3 with a ratio of one half. *)
Lemma truncation_of_a_half_interpolates :
  exists truncated,
    style_truncation (1 # 2) (Some centre) [style_a] = Ok truncated /\
    Forall2 (fun s s' =>
               shape s' = shape s /\
               forall idx, in_range idx (shape s) ->
                 item s' idx
                 = eadd (item centre idx)
                     (escal (1 # 2) (esub (item s idx) (item centre idx))))
      [style_a] truncated.
Proof.
  apply (truncation_interpolates_towards_centre (1 # 2) centre [style_a]).
  - unfold Qlt. simpl. lia.
  - repeat constructor.
Defined.

(** X4 on the generator of output size 8. *)
Lemma no_style_at_gen8 :
  forward (gen8 false) [] [] false None true 1 None None false 0
  = ([], Raise (UnboundLocalError "latent")).
Proof.
  apply (no_style_raises_unbound_latent (gen8 false) [] false None true 1
           None None false 0).
  - apply gen8_built.
  - simpl. exact I.
Defined.

(** X5 on two styles of shape (1, 2). *)
Lemma inject_index_at_the_ends_at_gen8 :
  (exists latent,
     get_latent (gen8 false) [style_a; style_b]
       (Some (num_latent (gen8 false))) 0 = Ok (Some latent) /\
     shape latent = [1; Z.to_nat (num_latent (gen8 false)); 2] /\
     forall l n j, l < Z.to_nat (num_latent (gen8 false)) -> n < 1 -> j < 2 ->
       item latent [n; l; j] = item style_a [n; j]) /\
  (exists latent,
     get_latent (gen8 false) [style_a; style_b] (Some 0%Z) 0
     = Ok (Some latent) /\
     shape latent = [1; Z.to_nat (num_latent (gen8 false)); 2] /\
     forall l n j, l < Z.to_nat (num_latent (gen8 false)) -> n < 1 -> j < 2 ->
       item latent [n; l; j] = item style_b [n; j]).
Proof.
  apply (inject_index_at_the_ends_keeps_one_style (gen8 false)
           style_a style_b 1 2 0).
  - apply gen8_built.
  - reflexivity.
  - reflexivity.
Defined.

(** X6 with the index 5 on a generator of four latents. *)
Lemma inject_index_five_raises :
  get_latent (gen8 false) [style_a; style_b] (Some 5%Z) 0
  = Raise RuntimeError.
Proof.
  apply (inject_index_outside_the_latents_raises (gen8 false)
           style_a style_b 1 2 1 2 5%Z 0).
  - simpl. lia.
  - reflexivity.
  - reflexivity.
  - right. simpl. lia.
Defined.

(** X7 with batches of one and two, and with a per-layer latent. *)
Lemma unlike_styles_raise :
  get_latent (gen8 false) [style_a; style_two] (Some 2%Z) 0
  = Raise RuntimeError /\
  get_latent (gen8 false) [latent_4x2; style_b] (Some 2%Z) 0
  = Raise RuntimeError.
Proof.
  split.
  - apply (proj1 (mixed_styles_must_be_flat_and_alike (gen8 false)
                    style_a style_two 2%Z 0 ltac:(simpl; lia)) 1 2 2 2).
    + reflexivity.
    + reflexivity.
    + left. lia.
  - apply (proj2 (mixed_styles_must_be_flat_and_alike (gen8 false)
                    latent_4x2 style_b 2%Z 0 ltac:(simpl; lia)) 1 4 2 []).
    reflexivity.
Defined.

(** X8 on the generator of output size 8. *)
Lemma noise_at_gen8 :
  get_noise (gen8 false) None true = Ok [None; None; None] /\
  get_noise (gen8 false) None false = Ok (map Some (noises (gen8 false))).
Proof.
  destruct (noise_is_drawn_or_read_from_the_buffers (gen8 false))
    as (Hdrawn & Hstored & _).
  - simpl. lia.
  - split; [exact Hdrawn|]. apply Hstored. reflexivity.
Defined.

(** X9 on the one level of the generator of output size 8. *)
Lemma level_zero_at_gen8 :
  nth_error (style_convs (gen8 false)) (2 * 0) = Some conv_2ch /\
  nth_error (style_convs (gen8 false)) (2 * 0 + 1) = Some conv_2ch /\
  nth_error (map Some (noises (gen8 false))) (2 * 0 + 1)
  = Some (Some (const [1; 1; 8; 8] 0)) /\
  nth_error (map Some (noises (gen8 false))) (2 * 0 + 2)
  = Some (Some (const [1; 1; 8; 8] 0)) /\
  nth_error (to_rgbs (gen8 false)) 0 = Some rgb_id.
Proof.
  apply (levels_pair_layers_and_noises (gen8 false)
           (map Some (noises (gen8 false))) 0).
  reflexivity.
Defined.

(** X10 with a noise list of three entries on the generator of output
    size 16: the loop runs one level of two. *)
Lemma three_noise_entries_at_gen16 :
  exists tr image lat latent (rows : list (@row Q)) out,
    forward gen16 [style_a] [] false (Some [None; None; None]) true 1
      None None false 0 = (tr, Ok (image, lat)) /\
    pass_rows gen16 [] latent [None; None; None] rows /\
    length rows = 2 /\
    nth_error rows 1 = Some (out, image) /\
    to_rgb_steps tr = 2.
Proof.
  eexists. eexists. eexists.
  destruct (short_noise_list_cuts_the_loop gen16 [style_a] [] false
              [None; None; None] true 1 None None false 0 _ _ _
              Instances.gen16_constructed eq_refl)
    as (ss & latent & rows & out & _ & _ & Hrows & Hlen & Hlast & Hsteps).
  change (length rows = 2) in Hlen. rewrite Hlen in Hlast, Hsteps.
  exists latent, rows, out.
  split; [reflexivity|]. split; [exact Hrows|]. split; [exact Hlen|].
  split; [exact Hlast|exact Hsteps].
Defined.

(** X11 on the generator of output size 8. *)
Lemma empty_noise_at_gen8 :
  forward (gen8 false) [style_a] [] false (Some []) true 1 None None false 0
  = ([EvConstantInput], Raise IndexError).
Proof.
  apply (empty_noise_list_raises (gen8 false) [style_a] [] false true 1
           None None false 0 [style_a]).
  - apply gen8_built.
  - reflexivity.
  - simpl. left. exists 1, 2. reflexivity.
Defined.

(** X12 with a latent of three layers on a generator of four latents. *)
Lemma short_latent_at_gen8 :
  exists tr,
    forward (gen8 false) [latent_3x2] [] true None true 1 None None true 0
    = (tr, Raise IndexError).
Proof.
  apply (proj2 (per_layer_latent_is_used_as_is (gen8 false) [latent_3x2] []
                  true None true 1 None None true 0 latent_3x2 1 3 2 []
                  (gen8_built false) I eq_refl eq_refl)).
  simpl. lia.
Defined.

(** X13 with two pairs on a generator of one level. *)
Lemma second_pair_is_ignored_at_gen8 :
  forward (gen8 false) [style_a]
    ([cond_scale; cond_shift] ++ [cond_shift; cond_scale])
    false None true 1 None None false 0
  = forward (gen8 false) [style_a] [cond_scale; cond_shift]
      false None true 1 None None false 0.
Proof.
  apply (surplus_conditions_are_ignored (gen8 false) [style_a]
           [cond_scale; cond_shift] [cond_shift; cond_scale]
           false None true 1 None None false 0).
  - apply gen8_built.
  - simpl. lia.
Defined.


(** X17 on an image of three channels. *)
Lemma logit_of_image3 :
  Discriminator.channels
    (fst (Discriminator.forward conv_layer Discriminator.init image3 false))
  = Some 1.
Proof.
  destruct (discriminator_logit_has_one_channel conv_layer image3 false)
    as (_ & _ & Hchannels).
  apply Hchannels.
  - intros l x _. reflexivity.
  - reflexivity.
Defined.

(** X18 on eighteen layers for a batch of two. *)
Lemma average_is_added_at_psp18 :
  exists codes,
    GFPGAN.get_latents (psp18 true) image3 false = Ok codes /\
    shape codes = [2; 18; 2] /\
    forall n l j, n < 2 -> l < 18 -> j < 2 ->
      item codes [n; l; j]
      = eadd (item (GFPGAN.encoder (psp18 true) image3) [n; l; j])
          (item (GFPGAN.latent_avg (psp18 true)) [l; j]).
Proof.
  apply (get_latents_adds_the_average (psp18 true) image3 false 2 18 2).
  - reflexivity.
  - reflexivity.
  - reflexivity.
  - right. reflexivity.
Defined.

(** X19 on one latent per image for a batch of two. *)
Lemma flat_codes_at_psp_flat :
  exists codes,
    GFPGAN.get_latents psp_flat image3 false = Ok codes /\
    shape codes = [2; 2] /\
    forall n j, n < 2 -> j < 2 ->
      item codes [n; j]
      = eadd (item (GFPGAN.encoder psp_flat image3) [n; j])
          (item (GFPGAN.latent_avg psp_flat) [0; j]).
Proof.
  apply (proj1 (get_latents_on_flat_codes psp_flat image3 false 2 18 2
                  eq_refl eq_refl eq_refl ltac:(lia))).
  right. reflexivity.
Defined.

(** X20 on eighteen layers. *)
Lemma cars_layout_at_psp18 :
  exists cars,
    GFPGAN.get_latents (psp18 false) image3 true = Ok cars /\
    shape cars = 2 :: (if 18 =? 18 then 16 else 18) :: 2 :: [] /\
    forall idx, item cars idx = item (encoder18 image3) idx.
Proof.
  apply (cars_layout_keeps_sixteen_layers (psp18 false) image3
           (encoder18 image3) 2 18 2 []).
  - reflexivity.
  - reflexivity.
Defined.

(** X21 on a batch of two. *)
Lemma first_sample_at_gfpgan18 :
  exists first,
    GFPGAN.forward gfpgan18 image3 false true true
    = Ok (GFPGAN.decoder (GFPGAN.net gfpgan18) [first] None true false true) /\
    shape first = 1 :: [18; 2] /\
    forall i idx, item first (i :: idx) = item (encoder18 image3) (0 :: idx).
Proof.
  apply (proj1 (gfpgan_forward_decodes_the_first_sample gfpgan18 image3
                  (encoder18 image3) 2 [18; 2] false true true
                  eq_refl eq_refl)).
  lia.
Defined.

(** X22 on three channels. *)
Lemma sft_half_on_three_channels_raises :
  sft_part (gen8 true) [cond_scale; cond_shift] 1 (ramp [1; 3; 1; 1])
  = Raise ValueError.
Proof.
  destruct (sft_half_rejects_odd_channel_counts (gen8 true)
              [cond_scale; cond_shift] 1 (ramp [1; 3; 1; 1]) eq_refl)
    as (Hchannels & _).
  destruct (Hchannels 1 3 [1; 1] eq_refl) as (_ & _ & Hodd).
  apply Hodd.
  - lia.
  - simpl. lia.
Defined.

(** X23 with a scale of three channels on features of four. *)
Lemma sft_full_on_unlike_channels_raises :
  sft_part (gen8 false) [const [1; 3; 1; 1] 2; cond_shift] 1 feat_4ch
  = Raise RuntimeError.
Proof.
  apply (sft_full_rejects_unlike_channel_counts (gen8 false)
           [const [1; 3; 1; 1] 2; cond_shift] 1 feat_4ch
           (const [1; 3; 1; 1] 2) 1 4 3 [1; 1]).
  - reflexivity.
  - reflexivity.
  - reflexivity.
  - reflexivity.
  - lia.
  - lia.
  - lia.
Defined.

(** X24 on two styles of shape (1, 2). *)
Lemma drawn_mixing_at_gen8 :
  exists latent,
    get_latent (gen8 false) [style_a; style_b] None 1 = Ok (Some latent) /\
    shape latent = [1; Z.to_nat (num_latent (gen8 false)); 2] /\
    forall n j, n < 1 -> j < 2 ->
      item latent [n; 0; j] = item style_a [n; j] /\
      item latent [n; Z.to_nat (num_latent (gen8 false)) - 1; j]
      = item style_b [n; j].
Proof.
  apply (drawn_mixing_uses_both_styles (gen8 false) style_a style_b 1 2 1).
  - apply gen8_built.
  - reflexivity.
  - reflexivity.
Defined.

(** X25 on the generator of output size 8: three style convolutions,
    four latent slices, two rows. *)
Lemma latent_slices_at_gen8 :
  exists tr image lat (latent : tensor Q) (rows : list (@row Q)),
    forward (gen8 false) [style_a] [cond_scale; cond_shift]
      false None true 1 None None false 0 = (tr, Ok (image, lat)) /\
    length rows = 2 /\
    (forall l, l < 4 -> exists w, select1 latent l = Ok w) /\
    Z.of_nat (style_conv_steps tr) = 3%Z /\
    (forall l, In l (latent_slices tr) <-> l < 4).
Proof.
  eexists. eexists. eexists.
  destruct (every_latent_slice_is_read (gen8 false) [style_a]
              [cond_scale; cond_shift] false None true 1 None None false 0
              _ _ _ (gen8_built false) I eq_refl)
    as (nl & ss & latent & rows & out & _ & _ & _ & _ & _ & _ & Hrows
        & Hread & Hconvs & Hslices).
  exists latent, rows.
  split; [reflexivity|]. split; [cbn in Hrows; lia|]. split; [|split].
  - intros l Hl. apply Hread. cbn. lia.
  - exact Hconvs.
  - intros l. rewrite Hslices. cbn. lia.
Defined.

End MoreInstances.
